(** * httpc: the reliable datagram transport of [libhttpserver]

    A shallow embedding of [pkg/libhttpserver/server.go]: the packet codec
    ([parsePacket], [getBytesFromPacket], [MakePacket]), the response
    chunker ([getResponsePacketBytes], [writeResponseToClient]) and the body
    of the per-peer receive loop of [StartUDPServer], followed by the
    properties of the transport that the specification states.  Further
    parts embed the HTTP side of the server ([parseRequestData],
    [findRoute], [handleUdpConnection]), the handler of the file server
    in [main] and the response handling of the client [libhttpc], with
    properties read off the code.

    Conventions.
    - A Go [byte] is a [Byte.byte]; [byte(x)] truncates to the low 8 bits.
    - A Go [string] and a Go [[]byte] are both byte sequences, [list byte];
      the conversions [[]byte(s)] and [string(b)] copy and are the identity
      on values.
    - [uint32], [uint16] and [int] (64 bits) are [Z] with the wrap-around
      written out where the source can overflow.
    - A run-time panic (index or slice bounds out of range) is [None]; a
      panic in the server loop or in the goroutine of a session ends the
      process, since neither recovers.
    - What a session does to the outside is a trace of events: datagrams
      written, lines logged, requests handed to the HTTP side. *)

From Stdlib Require Import ZArith Lia Strings.Byte Strings.String.
From stdpp Require Import base tactics option list numbers.
From stdpp Require gmap.

Local Open Scope Z_scope.

(** ** Go run-time and library functions used by the server *)

Module Go.

Definition byteZ (b : byte) : Z := Z.of_N (Byte.to_N b).

(** The conversion [byte(x)] of an integer. *)
Definition toByte (x : Z) : byte :=
  default x00 (Byte.of_N (Z.to_N (x mod 256))).

(** A string literal as its bytes. *)
Definition lit (s : string) : list byte := list_byte_of_string s.

Definition wrap32 (x : Z) : Z := x mod 2 ^ 32.
Definition wrap16 (x : Z) : Z := x mod 2 ^ 16.

(** A byte slice: the [len] visible elements and the rest of the backing
    array up to [cap]. *)
Record slice := Slice { elems : list byte; spare : list byte }.

Definition len (d : slice) : nat := length (elems d).
Definition cap (d : slice) : nat := length (elems d ++ spare d).

(** [d[i]]: in range when [i < len(d)]. *)
Definition index (d : slice) (i : nat) : option byte := elems d !! i.

(** [d[lo:hi]]: for a slice the upper bound is the capacity. *)
Definition subslice (d : slice) (lo hi : nat) : option (list byte) :=
  if decide (lo ≤ hi ∧ hi ≤ cap d)%nat
  then Some (take (hi - lo) (drop lo (elems d ++ spare d)))
  else None.

(** [d[lo:]]: the upper bound defaults to [len(d)]. *)
Definition subsliceFrom (d : slice) (lo : nat) : option (list byte) :=
  if decide (lo ≤ len d)%nat then Some (drop lo (elems d)) else None.

(** [l[lo:hi]] for a sequence whose capacity is not exceeded
    ([hi ≤ len]); used where the source slices within the length. *)
Definition sub {A} (l : list A) (lo hi : Z) : option (list A) :=
  if decide (0 ≤ lo ∧ lo ≤ hi ∧ hi ≤ Z.of_nat (length l))
  then Some (take (Z.to_nat (hi - lo)) (drop (Z.to_nat lo) l))
  else None.

(** [l[i]] and [l[i] = x] with an [int] index. *)
Definition at_ {A} (l : list A) (i : Z) : option A :=
  if decide (0 ≤ i) then l !! Z.to_nat i else None.

Definition setAt {A} (l : list A) (i : Z) (x : A) : option (list A) :=
  if decide (0 ≤ i ∧ i < Z.of_nat (length l))
  then Some (<[Z.to_nat i := x]> l)
  else None.

(** [encoding/binary]: big-endian integers. *)
Definition PutUint32 (v : Z) : list byte :=
  [toByte (Z.shiftr v 24); toByte (Z.shiftr v 16);
   toByte (Z.shiftr v 8); toByte v].

Definition Uint32 (b : list byte) : option Z :=
  match b with
  | b0 :: b1 :: b2 :: b3 :: _ =>
      Some (Z.lor (Z.lor (Z.lor (Z.shiftl (byteZ b0) 24)
                                (Z.shiftl (byteZ b1) 16))
                         (Z.shiftl (byteZ b2) 8))
                  (byteZ b3))
  | _ => None
  end.

Definition PutUint16 (v : Z) : list byte :=
  [toByte (Z.shiftr v 8); toByte v].

Definition Uint16 (b : list byte) : option Z :=
  match b with
  | b0 :: b1 :: _ => Some (Z.lor (Z.shiftl (byteZ b0) 8) (byteZ b1))
  | _ => None
  end.

(** [strings.Split(s, sep)] for a one-byte separator. *)
Fixpoint Split (s : list byte) (sep : byte) : list (list byte) :=
  match s with
  | [] => [[]]
  | c :: s' =>
      if Byte.eqb c sep then [] :: Split s' sep
      else match Split s' sep with
           | h :: t => (c :: h) :: t
           | [] => [[c]]
           end
  end.

Definition isDigit (c : byte) : bool :=
  (48 <=? byteZ c) && (byteZ c <=? 57).

Definition digitsValue (ds : list byte) : Z :=
  fold_left (fun acc c => 10 * acc + (byteZ c - 48)) ds 0.

(** [strconv.Atoi]: an optional sign and one or more decimal digits;
    the second component is [true] when the library returns an error.
    A syntax error yields 0, a value out of the range of a 64-bit [int]
    yields the nearest bound. *)
Definition Atoi (s : list byte) : Z * bool :=
  let '(neg, ds) :=
    match s with
    | c :: s' =>
        if Byte.eqb c "-"%byte then (true, s')
        else if Byte.eqb c "+"%byte then (false, s')
        else (false, s)
    | [] => (false, s)
    end in
  match ds with
  | [] => (0, true)
  | _ =>
      if forallb isDigit ds then
        let un := digitsValue ds in
        if neg then
          if 2 ^ 63 <? un then (- 2 ^ 63, true) else (- un, false)
        else
          if 2 ^ 63 <=? un then (2 ^ 63 - 1, true) else (un, false)
      else (0, true)
  end.

(** Decimal rendering of an integer, as [%d] prints it. *)
Fixpoint digits (fuel : nat) (n : Z) (acc : list byte) : list byte :=
  match fuel with
  | O => acc
  | S fuel' =>
      let acc' := toByte (48 + n mod 10) :: acc in
      if n <? 10 then acc' else digits fuel' (n / 10) acc'
  end.

Definition Itoa (n : Z) : list byte :=
  if n <? 0 then "-"%byte :: digits 20 (- n) [] else digits 20 n [].

(** [fmt.Sprintf("%d.%d.%d.%d", a, b, c, d)] *)
Definition dotted (a b c d : Z) : list byte :=
  Itoa a ++ lit "." ++ Itoa b ++ lit "." ++ Itoa c ++ lit "." ++ Itoa d.

(** [math.Ceil(float64(n) / float64(d))] converted to [int], for
    [0 ≤ n] and [0 < d]: the quotient rounded up.  (The float64 division
    is exact enough for every length below 2^53.) *)
Definition ceilDiv (n d : Z) : Z := (n + d - 1) / d.

End Go.

Import Go.

(** ** The packet codec *)

(** Modelled from the spec: the declaration of [UDPPacket] is not among
    the sources; its five fields are byte slices, as [parsePacket] and
    [MakePacket] fill them (type, seqNo, peerAddr, peerPort, payload). *)
Record UDPPacket := mkUDPPacket {
  pType : list byte;
  seqNo : list byte;
  peerAddr : list byte;
  peerPort : list byte;
  payload : list byte
}.

Definition parsePacket (data : slice) : option UDPPacket :=
  pType' ← index data 0;
  seqNo' ← subslice data 1 5;
  peerAddr' ← subslice data 5 9;
  peerPort' ← subslice data 9 11;
  payload' ← subsliceFrom data 11;
  Some {| pType := [pType'];
          seqNo := seqNo';
          peerAddr := peerAddr';
          peerPort := peerPort';
          payload := payload' |}.

Definition getBytesFromPacket (packet : UDPPacket) : list byte :=
  let packetBytes := pType packet ++ seqNo packet in
  let packetBytes := packetBytes ++ peerAddr packet in
  let packetBytes := packetBytes ++ peerPort packet in
  let packetBytes := packetBytes ++ payload packet in
  packetBytes.

(** The loop of [MakePacket] over the sections of the address:
    [peerAddrBytes[i] = byte(intSection)], which panics at a fifth
    section. *)
Fixpoint fillAddr (i : nat) (sections : list (list byte))
    (peerAddrBytes : list byte) : option (list byte) :=
  match sections with
  | [] => Some peerAddrBytes
  | section :: rest =>
      let intSection := fst (Atoi section) in
      if decide (i < length peerAddrBytes)%nat
      then fillAddr (S i) rest (<[i := toByte intSection]> peerAddrBytes)
      else None
  end.

Definition MakePacket (pType' seqNo' : Z) (addr : list byte) (port : Z)
    (payload' : list byte) : option UDPPacket :=
  let pTypeByte := [toByte pType'] in
  let seqNoBytes := PutUint32 seqNo' in
  let peerAddrSplit := Split addr "."%byte in
  peerAddrBytes ← fillAddr 0 peerAddrSplit (replicate 4 x00);
  let peerPortBytes := PutUint16 port in
  let payloadBytes := payload' in
  Some {| pType := pTypeByte;
          seqNo := seqNoBytes;
          peerAddr := peerAddrBytes;
          peerPort := peerPortBytes;
          payload := payloadBytes |}.

Definition getAddressFromBytes (packet : UDPPacket) : option (list byte) :=
  a0 ← peerAddr packet !! 0%nat;
  a1 ← peerAddr packet !! 1%nat;
  a2 ← peerAddr packet !! 2%nat;
  a3 ← peerAddr packet !! 3%nat;
  Some (dotted (byteZ a0) (byteZ a1) (byteZ a2) (byteZ a3)).

Definition getPortFromBytes (packet : UDPPacket) : option Z :=
  Uint16 (peerPort packet).


(** ** Response chunking *)

(** The chunk loop of [getResponsePacketBytes], [for i := 1; i <
    numPackets; i++], over the values of [i].  The chunk
    [payloadBytes[counter : counter+1012]] always lies within the length
    of the payload here, so the capacity of the slice plays no part. *)
Fixpoint chunkLoop (idxs : list Z) (numPackets : Z) (hostAddr : list byte)
    (port : Z) (payloadBytes : list byte)
    (packetsBytes : list (list byte)) (counter seqNo' : Z)
    : option (list (list byte) * Z * Z) :=
  match idxs with
  | [] => Some (packetsBytes, counter, seqNo')
  | i :: idxs' =>
      chunk ← sub payloadBytes counter (counter + 1012);
      packetForChunk ← MakePacket 0 seqNo' hostAddr port chunk;
      packetsBytes ← setAt packetsBytes (i - 1)
                       (getBytesFromPacket packetForChunk);
      cur ← at_ packetsBytes (i - 1);
      packetsBytes ← setAt packetsBytes (i - 1) (cur ++ [toByte numPackets]);
      chunkLoop idxs' numPackets hostAddr port payloadBytes
        packetsBytes (counter + 1012) (wrap32 (seqNo' + 1))
  end.

Definition getResponsePacketBytes (seqNo' : Z) (hostAddr : list byte)
    (port : Z) (payload' : list byte) : option (list (list byte) * Z) :=
  let numPackets := ceilDiv (Z.of_nat (length payload')) 1012 in
  let packetsBytes : list (list byte) := replicate (Z.to_nat numPackets) [] in
  let payloadBytes := payload' in
  if numPackets =? 1 then
    p ← MakePacket 0 seqNo' hostAddr port payload';
    let packetBytes := getBytesFromPacket p in
    packetsBytes ← setAt packetsBytes 0 packetBytes;
    cur ← at_ packetsBytes 0;
    packetsBytes ← setAt packetsBytes 0 (cur ++ [toByte 1]);
    Some (packetsBytes, 1)
  else
    '(packetsBytes, counter, seqNo') ←
      chunkLoop (seqZ 1 (numPackets - 1)) numPackets hostAddr port
        payloadBytes packetsBytes 0 seqNo';
    let residue := Z.of_nat (length payload') mod 1012 in
    if 0 <? residue then
      residueChunk ← sub payloadBytes counter (Z.of_nat (length payloadBytes));
      p ← MakePacket 0 seqNo' hostAddr port residueChunk;
      packetsBytes ← setAt packetsBytes (numPackets - 1) (getBytesFromPacket p);
      cur ← at_ packetsBytes (numPackets - 1);
      packetsBytes ← setAt packetsBytes (numPackets - 1)
                       (cur ++ [toByte numPackets]);
      Some (packetsBytes, numPackets)
    else Some (packetsBytes, numPackets).

(** ** Request reassembly helpers *)

Fixpoint inNaks (seqNo' : Z) (naks : list Z) : bool :=
  match naks with
  | [] => false
  | nakSeq :: rest => if nakSeq =? seqNo' then true else inNaks seqNo' rest
  end.

Fixpoint inAcks (seqNo' : Z) (acks : list Z) : bool :=
  match acks with
  | [] => false
  | ackSeq :: rest => if ackSeq =? seqNo' then true else inAcks seqNo' rest
  end.

Fixpoint checkNotEmpty (httpPayload : list (list byte)) : bool :=
  match httpPayload with
  | [] => true
  | packet :: rest =>
      if (length packet =? 0)%nat then false else checkNotEmpty rest
  end.

Definition stringifyRequestPayload (httpPayload : list (list byte))
    (totalNumPackets : Z) : option (list byte) :=
  window ← sub httpPayload 4 (4 + totalNumPackets);
  Some (fold_left (fun stringifiedHttpPayload packet =>
                     stringifiedHttpPayload ++ packet) window []).

(** [remove]: drops the first pending NAK with the sequence number of
    [removePack]. *)
Fixpoint remove (packetList : list UDPPacket) (removePack : UDPPacket)
    : option (list UDPPacket) :=
  match packetList with
  | [] => Some []
  | curr :: rest =>
      a ← Uint32 (seqNo curr);
      b ← Uint32 (seqNo removePack);
      if a =? b then Some rest
      else (rest' ← remove rest removePack; Some (curr :: rest'))
  end.

(** ** Effects: what a session does to the outside *)

Inductive Event :=
| WriteToUDP (packetBytes : list byte)      (* udpConn.WriteToUDP(b, addr) *)
| LogInfo (logString : list byte)           (* LogInfo(s) *)
| HandleUdp (requestPayload : list byte).   (* handleUdpConnection(s) entered *)

(** Code that writes and may panic: the events so far, and the result
    unless it panicked.  The datagram endpoint accepts every write
    ([writeErr == nil]); in the source a failed write only adds a log
    line, except in the handshake, which retries until it succeeds. *)
Definition IO (A : Type) : Type := list Event * option A.

Definition IO_ret {A} (a : A) : IO A := ([], Some a).

Definition IO_bind {A B} (m : IO A) (f : A → IO B) : IO B :=
  match m with
  | (t1, Some a) => let '(t2, r) := f a in (t1 ++ t2, r)
  | (t1, None) => (t1, None)
  end.

Definition orPanic {A} (o : option A) : IO A := ([], o).
Definition emit (e : Event) : IO unit := ([e], Some tt).

#[global] Instance IO_mret : MRet IO := @IO_ret.
#[global] Instance IO_mbind : MBind IO := λ A B f m, IO_bind m f.

(** A [for _, x := range l] loop with an accumulator. *)
Fixpoint forRange {A S} (l : list A) (body : S → A → IO S) (acc : S) : IO S :=
  match l with
  | [] => mret acc
  | x :: l' => acc' ← body acc x; forRange l' body acc'
  end.

(** The datagrams written, in order. *)
Fixpoint sent (t : list Event) : list (list byte) :=
  match t with
  | [] => []
  | WriteToUDP b :: t' => b :: sent t'
  | _ :: t' => sent t'
  end.

(** The requests handed to the HTTP handler, in order. *)
Fixpoint handled (t : list Event) : list (list byte) :=
  match t with
  | [] => []
  | HandleUdp r :: t' => r :: handled t'
  | _ :: t' => handled t'
  end.

(** ** The session of one peer *)

(** The variables of the goroutine that [StartUDPServer] starts for a new
    peer; [hostAddr] and [hostPort] are captured from the iteration of the
    server loop that created the session and never assigned. *)
Record Session := mkSession {
  hostAddr : list byte;
  hostPort : Z;
  expectedSeqNo : Z;
  acks : list Z;
  naks : list Z;
  responseNaksList : list UDPPacket;
  httpPayload : list (list byte);
  totalNumPackets : Z;
  responsePackets : list UDPPacket
}.

Definition newSession (hostAddr' : list byte) (hostPort' : Z) : Session :=
  {| hostAddr := hostAddr';
     hostPort := hostPort';
     expectedSeqNo := 4;
     acks := replicate 5 0;
     naks := replicate 5 0;
     responseNaksList := [];
     httpPayload := replicate 1024 [];
     totalNumPackets := 0;
     responsePackets := [] |}.

Definition set_expectedSeqNo (v : Z) (s : Session) : Session :=
  mkSession (hostAddr s) (hostPort s) v (acks s) (naks s)
    (responseNaksList s) (httpPayload s) (totalNumPackets s)
    (responsePackets s).

Definition set_acks (v : list Z) (s : Session) : Session :=
  mkSession (hostAddr s) (hostPort s) (expectedSeqNo s) v (naks s)
    (responseNaksList s) (httpPayload s) (totalNumPackets s)
    (responsePackets s).

Definition set_naks (v : list Z) (s : Session) : Session :=
  mkSession (hostAddr s) (hostPort s) (expectedSeqNo s) (acks s) v
    (responseNaksList s) (httpPayload s) (totalNumPackets s)
    (responsePackets s).

Definition set_responseNaksList (v : list UDPPacket) (s : Session) : Session :=
  mkSession (hostAddr s) (hostPort s) (expectedSeqNo s) (acks s) (naks s)
    v (httpPayload s) (totalNumPackets s) (responsePackets s).

Definition set_httpPayload (v : list (list byte)) (s : Session) : Session :=
  mkSession (hostAddr s) (hostPort s) (expectedSeqNo s) (acks s) (naks s)
    (responseNaksList s) v (totalNumPackets s) (responsePackets s).

Definition set_totalNumPackets (v : Z) (s : Session) : Session :=
  mkSession (hostAddr s) (hostPort s) (expectedSeqNo s) (acks s) (naks s)
    (responseNaksList s) (httpPayload s) v (responsePackets s).

Definition set_responsePackets (v : list UDPPacket) (s : Session) : Session :=
  mkSession (hostAddr s) (hostPort s) (expectedSeqNo s) (acks s) (naks s)
    (responseNaksList s) (httpPayload s) (totalNumPackets s) v.

(** How one pass through the body of [for packet := range clientPackets]
    ends: at its end or at a [continue], with the session as it then is,
    or in a panic, which ends the process. *)
Inductive flow (A : Type) :=
| Next (a : A) (s : Session)
| Continue (s : Session)
| Panic.
Arguments Next {A} a s.
Arguments Continue {A} s.
Arguments Panic {A}.

Definition Loop (A : Type) : Type := Session → list Event * flow A.

Definition Loop_ret {A} (a : A) : Loop A := λ s, ([], Next a s).

Definition Loop_bind {A B} (m : Loop A) (f : A → Loop B) : Loop B :=
  λ s, match m s with
       | (t1, Next a s1) => let '(t2, r) := f a s1 in (t1 ++ t2, r)
       | (t1, Continue s1) => (t1, Continue s1)
       | (t1, Panic) => (t1, Panic)
       end.

#[global] Instance Loop_mret : MRet Loop := @Loop_ret.
#[global] Instance Loop_mbind : MBind Loop := λ A B f m, Loop_bind m f.

Definition io {A} (m : IO A) : Loop A :=
  λ s, match m with
       | (t, Some a) => (t, Next a s)
       | (t, None) => (t, Panic)
       end.

Definition get : Loop Session := λ s, ([], Next s s).
Definition modify (f : Session → Session) : Loop unit :=
  λ s, ([], Next tt (f s)).
Definition continue {A} : Loop A := λ s, ([], Continue s).

Section Server.

(** The HTTP side of the server, [handleUdpConnection]: from the text of
    a request to the text of the response, unless it panics. *)
Variable handleUdpConnection : list byte → option (list byte).

Definition getResponsePayload (httpPayload' : list (list byte))
    (totalNumPackets' : Z) : IO (list byte) :=
  stringifiedPayload ←
    orPanic (stringifyRequestPayload httpPayload' totalNumPackets');
  emit (HandleUdp stringifiedPayload);;
  orPanic (handleUdpConnection stringifiedPayload).

Definition sendUnreceivedResponsePackets
    (responseNaksList' responsePackets' : list UDPPacket) : IO unit :=
  forRange responseNaksList' (λ _ nakPack,
    missingNo ← orPanic (Uint32 (seqNo nakPack));
    missingPacket ← orPanic (at_ responsePackets' (missingNo - 1));
    emit (WriteToUDP (getBytesFromPacket missingPacket))) tt.

(** The capacity that [append] left in [packetBytes] is not modelled:
    [parsePacket] does not depend on it. *)
Definition writeResponseToClient (httpPayload' : list (list byte))
    (totalNumPackets' : Z) (hostAddr' : list byte) (hostPort' : Z)
    : IO (list UDPPacket * Z) :=
  stringifiedResponsePayload ←
    getResponsePayload httpPayload' totalNumPackets';
  '(responsePacketsBytes, numOfResponsePackets) ←
    orPanic (getResponsePacketBytes 1 hostAddr' (wrap16 hostPort')
               stringifiedResponsePayload);
  responsePackets' ←
    forRange responsePacketsBytes (λ responsePackets' packetBytes,
      parsed ← orPanic (parsePacket (Slice packetBytes []));
      emit (WriteToUDP packetBytes);;
      mret (responsePackets' ++ [parsed])) [];
  mret (responsePackets', numOfResponsePackets).

(** The retry loop of lines 497 to 504 ends at its first write, which
    the endpoint accepts; [handleHandshakePacketRetry] has the loop with
    writes that fail. *)
Definition handleHandshakePacket (packet : UDPPacket) : IO (option Z) :=
  hostAddr' ← orPanic (getAddressFromBytes packet);
  t ← orPanic (pType packet !! 0%nat);
  if byteZ t =? 2 then
    receivedSeq ← orPanic (Uint32 (seqNo packet));
    let '(totalNumPackets', err) := Atoi (payload packet) in
    (if err then emit (LogInfo (lit "Corrupt SYN packet!")) else mret tt);;
    port ← orPanic (Uint16 (peerPort packet));
    synAck ← orPanic (MakePacket 3 (wrap32 (receivedSeq + 1)) hostAddr' port []);
    let packetBytes := getBytesFromPacket synAck in
    emit (WriteToUDP packetBytes);;
    emit (LogInfo (lit "SYN'd packet " ++ Itoa receivedSeq));;
    mret (Some totalNumPackets')
  else if byteZ t =? 1 then
    receivedSeq ← orPanic (Uint32 (seqNo packet));
    emit (LogInfo (lit "Received ACK for packet " ++ Itoa receivedSeq));;
    mret None
  else mret None.

(** *** The body of the receive loop *)

(** [httpPayload[int(receivedSeqNo)] = string(packet.payload)] *)
Definition storePayload (receivedSeqNo : Z) (packet : UDPPacket) : Loop unit :=
  s ← get;
  httpPayload' ←
    io (orPanic (setAt (httpPayload s) receivedSeqNo (payload packet)));
  modify (set_httpPayload httpPayload').

(** [for packetNum := expectedSeqNo; packetNum < receivedSeqNo; packetNum++] *)
Fixpoint nakLoop (packetNums : list Z) (packet : UDPPacket) : Loop unit :=
  match packetNums with
  | [] => mret tt
  | packetNum :: rest =>
      modify (λ s, set_naks (naks s ++ [packetNum]) s);;
      s ← get;
      port ← io (orPanic (Uint16 (peerPort packet)));
      nakPacket ← io (orPanic (MakePacket 4 packetNum (hostAddr s) port []));
      let packetBytes := getBytesFromPacket nakPacket in
      io (emit (WriteToUDP packetBytes));;
      io (emit (LogInfo (lit "NAK'd packet " ++ Itoa packetNum)));;
      nakLoop rest packet
  end.

(** The three sub-cases of a DATA packet that is not a duplicate. *)
Definition acceptData (packet : UDPPacket) (receivedSeqNo : Z) : Loop unit :=
  s ← get;
  if receivedSeqNo =? expectedSeqNo s then
    port ← io (orPanic (Uint16 (peerPort packet)));
    ackPacket ← io (orPanic (MakePacket 1 receivedSeqNo (hostAddr s) port []));
    let packetBytes := getBytesFromPacket ackPacket in
    io (emit (WriteToUDP packetBytes));;
    storePayload receivedSeqNo packet;;
    io (emit (LogInfo (lit "ACK'd packet " ++ Itoa receivedSeqNo)));;
    modify (λ s, set_expectedSeqNo (wrap32 (expectedSeqNo s + 1)) s)
  else if receivedSeqNo <? expectedSeqNo s then
    port ← io (orPanic (Uint16 (peerPort packet)));
    ackPacket ← io (orPanic (MakePacket 1 receivedSeqNo (hostAddr s) port []));
    let packetBytes := getBytesFromPacket ackPacket in
    io (emit (WriteToUDP packetBytes));;
    io (emit (LogInfo (lit "ACK'd packet " ++ Itoa receivedSeqNo)));;
    storePayload receivedSeqNo packet
  else
    port ← io (orPanic (Uint16 (peerPort packet)));
    ackPacket ← io (orPanic (MakePacket 1 receivedSeqNo (hostAddr s) port []));
    let packetBytes := getBytesFromPacket ackPacket in
    io (emit (WriteToUDP packetBytes));;
    io (emit (LogInfo (lit "ACK'd packet " ++ Itoa receivedSeqNo)));;
    storePayload receivedSeqNo packet;;
    nakLoop (seqZ (expectedSeqNo s) (receivedSeqNo - expectedSeqNo s)) packet;;
    modify (set_expectedSeqNo (wrap32 (receivedSeqNo + 1))).

(** [responsePackets, _ = writeResponseToClient(...)] *)
Definition respond : Loop unit :=
  s ← get;
  '(responsePackets', _) ←
    io (writeResponseToClient (httpPayload s) (totalNumPackets s)
          (hostAddr s) (hostPort s));
  modify (set_responsePackets responsePackets').

(** "check if we are done reading the payload" *)
Definition checkDone : Loop unit :=
  s ← get;
  single ←
    (if totalNumPackets s =? 1 then
       first ← io (orPanic (at_ (httpPayload s) 4));
       mret (0 <? length first)%nat
     else mret false);
  if single : bool then respond
  else
    window ← io (orPanic (sub (httpPayload s) 4 (4 + totalNumPackets s)));
    if checkNotEmpty window then respond else mret tt.

Definition onData (packet : UDPPacket) (receivedSeqNo : Z) : Loop unit :=
  s ← get;
  if inAcks receivedSeqNo (acks s) then continue
  else
    modify (λ s, set_acks (acks s ++ [receivedSeqNo]) s);;
    acceptData packet receivedSeqNo;;
    checkDone.

Definition loopBody (packet : UDPPacket) : Loop unit :=
  receivedSeqNo ← io (orPanic (Uint32 (seqNo packet)));
  t ← io (orPanic (pType packet !! 0%nat));
  (if byteZ t =? 4 then
     modify (λ s, set_responseNaksList (responseNaksList s ++ [packet]) s);;
     s ← get;
     io (sendUnreceivedResponsePackets (responseNaksList s) (responsePackets s))
   else if byteZ t =? 1 then
     if receivedSeqNo =? 3 then continue
     else
       s ← get;
       responseNaksList' ← io (orPanic (remove (responseNaksList s) packet));
       modify (set_responseNaksList responseNaksList');;
       s ← get;
       io (sendUnreceivedResponsePackets (responseNaksList s) (responsePackets s))
   else mret tt);;
  (if byteZ t =? 0 then onData packet receivedSeqNo else mret tt);;
  handshakePayload ← io (handleHandshakePacket packet);
  match handshakePayload with
  | Some n => if 0 <? n then modify (set_totalNumPackets n) else mret tt
  | None => mret tt
  end.

(** One packet taken from the inbox of a session: the events, and the
    session afterwards unless the goroutine panicked. *)
Definition sessionStep (packet : UDPPacket) (s : Session)
    : list Event * option Session :=
  match loopBody packet s with
  | (t, Next _ s') => (t, Some s')
  | (t, Continue s') => (t, Some s')
  | (t, Panic) => (t, None)
  end.

Fixpoint serveSession (packets : list UDPPacket) (s : Session)
    : list Event * option Session :=
  match packets with
  | [] => ([], Some s)
  | packet :: rest =>
      match sessionStep packet s with
      | (t, Some s') =>
          let '(t', r) := serveSession rest s' in (t ++ t', r)
      | (t, None) => (t, None)
      end
  end.

End Server.

(** ** The decode step of the server loop *)

(** [buffer := make([]byte, 1024)], [n, addr, err := ReadFromUDP(buffer)]
    and [buffer[:n]]: the first [n ≤ 1024] bytes of the datagram, with the
    rest of the zeroed buffer as spare capacity. *)
Definition readFromUDP (datagram : list byte) : slice :=
  let received := take 1024 datagram in
  Slice received (replicate (1024 - length received) x00).

Definition decodeStep (datagram : list byte)
    : option (UDPPacket * list byte * Z * list byte) :=
  packet ← parsePacket (readFromUDP datagram);
  hostAddr' ← getAddressFromBytes packet;
  hostPort' ← getPortFromBytes packet;
  let clientKey := hostAddr' ++ lit ":" ++ Itoa hostPort' in
  Some (packet, hostAddr', hostPort', clientKey).
Definition noDot (s : list byte) : bool :=
  forallb (λ c, negb (Byte.eqb c "."%byte)) s.


(** ** Vocabulary of the properties *)

(** A packet as [parsePacket] delivers it: one type byte, four bytes of
    sequence number, four of address, two of port. *)
Definition wfPacket (packet : UDPPacket) : Prop :=
  length (pType packet) = 1%nat ∧ length (seqNo packet) = 4%nat ∧
  length (peerAddr packet) = 4%nat ∧ length (peerPort packet) = 2%nat.

(** Type and sequence number that a receiver decodes from a datagram. *)
Definition headerOf (b : list byte) : option (Z * Z) :=
  q ← parsePacket (Slice b []);
  t ← pType q !! 0%nat;
  n ← Uint32 (seqNo q);
  Some (byteZ t, n).

(** The wire format of a packet: the 11-byte header and the payload. *)
Definition frame (t seq : Z) (addr4 : list byte) (port : Z) (pl : list byte)
    : list byte :=
  [toByte t] ++ PutUint32 seq ++ addr4 ++ PutUint16 port ++ pl.

(** The datagrams that [n] rounds of the chunk loop build, starting at
    sequence number [seq] and offset [c] of the payload. *)
Fixpoint chunkFrames (numPackets : Z) (addr4 : list byte) (port : Z)
    (payloadBytes : list byte) (n : nat) (seq c : Z) : list (list byte) :=
  match n with
  | O => []
  | S n' =>
      (frame 0 seq addr4 port (take 1012 (drop (Z.to_nat c) payloadBytes))
         ++ [toByte numPackets])
      :: chunkFrames numPackets addr4 port payloadBytes n'
           (wrap32 (seq + 1)) (c + 1012)
  end.

(** The packet that [parsePacket] reads from at least 11 bytes. *)
Definition decoded (e : list byte) : UDPPacket :=
  {| pType := take 1 e; seqNo := take 4 (drop 1 e);
     peerAddr := take 4 (drop 5 e); peerPort := take 2 (drop 9 e);
     payload := drop 11 e |}.

Definition isLong (b : list byte) : bool := (11 <=? length b)%nat.

(** The datagrams before the first one that [parsePacket] rejects. *)
Fixpoint longPrefix (bs : list (list byte)) : list (list byte) :=
  match bs with
  | [] => []
  | b :: rest => if isLong b then b :: longPrefix rest else []
  end.

(** The events of the NAK loop for the sequence numbers [ks]. *)
Definition nakEvents (addr4 : list byte) (port : Z) (ks : list Z) : list Event :=
  ks ≫= λ k, [WriteToUDP (frame 4 k addr4 port []);
              LogInfo (lit "NAK'd packet " ++ Itoa k)].

(** The completeness check that follows an accepted DATA packet:
    [Some true] when the response is to be emitted, [None] when the window
    [httpPayload[4 : 4+totalNumPackets]] is out of range. *)
Definition requestComplete (s : Session) : option bool :=
  if (totalNumPackets s =? 1)
     && (0 <? length (default [] (httpPayload s !! 4%nat)))%nat
  then Some true
  else
    window ← sub (httpPayload s) 4 (4 + totalNumPackets s);
    Some (checkNotEmpty window).

(** How a pass through the loop body leaves the session. *)
Definition outcome {A} (r : list Event * flow A) : list Event * option Session :=
  match r with
  | (t, Next _ s') => (t, Some s')
  | (t, Continue s') => (t, Some s')
  | (t, Panic) => (t, None)
  end.

(** A session as the server loop creates it and its goroutine keeps it:
    1024 reassembly slots and the peer address in dotted-quad form. *)
Definition wfSession (s : Session) : Prop :=
  length (httpPayload s) = 1024%nat ∧
  ∃ o0 o1 o2 o3, hostAddr s = dotted (byteZ o0) (byteZ o1) (byteZ o2) (byteZ o3).

(** The images under [f] of the elements before the first one on which
    [f] fails. *)
Fixpoint somePrefix {A B} (f : A → option B) (l : list A) : list B :=
  match l with
  | [] => []
  | x :: l' => match f x with Some y => y :: somePrefix f l' | None => [] end
  end.

(** The stored response datagram that a pending NAK asks for:
    [responsePackets[int(missingNo)-1]], serialised. *)
Definition lookupNak (responsePackets' : list UDPPacket) (nakPack : UDPPacket)
    : option (list byte) :=
  missingNo ← Uint32 (seqNo nakPack);
  missingPacket ← at_ responsePackets' (missingNo - 1);
  Some (getBytesFromPacket missingPacket).

(** The session after a DATA packet with sequence number [r] has been
    accepted and its payload stored ([hp] is the reassembly buffer with
    slot [r] written), before the completeness check. *)
Definition accepted (s : Session) (r : Z) (hp : list (list byte)) : Session :=
  let s1 := set_httpPayload hp (set_acks (acks s ++ [r]) s) in
  if r =? expectedSeqNo s then
    set_expectedSeqNo (wrap32 (expectedSeqNo s + 1)) s1
  else if r <? expectedSeqNo s then s1
  else
    set_expectedSeqNo (wrap32 (r + 1))
      (set_naks (naks s ++ seqZ (expectedSeqNo s) (r - expectedSeqNo s)) s1).

(** What accepting that packet writes and logs: the ACK and, when the
    packet is ahead, the NAKs of the skipped sequence numbers. *)
Definition dataEvents (addr4 : list byte) (port : Z) (s : Session) (r : Z)
    : list Event :=
  [WriteToUDP (frame 1 r addr4 port []);
   LogInfo (lit "ACK'd packet " ++ Itoa r)]
  ++ (if (r =? expectedSeqNo s) || (r <? expectedSeqNo s) then []
      else nakEvents addr4 port
             (seqZ (expectedSeqNo s) (r - expectedSeqNo s))).

(** The invariant of a session: besides its shape, the expected sequence
    number stays within the reassembly buffer and above every
    acknowledged one. *)
Definition sessionInv (s : Session) : Prop :=
  wfSession s ∧ 4 ≤ expectedSeqNo s ≤ 1024 ∧
  Forall (λ a, 0 ≤ a < expectedSeqNo s) (acks s).

(** The sessions of the server: one is created for the peer named in a
    decoded datagram, and then takes decoded datagrams from its inbox for
    as long as its goroutine does not panic. *)
Inductive reachable (handleUdpConnection : list byte → option (list byte))
    : Session → Prop :=
| reach_new datagram packet a p key :
    decodeStep datagram = Some (packet, a, p, key) →
    reachable handleUdpConnection (newSession a p)
| reach_step s datagram packet a p key t s' :
    reachable handleUdpConnection s →
    decodeStep datagram = Some (packet, a, p, key) →
    sessionStep handleUdpConnection packet s = (t, Some s') →
    reachable handleUdpConnection s'.


(** A datagram that a receiver does not read as an ACK. *)
Definition notAck (b : list byte) : Prop := ∀ q, headerOf b ≠ Some (1, q).

(** ** Sample traffic for concrete runs *)

(** A stand-in for the HTTP side: it panics on the empty request text
    (which has no request line) and answers any other request with a
    status line followed by the request. *)
Definition echoBridge (req : list byte) : option (list byte) :=
  match req with
  | [] => None
  | _ => Some (lit "HTTP/1.0 200 OK " ++ req)
  end.

(** A datagram from the peer 127.0.0.1:8080 and the packet decoded from it. *)
Definition peerDatagram (t seq : Z) (pl : list byte) : list byte :=
  frame t seq ["127"%byte; x00; x00; x01] 8080 pl.

Definition peerPacket (t seq : Z) (pl : list byte) : UDPPacket :=
  decoded (peerDatagram t seq pl).

Definition freshSession : Session := newSession (lit "127.0.0.1") 8080.

(** The session of the peer after a SYN announcing [k] request packets. *)
Definition announcedSession (k : string) : Session :=
  default freshSession
    (sessionStep echoBridge (peerPacket 2 2 (lit k)) freshSession).2.

(** The number of ACKs for sequence number [r] among the datagrams written. *)
Definition isAckOf (r : Z) (b : list byte) : bool :=
  match headerOf b with
  | Some (t, q) => (t =? 1) && (q =? r)
  | None => false
  end.

Definition acksOf (r : Z) (t : list Event) : nat :=
  length (List.filter (isAckOf r) (sent t)).

(** The session of the peer after a handshake announcing one packet and
    the request in DATA 4. *)
Definition answeredSession : Session :=
  default freshSession
    (serveSession echoBridge
       [peerPacket 2 2 (lit "1"); peerPacket 0 4 (lit "GET / HTTP/1.0")]
       freshSession).2.

(** ** Vocabulary of the further properties *)

(** A DATA packet, as decoded, that carries chunk [i] of the request
    [chunks] under sequence number [4 + i]. *)
Definition carries (chunks : list (list byte)) (packet : UDPPacket) (i : nat)
    : Prop :=
  wfPacket packet
  ∧ byteZ <$> pType packet !! 0%nat = Some 0
  ∧ Uint32 (seqNo packet) = Some (4 + Z.of_nat i)
  ∧ chunks !! i = Some (payload packet).

(** The session while the chunks in [order] are still to arrive: their
    slots are empty and unacknowledged, the other slots of the window
    hold their chunks. *)
Definition awaiting (chunks : list (list byte)) (s : Session)
    (order : list nat) : Prop :=
  wfSession s
  ∧ totalNumPackets s = Z.of_nat (length chunks)
  ∧ ∀ i c, chunks !! i = Some c →
      if decide (i ∈ order)
      then httpPayload s !! (4 + i)%nat = Some []
           ∧ inAcks (4 + Z.of_nat i) (acks s) = false
      else httpPayload s !! (4 + i)%nat = Some c.

(** What the receiver of a response datagram takes as its chunk: the
    bytes after the 11-byte header, without the count byte at the end. *)
Definition chunkOf (b : list byte) : list byte :=
  take (length b - 12) (drop 11 b).

(** The session of the peer after a SYN announcing three packets and the
    arrival of DATA 6 and DATA 4. *)
Definition aheadSession : Session :=
  default freshSession
    (serveSession echoBridge
       [peerPacket 0 6 (lit "c"); peerPacket 0 4 (lit "a")]
       (announcedSession "3")).2.

(** The session of the peer after its request has been answered with one
    response packet and it has sent NAK 1 twice. *)
Definition nakedSession : Session :=
  default freshSession
    (serveSession echoBridge [peerPacket 4 1 []; peerPacket 4 1 []]
       answeredSession).2.

(** A text without a colon. *)
Definition noColon (s : list byte) : bool :=
  forallb (λ c, negb (Byte.eqb c ":"%byte)) s.

(** ** Go's [strings] package, as the HTTP side uses it *)

#[global] Instance byte_eq_dec : EqDecision byte := Byte.byte_eq_dec.

#[global] Instance byte_countable : countable.Countable byte :=
  countable.inj_countable' Byte.to_N (λ n, default x00 (Byte.of_N n))
    (λ b, f_equal (default x00) (Byte.of_to_N b)).

Module utf8.

(** The width of the first UTF-8 sequence of a nonempty string, as
    [utf8.DecodeRuneInString] reports it: 1 for an ASCII byte and for
    a byte that starts no well-formed sequence. *)
Definition width (s : list byte) : nat :=
  match s with
  | [] => 0%nat
  | s0 :: rest =>
      let c := byteZ s0 in
      let cont (b : byte) := (128 <=? byteZ b) && (byteZ b <=? 191) in
      let sized (sz : nat) (lo hi : Z) : nat :=
        match rest with
        | s1 :: rest1 =>
            if (length s <? sz)%nat then 1%nat
            else if negb ((lo <=? byteZ s1) && (byteZ s1 <=? hi)) then 1%nat
            else if (sz <=? 2)%nat then 2%nat
            else match rest1 with
                 | s2 :: rest2 =>
                     if negb (cont s2) then 1%nat
                     else if (sz <=? 3)%nat then 3%nat
                     else match rest2 with
                          | s3 :: _ => if negb (cont s3) then 1%nat else 4%nat
                          | [] => 1%nat
                          end
                 | [] => 1%nat
                 end
        | [] => 1%nat
        end in
      if c <? 194 then 1%nat
      else if c <? 224 then sized 2%nat 128 191
      else if c =? 224 then sized 3%nat 160 191
      else if c =? 237 then sized 3%nat 128 159
      else if c <? 240 then sized 3%nat 128 191
      else if c =? 240 then sized 4%nat 144 191
      else if c <? 244 then sized 4%nat 128 191
      else if c =? 244 then sized 4%nat 128 143
      else 1%nat
  end.

(** The UTF-8 sequences of a string, one after the other. *)
Fixpoint runes (fuel : nat) (s : list byte) : list (list byte) :=
  match fuel, s with
  | S fuel', _ :: _ =>
      take (width s) s :: runes fuel' (drop (width s) s)
  | _, _ => []
  end.

End utf8.

Module strings.

(** [strings.HasPrefix(s, prefix)] *)
Fixpoint HasPrefix (s prefix : list byte) : bool :=
  match prefix, s with
  | [], _ => true
  | p :: prefix', c :: s' => Byte.eqb c p && HasPrefix s' prefix'
  | _ :: _, [] => false
  end.

(** [strings.Index(s, substr)]: the index of the first instance of
    [substr] in [s], or -1. *)
Fixpoint Index (s substr : list byte) : Z :=
  if HasPrefix s substr then 0
  else match s with
       | [] => -1
       | _ :: s' =>
           let i := Index s' substr in
           if i <? 0 then -1 else i + 1
       end.

(** [strings.Contains(s, substr)] *)
Definition Contains (s substr : list byte) : bool := 0 <=? Index s substr.

(** [strings.Count(s, substr)] for a nonempty [substr]: the number of
    non-overlapping instances, found from the left. *)
Fixpoint countLoop (fuel : nat) (s substr : list byte) : Z :=
  match fuel with
  | O => 0
  | S fuel' =>
      let i := Index s substr in
      if i <? 0 then 0
      else 1 + countLoop fuel' (drop (Z.to_nat i + length substr) s) substr
  end.

Definition Count (s substr : list byte) : Z :=
  match substr with
  | [] => Z.of_nat (length (utf8.runes (length s) s)) + 1
  | _ => countLoop (length s) s substr
  end.

(** [explode(s, n)]: up to [n] pieces of one UTF-8 sequence each, the
    last one holding the rest. *)
Definition explode (s : list byte) (n : Z) : list (list byte) :=
  let rs := utf8.runes (length s) s in
  let l := Z.of_nat (length rs) in
  let n := if (n <? 0) || (l <? n) then l else n in
  if 0 <? n
  then take (Z.to_nat (n - 1)) rs ++ [concat (drop (Z.to_nat (n - 1)) rs)]
  else [].

(** The loop of [genSplit]: at most [cuts] cuts at instances of [sep],
    the last piece holding the rest. *)
Fixpoint splitLoop (cuts : nat) (s sep : list byte) : list (list byte) :=
  match cuts with
  | O => [s]
  | S cuts' =>
      let m := Index s sep in
      if m <? 0 then [s]
      else take (Z.to_nat m) s
           :: splitLoop cuts' (drop (Z.to_nat m + length sep) s) sep
  end.

(** [genSplit(s, sep, 0, n)] *)
Definition genSplit (s sep : list byte) (n : Z) : list (list byte) :=
  if n =? 0 then []
  else match sep with
       | [] => explode s n
       | _ =>
           let n := if n <? 0 then Count s sep + 1 else n in
           let n := if Z.of_nat (length s) + 1 <? n
                    then Z.of_nat (length s) + 1 else n in
           splitLoop (Z.to_nat (n - 1)) s sep
       end.

(** [strings.SplitN(s, sep, n)] and [strings.Split(s, sep)] *)
Definition SplitN (s sep : list byte) (n : Z) : list (list byte) :=
  genSplit s sep n.

Definition Split (s sep : list byte) : list (list byte) :=
  genSplit s sep (-1).

(** [strings.HasSuffix(s, suffix)] and [strings.TrimSuffix(s, suffix)] *)
Definition HasSuffix (s suffix : list byte) : bool :=
  (length suffix <=? length s)%nat
  && bool_decide (drop (length s - length suffix) s = suffix).

Definition TrimSuffix (s suffix : list byte) : list byte :=
  if HasSuffix s suffix then take (length s - length suffix) s else s.

(** [strings.Join(elems, sep)] *)
Fixpoint Join (elems : list (list byte)) (sep : list byte) : list byte :=
  match elems with
  | [] => []
  | [e] => e
  | e :: rest => e ++ sep ++ Join rest sep
  end.

End strings.

(** ** The HTTP side of the server *)

(** Modelled from the spec: the declaration of [Request] is not among
    the sources; its fields are those that [parseRequestData] fills and
    the handler reads: [Method] and [route] are strings, [headers] and
    [Body] pointers to strings, [None] for [nil]. *)
Record Request := mkRequest {
  Method : list byte;
  route : list byte;
  headers : option (list byte);
  Body : option (list byte)
}.

Section Http.

(** The world outside the process that a handler may read and change:
    for the file server, the files. *)
Context {W : Type}.

(** Modelled from the spec: the declaration of [handlerFn] is not
    among the sources; a handler is called with the request, the path
    parameter ([nil] or a pointer to it) and the root directory, and
    returns the body, the status code and the headers of the
    response, unless it panics; [None] is the [nil] function. *)
Definition handlerFn : Type :=
  option (Request → option (list byte) → list byte → W
          → option (list byte * Z * list byte * W)).

(** Modelled from the spec: the constants [CRLF] and [blankString] and
    the table [reasonPhrase] are declared outside the sources; the
    table is read as a function, the empty string where it has no
    entry. *)
Variables (CRLF blankString : list byte) (reasonPhrase : Z → list byte).

(** The package variable [routeMap]: a map from the method to a map
    from the route to the handler. *)
Definition routes : Type :=
  gmap.gmap (list byte) (gmap.gmap (list byte) handlerFn).

(** [routeMap[method][route]]: [nil] where either map has no entry. *)
Definition lookupRoute (routeMap : routes) (method route' : list byte)
    : handlerFn :=
  default None (inner ← routeMap !! method; inner !! route').

Definition RegisterHandler (method route' : list byte) (handler : handlerFn)
    (routeMap : routes) : routes :=
  let inner := default ∅ (routeMap !! method) in
  <[method := <[route' := handler]> inner]> routeMap.

Definition findRoute (routeMap : routes) (parsedRequest : Request)
    : option (handlerFn * list byte) :=
  let paths := Split (route parsedRequest) "/"%byte in
  if (2 <? length paths)%nat
  then Some (lookupRoute routeMap (Method parsedRequest) (lit "/"),
             route parsedRequest)
  else
    pathParam ← list.last paths;
    Some (lookupRoute routeMap (Method parsedRequest) (lit "/"), pathParam).

Definition constructStructuredResponse (response : list byte)
    (statusCode : Z) (headers' : list byte) : list byte :=
  let statusLine :=
    lit "HTTP/1.0 " ++ Itoa statusCode ++ lit " "
      ++ reasonPhrase statusCode ++ lit " " ++ CRLF in
  statusLine ++ headers' ++ (CRLF ++ CRLF) ++ response.

Definition parseRequestData (request : list byte) : option Request :=
  let initialSplit := strings.SplitN request (CRLF ++ CRLF) 2 in
  head ← initialSplit !! 0%nat;
  let requestLines := strings.Split head CRLF in
  let cleanedRequestLines :=
    filter (λ line, line ≠ blankString) requestLines in
  first ← cleanedRequestLines !! 0%nat;
  let firstReqLine := Split first " "%byte in
  route' ← firstReqLine !! 1%nat;
  if strings.Contains first (lit "POST") then
    rest ← sub cleanedRequestLines 1
              (Z.of_nat (length cleanedRequestLines));
    let headers' := strings.Join rest CRLF in
    body ← initialSplit !! 1%nat;
    Some {| Method := lit "POST"; route := route';
            headers := Some headers'; Body := Some body |}
  else if (1 <? length cleanedRequestLines)%nat then
    rest ← sub cleanedRequestLines 1
              (Z.of_nat (length cleanedRequestLines) - 1);
    let headers' := strings.Join rest CRLF in
    Some {| Method := lit "GET"; route := route';
            headers := Some headers'; Body := None |}
  else
    Some {| Method := lit "GET"; route := route';
            headers := None; Body := None |}.

(** [handleUdpConnection], with the package variables [routeMap] and
    [rootDirectory] as arguments: from the text of a request and the
    world to the text of the response and the world after the handler,
    unless the parser or the handler panics or no handler is found. *)
Definition handleUdpConnection (routeMap : routes)
    (rootDirectory : list byte) (requestPayload : list byte) (w : W)
    : option (list byte * W) :=
  parsedRequest ← parseRequestData requestPayload;
  let handler :=
    lookupRoute routeMap (Method parsedRequest) (route parsedRequest) in
  '(response, statusCode, headers', w') ←
    match handler with
    | Some h => h parsedRequest None rootDirectory w
    | None =>
        '(handler, pathParam) ← findRoute routeMap parsedRequest;
        h ← handler;
        h parsedRequest (Some pathParam) rootDirectory w
    end;
  let httpResponse :=
    constructStructuredResponse response statusCode headers' in
  Some (httpResponse, w').

End Http.

(** ** The file server: the handler that [main] registers *)

(** The file system calls of the handler.  [ReadDir] gives the entries
    of a directory, each with its name and whether it is a directory,
    [ReadFile] the content of a file, both [None] for an error;
    [WriteFile] gives the world after the call and whether it failed. *)
Class FileSystem (W : Type) := {
  ReadDir : list byte → W → option (list (list byte * bool));
  ReadFile : list byte → W → option (list byte);
  WriteFile : list byte → list byte → W → W * bool
}.

(** [filepath.Ext(path)]: the suffix of the last element of the path
    from its last dot on, empty if it has none. *)
Fixpoint extLoop (reversed suffix : list byte) : list byte :=
  match reversed with
  | [] => []
  | c :: rest =>
      if Byte.eqb c "/"%byte then []
      else if Byte.eqb c "."%byte then c :: suffix
      else extLoop rest (c :: suffix)
  end.

Definition Ext (path : list byte) : list byte := extLoop (reverse path) [].

(** [strings.ReplaceAll(s, old, new)] for a nonempty [old]: every
    instance of [old], found from the left without overlap, becomes
    [new]. *)
Definition ReplaceAll (s old new : list byte) : list byte :=
  strings.Join (strings.Split s old) new.

Section FileServer.

Context {W : Type} `{!FileSystem W}.

Variable CRLF : list byte.

(** [filepath.Join(root, name)], not modelled further. *)
Variable filepath_Join : list byte → list byte → list byte.

(** [log.Fatal] ends the process, as a panic does: [None]. *)
Definition listFiles (path : list byte) (w : W) : option (list (list byte)) :=
  allFiles ← ReadDir path w;
  Some (fst <$> List.filter (λ file, negb (snd file)) allFiles).

Definition makeHeaders (responseBody : list byte)
    (responseHeaders : list (list byte)) : list byte :=
  let bodyLength :=
    lit "Content-Length:" ++ Itoa (Z.of_nat (length responseBody)) in
  let responseHeaders := responseHeaders ++ [bodyLength] in
  let responseHeaders :=
    responseHeaders ++ [lit "Content-Disposition:inline"] in
  strings.Join responseHeaders CRLF.

Definition getTypeHeader (fileType : list byte) : list byte :=
  let key := lit "Content-Type:" in
  if bool_decide (fileType = lit ".txt") then key ++ lit "text/plain"
  else if bool_decide (fileType = lit ".json")
  then key ++ lit "application/json"
  else if bool_decide (fileType = lit ".xml")
  then key ++ lit "application/xml"
  else if bool_decide (fileType = lit ".html") then key ++ lit "text/html"
  else key ++ lit "text/plain".

Definition getHandler (reqData : Request) (pathParam : option (list byte))
    (root : list byte) (w : W) : option (list byte * Z * list byte * W) :=
  if bool_decide (Method reqData = lit "GET") then
    match pathParam with
    | None =>
        files ← listFiles root w;
        let body := strings.Join files (lit ",") in
        let responseHeaders := makeHeaders body [] in
        Some (body, 200, responseHeaders, w)
    | Some pathParam' =>
        if strings.Contains pathParam' (lit "/") then
          let errStr :=
            lit "Access Forbidden: '" ++ pathParam'
              ++ lit "' is outside server root directory" in
          Some (errStr, 403, makeHeaders errStr [], w)
        else
          let dat := ReadFile (filepath_Join root pathParam') w in
          let stringDat := default [] dat in
          let stringDat := ReplaceAll stringDat [x0d; x0a] [x0a] in
          let getHeaders := makeHeaders stringDat [] in
          let ext := Ext pathParam' in
          let typeHeader := getTypeHeader ext in
          let getHeaders := getHeaders ++ CRLF ++ typeHeader in
          match dat with
          | None =>
              let errStr :=
                lit "No file exists with name '" ++ pathParam' ++ lit "'" in
              Some (errStr, 404, makeHeaders errStr [], w)
          | Some _ => Some (stringDat, 200, getHeaders, w)
          end
    end
  else if bool_decide (Method reqData = lit "POST") then
    pathParam' ← pathParam;
    body ← Body reqData;
    let '(w', err) := WriteFile (filepath_Join root pathParam') body w in
    if err : bool then
      let errStr :=
        lit "Failed to write to file '" ++ pathParam' ++ lit "'" in
      Some (errStr, 500, makeHeaders errStr [], w')
    else
      let successStr := lit "Successfully written content to file" in
      Some (successStr, 200, makeHeaders successStr [], w')
  else Some ([], 500, makeHeaders [] [], w).

(** The route map after the two calls of [RegisterHandler] in
    [parseArgs]. *)
Definition registeredRoutes : routes (W:=W) :=
  RegisterHandler (lit "GET") (lit "/") (Some getHandler)
    (RegisterHandler (lit "POST") (lit "/") (Some getHandler) ∅).

End FileServer.

(** ** Vocabulary of the properties of the HTTP side *)

(** The separator [sep] occurs in [l ++ sep] at the end only: no
    instance of it begins within [l]. *)
Definition sepFree (sep l : list byte) : Prop :=
  strings.Index (l ++ sep) sep = Z.of_nat (length l).

#[global] Instance sepFree_dec sep l : Decision (sepFree sep l) :=
  decide (strings.Index (l ++ sep) sep = Z.of_nat (length l)).

(** ** Sample requests for concrete runs *)

(** Carriage return and line feed, for [CRLF]. *)
Definition crlf : list byte := [x0d; x0a].

(** The lines of a GET request for a file, with two header lines, and of
    a POST request for it. *)
Definition getLines : list (list byte) :=
  [lit "GET /hello.txt HTTP/1.0"; lit "Host:localhost"; lit "Accept:text/plain"].

Definition postLines : list (list byte) :=
  [lit "POST /hello.txt HTTP/1.0"; lit "Content-Length:2"].

(** A sample world: the files of one flat directory, by path, the
    newest first; every write succeeds. *)
Definition sampleFiles : Type := list (list byte * list byte).

#[global] Instance sampleFiles_fs : FileSystem sampleFiles := {|
  ReadDir _ w := Some ((λ file, (file.1, false)) <$> w);
  ReadFile path w := (λ r, r.2.2) <$> list_find (λ file, file.1 = path) w;
  WriteFile path data w := ((path, data) :: w, false)
|}.

Definition sampleJoin (root name : list byte) : list byte :=
  root ++ lit "/" ++ name.

Definition sampleReason (statusCode : Z) : list byte :=
  if statusCode =? 200 then lit "OK"
  else if statusCode =? 403 then lit "Forbidden"
  else if statusCode =? 404 then lit "Not Found"
  else lit "Internal Server Error".

(** A disk with one file under the root /srv, and three requests. *)
Definition sampleDisk : sampleFiles := [(lit "/srv/hello.txt", lit "hello")].

Definition postRoot : list byte :=
  lit "POST / HTTP/1.0" ++ crlf ++ crlf ++ lit "hi".

Definition getOutside : list byte :=
  lit "GET /../secret.txt HTTP/1.0" ++ crlf ++ crlf.

Definition postOutside : list byte :=
  lit "POST /../planted.txt HTTP/1.0" ++ crlf ++ crlf ++ lit "hi".

(** ** The client: [libhttpc] *)

Module libhttpc.

(** Modelled from the spec: the declaration of [Response] is not among
    the sources; its fields are those that [FromString] fills. *)
Record Response := mkResponse {
  Protocol : list byte;
  StatusCode : Z;
  Headers : list byte;
  Body : list byte
}.

(** The values of [error] that the client makes or passes on: the
    error of [strconv.Atoi] for a text, [errors.New] of a message, and
    whatever [Get] reports. *)
Inductive error :=
| NumError (text : list byte)
| errorString (message : list byte)
| netError (code : Z).

Definition parseStatusCode (statusCode : list byte) : Z * option error :=
  let '(code, err) := Atoi statusCode in
  if err then (-1, Some (NumError statusCode)) else (code, None).

Section Client.

(** Modelled from the spec: the constant [CRLF] of the package is
    declared outside the sources. *)
Variable CRLF : list byte.

(** [strings.TrimSpace], not modelled further. *)
Variable TrimSpace : list byte → list byte.

(** [FromString]: the response and the error, [None] for [nil];
    the outer [None] is a panic. *)
Definition FromString (response : list byte)
    : option (option Response * option error) :=
  let responseSplit := strings.Split response (CRLF ++ CRLF) in
  if (length responseSplit =? 2)%nat then
    preBody ← responseSplit !! 0%nat;
    body ← responseSplit !! 1%nat;
    let preBodySplit := Split preBody x0a in
    first ← preBodySplit !! 0%nat;
    status ←
      (if strings.HasPrefix first (lit "HTTP") then
         let statusLineSplit := Split first " "%byte in
         protocol ← statusLineSplit !! 0%nat;
         codeText ← statusLineSplit !! 1%nat;
         let '(statusCode, err) := parseStatusCode codeText in
         match err with
         | Some e => Some (inr e)
         | None => Some (inl (protocol, statusCode))
         end
       else Some (inl ([], 0)));
    match status with
    | inr e => Some (None, Some e)
    | inl (protocol, statusCode) =>
        rest ← sub preBodySplit 1 (Z.of_nat (length preBodySplit));
        Some (Some {| Protocol := protocol; StatusCode := statusCode;
                      Headers := strings.Join rest [x0a];
                      Body := body |}, None)
    end
  else Some (None, None).

(** The loop of [extractRedirectURI] over the header lines. *)
Fixpoint extractLoop (headerLines : list (list byte)) : list byte :=
  match headerLines with
  | [] => []
  | header :: rest =>
      let indexOfSeparator := strings.Index header (lit ":") in
      if -1 <? indexOfSeparator then
        if bool_decide (take (Z.to_nat indexOfSeparator) header
                        = lit "Location")
        then
          TrimSpace
            (strings.TrimSuffix
               (strings.TrimSuffix
                  (drop (Z.to_nat indexOfSeparator + 1) header) [x0d])
               [x0a])
        else extractLoop rest
      else []
  end.

Definition extractRedirectURI (headers : list byte) : list byte :=
  extractLoop (Split headers x0a).

(** The network as [Get] sees it: the world [N] outside, which a
    request may change, and the headers of the request, which
    [HandleRedirects] passes on. *)
Context {N RequestHeader : Type}.
Variable Get : list byte → RequestHeader → N
               → (list byte * option error) * N.

(** The loop of [HandleRedirects], for the iterations that
    [redirectCount < 5] leaves: the lines printed, and the result
    and the world unless the loop panics on a [nil] response. *)
Fixpoint redirectLoop (iterations : nat) (response : option Response)
    (responseString : list byte) (headers : RequestHeader) (net : N)
    : list (list byte) * option ((list byte * option error) * N) :=
  match iterations with
  | O => ([], Some (([], Some (errorString (lit "Exceeded 5 redirects!"))),
                    net))
  | S iterations' =>
      match response with
      | None => ([], None)
      | Some r =>
          if (301 <=? StatusCode r) && (StatusCode r <=? 303) then
            let redirectURI := extractRedirectURI (Headers r) in
            let printed :=
              [lit "Encountered status code " ++ Itoa (StatusCode r)
                 ++ lit "...Redirecting to " ++ redirectURI ++ [x0a]] in
            if bool_decide (redirectURI ≠ []) then
              let '((responseString', err), net') :=
                Get redirectURI headers net in
              match err with
              | Some e => (printed, Some (([], Some e), net'))
              | None =>
                  match FromString responseString' with
                  | None => (printed, None)
                  | Some (_, Some e) =>
                      (printed, Some (([], Some e), net'))
                  | Some (response', None) =>
                      let '(printed', result) :=
                        redirectLoop iterations' response'
                          responseString' headers net' in
                      (printed ++ printed', result)
                  end
              end
            else
              (printed,
               Some (([], Some (errorString
                                  (lit "Bad redirect URI in Location header"))),
                     net))
          else ([], Some ((responseString, None), net))
      end
  end.

Definition HandleRedirects (response : option Response)
    (responseString : list byte) (headers : RequestHeader)
    (redirectCount : Z) (net : N)
    : list (list byte) * option ((list byte * option error) * N) :=
  redirectLoop (Z.to_nat (5 - redirectCount)) response responseString
    headers net.

End Client.

(** [Get] with a counter of the requests made. *)
Definition counted {N RequestHeader : Type}
    (Get : list byte → RequestHeader → N → (list byte * option error) * N)
    (uri : list byte) (headers : RequestHeader) (net : N * nat)
    : (list byte * option error) * (N * nat) :=
  let '(result, net') := Get uri headers net.1 in
  (result, (net', S net.2)).

End libhttpc.

(** ** A sample network for concrete runs of the client *)

(** The responses still to come, one for each request; a request beyond
    them fails. *)
Definition sampleGet (uri : list byte) (headers : unit)
    (net : list (list byte))
    : (list byte * option libhttpc.error) * list (list byte) :=
  match net with
  | response :: rest => ((response, None), rest)
  | [] => (([], Some (libhttpc.netError 1)), [])
  end.

(** A redirect to another place and the answer found there. *)
Definition movedResponse : libhttpc.Response :=
  {| libhttpc.Protocol := lit "HTTP/1.0"; libhttpc.StatusCode := 302;
     libhttpc.Headers := lit "Server:x" ++ [x0a] ++ lit "Location:http://b/"
                           ++ [x0d];
     libhttpc.Body := [] |}.

Definition foundText : list byte :=
  lit "HTTP/1.0 200 OK " ++ crlf ++ lit "Content-Length:2" ++ crlf ++ crlf
    ++ lit "hi".

(** The run of [HandleRedirects] on that redirect, counting requests. *)
Definition sampleRedirect
    : list (list byte)
      * option ((list byte * option libhttpc.error)
                * (list (list byte) * nat)) :=
  libhttpc.HandleRedirects crlf (λ s, s) (libhttpc.counted sampleGet)
    (Some movedResponse) [] tt 0 ([foundText], 0%nat).

(** A header line that is not a Location line: it has a colon, and what
    stands before its first colon is not the word Location. *)
Definition otherHeader (line : list byte) : Prop :=
  ∃ name rest, line = name ++ ":"%byte :: rest
               ∧ (":"%byte ∉ name) ∧ name ≠ lit "Location".

(** A datagram that a receiver does not read as DATA. *)
Definition notData (b : list byte) : Prop := ∀ q, headerOf b ≠ Some (0, q).

(** The sequence number that a receiver reads from a datagram as a NAK,
    and the sequence numbers NAKed in a trace, in order. *)
Definition nakOf (b : list byte) : option Z :=
  '(t, q) ← headerOf b;
  if t =? 4 then Some q else None.

Definition naksSent (t : list Event) : list Z := omap nakOf (sent t).

(** A datagram that a receiver reads as DATA, if it reads it at all. *)
Definition dataOnly (b : list byte) : Prop :=
  ∀ ty q, headerOf b = Some (ty, q) → ty = 0.

(** Besides the invariant of a session, the response packets it keeps
    for retransmission are DATA packets. *)
Definition sessionInv2 (s : Session) : Prop :=
  sessionInv s ∧ Forall dataOnly (getBytesFromPacket <$> responsePackets s).

(** A list of numbers that grows strictly from each element to the
    next. *)
Definition increasing (l : list Z) : Prop :=
  ∀ i j a b, (i < j)%nat → l !! i = Some a → l !! j = Some b → a < b.

(** ** The HTTP side of the source behind the transport *)

(** [handleUdpConnection] with the routes that [main] registers, the
    root directory /srv and the sample disk, as the HTTP side of a
    session; every request meets the same files. *)
Definition fileBridge (requestPayload : list byte) : option (list byte) :=
  fst <$> handleUdpConnection crlf [] sampleReason
            (registeredRoutes crlf sampleJoin) (lit "/srv")
            requestPayload sampleDisk.


(** The two packets of a request for a route outside the root
    directory, which the handler refuses with a body that names the
    route: the answer to both packets takes two response packets, the
    answer to the first alone takes one. *)
Definition refusedHead : list byte := lit "GET /x/".

Definition refusedRest : list byte :=
  replicate 1000 "a"%byte ++ lit " HTTP/1.0" ++ crlf ++ crlf.

(** A session whose response has been emitted twice by [fileBridge]:
    first for the request of two packets (two response packets, of which
    the peer NAKs the second), then, after a SYN announcing one packet,
    for its first packet alone (one response packet). *)
Definition reansweredSession : Session :=
  default freshSession
    (serveSession fileBridge
       [peerPacket 2 2 (lit "2");
        peerPacket 0 4 refusedHead;
        peerPacket 0 5 refusedRest;
        peerPacket 4 2 [];
        peerPacket 2 2 (lit "1");
        peerPacket 0 6 (lit "z")]
       freshSession).2.

(** ** The handshake when a write can fail *)

(** The retry loop of [handleHandshakePacket], lines 497 to 504, with the
    outcomes of its calls of [WriteToUDP] in turn, [true] for a write
    that succeeded: a failed write is logged and the same datagram is
    written again.  The loop ends at the first [true]; the result says
    whether it has ended within the outcomes given. *)
Fixpoint synAckLoop (packetBytes : list byte) (outcomes : list bool)
    : IO bool :=
  match outcomes with
  | [] => mret false
  | true :: _ => emit (WriteToUDP packetBytes);; mret true
  | false :: rest =>
      emit (WriteToUDP packetBytes);;
      emit (LogInfo (lit "Timeout handshaking!"));;
      synAckLoop packetBytes rest
  end.

(** [handleHandshakePacket] with that loop: the result is [None] while
    the loop is running, and the pointer returned once it has ended. *)
Definition handleHandshakePacketRetry (outcomes : list bool)
    (packet : UDPPacket) : IO (option (option Z)) :=
  hostAddr' ← orPanic (getAddressFromBytes packet);
  t ← orPanic (pType packet !! 0%nat);
  if byteZ t =? 2 then
    receivedSeq ← orPanic (Uint32 (seqNo packet));
    let '(totalNumPackets', err) := Atoi (payload packet) in
    (if err then emit (LogInfo (lit "Corrupt SYN packet!")) else mret tt);;
    port ← orPanic (Uint16 (peerPort packet));
    synAck ← orPanic (MakePacket 3 (wrap32 (receivedSeq + 1)) hostAddr' port []);
    let packetBytes := getBytesFromPacket synAck in
    ended ← synAckLoop packetBytes outcomes;
    if ended : bool then
      emit (LogInfo (lit "SYN'd packet " ++ Itoa receivedSeq));;
      mret (Some (Some totalNumPackets'))
    else mret None
  else if byteZ t =? 1 then
    receivedSeq ← orPanic (Uint32 (seqNo packet));
    emit (LogInfo (lit "Received ACK for packet " ++ Itoa receivedSeq));;
    mret (Some None)
  else mret (Some None).

(** How a pass with the retry loop leaves the session. *)
Definition retryOutcome (r : list Event * flow bool)
    : list Event * option (option Session) :=
  match r with
  | (t, Next true s') => (t, Some (Some s'))
  | (t, Next false _) => (t, Some None)
  | (t, Continue s') => (t, Some (Some s'))
  | (t, Panic) => (t, None)
  end.

Section Retry.

Variable handleUdpConnection : list byte → option (list byte).

(** The body of the receive loop with that handshake; every other
    write is accepted, as in [loopBody].  The result says whether the
    pass has ended. *)
Definition loopBodyRetry (outcomes : list bool) (packet : UDPPacket)
    : Loop bool :=
  receivedSeqNo ← io (orPanic (Uint32 (seqNo packet)));
  t ← io (orPanic (pType packet !! 0%nat));
  (if byteZ t =? 4 then
     modify (λ s, set_responseNaksList (responseNaksList s ++ [packet]) s);;
     s ← get;
     io (sendUnreceivedResponsePackets (responseNaksList s) (responsePackets s))
   else if byteZ t =? 1 then
     if receivedSeqNo =? 3 then continue
     else
       s ← get;
       responseNaksList' ← io (orPanic (remove (responseNaksList s) packet));
       modify (set_responseNaksList responseNaksList');;
       s ← get;
       io (sendUnreceivedResponsePackets (responseNaksList s) (responsePackets s))
   else mret tt);;
  (if byteZ t =? 0 then onData handleUdpConnection packet receivedSeqNo
   else mret tt);;
  handshake ← io (handleHandshakePacketRetry outcomes packet);
  match handshake with
  | Some handshakePayload =>
      match handshakePayload with
      | Some n => if 0 <? n then modify (set_totalNumPackets n) else mret tt
      | None => mret tt
      end;;
      mret true
  | None => mret false
  end.

(** One packet taken from the inbox: the events, and [None] for a
    panic, [Some None] for a pass that is still in the retry loop,
    [Some (Some s')] for a pass that has ended with the session [s']. *)
Definition sessionStepRetry (outcomes : list bool) (packet : UDPPacket)
    (s : Session) : list Event * option (option Session) :=
  retryOutcome (loopBodyRetry outcomes packet s).

End Retry.

Lemma byteZ_range b : 0 ≤ byteZ b < 256.
Proof. unfold byteZ. pose proof (Byte.to_N_bounded b). lia. Qed.

Lemma byteZ_toByte x : byteZ (toByte x) = x mod 256.
Proof.
  unfold byteZ, toByte.
  assert (H : 0 ≤ x mod 256 < 256) by (apply Z.mod_pos_bound; lia).
  destruct (Byte.of_N (Z.to_N (x mod 256))) as [b|] eqn:E; simpl.
  - apply Byte.to_of_N in E. rewrite E. lia.
  - apply Byte.of_N_None_iff in E. lia.
Qed.

Lemma toByte_byteZ b : toByte (byteZ b) = b.
Proof.
  unfold toByte, byteZ. pose proof (Byte.to_N_bounded b).
  rewrite Z.mod_small by lia. rewrite N2Z.id, Byte.of_to_N. done.
Qed.

Lemma Uint16_PutUint16 v : 0 ≤ v < 2 ^ 16 → Uint16 (PutUint16 v) = Some v.
Proof.
  intros Hv. unfold Uint16, PutUint16. f_equal. rewrite !byteZ_toByte.
  change 256 with (2 ^ 8).
  apply Z.bits_inj'. intros n Hn.
  rewrite Z.lor_spec, Z.shiftl_spec by lia.
  destruct (decide (n < 8)).
  - rewrite (Z.testbit_neg_r _ (n - 8)) by lia.
    rewrite Z.mod_pow2_bits_low by lia. done.
  - rewrite (Z.mod_pow2_bits_high v) by lia. rewrite orb_false_r.
    destruct (decide (n < 16)).
    + rewrite Z.mod_pow2_bits_low by lia. rewrite Z.shiftr_spec by lia.
      f_equal. lia.
    + rewrite Z.mod_pow2_bits_high by lia.
      symmetry. rewrite <- (Z.mod_small v (2 ^ 16)) by lia.
      apply Z.mod_pow2_bits_high. lia.
Qed.

Lemma Uint32_PutUint32 v : 0 ≤ v < 2 ^ 32 → Uint32 (PutUint32 v) = Some v.
Proof.
  intros Hv. unfold Uint32, PutUint32. f_equal. rewrite !byteZ_toByte.
  change 256 with (2 ^ 8).
  apply Z.bits_inj'. intros n Hn.
  rewrite !Z.lor_spec, !Z.shiftl_spec by lia.
  destruct (decide (n < 8)).
  { rewrite !(Z.testbit_neg_r _ (n - _)) by lia.
    rewrite Z.mod_pow2_bits_low by lia. done. }
  rewrite (Z.mod_pow2_bits_high v) by lia. rewrite orb_false_r.
  destruct (decide (n < 16)).
  { rewrite !(Z.testbit_neg_r _ (n - 24)), !(Z.testbit_neg_r _ (n - 16)) by lia.
    rewrite Z.mod_pow2_bits_low by lia. rewrite Z.shiftr_spec by lia.
    simpl. f_equal. lia. }
  rewrite (Z.mod_pow2_bits_high (Z.shiftr v 8)) by lia. rewrite orb_false_r.
  destruct (decide (n < 24)).
  { rewrite !(Z.testbit_neg_r _ (n - 24)) by lia.
    rewrite Z.mod_pow2_bits_low by lia. rewrite Z.shiftr_spec by lia.
    simpl. f_equal. lia. }
  rewrite (Z.mod_pow2_bits_high (Z.shiftr v 16)) by lia. rewrite orb_false_r.
  destruct (decide (n < 32)).
  { rewrite Z.mod_pow2_bits_low by lia. rewrite Z.shiftr_spec by lia.
    f_equal. lia. }
  rewrite Z.mod_pow2_bits_high by lia.
  symmetry. rewrite <- (Z.mod_small v (2 ^ 32)) by lia.
  apply Z.mod_pow2_bits_high. lia.
Qed.

Lemma lor_bound a b n : 0 ≤ n → 0 ≤ a < 2 ^ n → 0 ≤ b < 2 ^ n → 0 ≤ Z.lor a b < 2 ^ n.
Proof.
  intros Hn Ha Hb.
  assert (H0 : 0 ≤ Z.lor a b) by (apply Z.lor_nonneg; lia).
  split; [done|].
  destruct (decide (Z.lor a b = 0)) as [->|Hne]; [lia|].
  apply Z.log2_lt_pow2; [lia|].
  rewrite Z.log2_lor by lia.
  assert (0 < n).
  { destruct (decide (n = 0)) as [->|]; [|lia].
    assert (a = 0) as -> by lia. assert (b = 0) as -> by lia. done. }
  assert (La : Z.log2 a < n).
  { destruct (decide (a = 0)) as [->|]; [simpl; lia|]. apply Z.log2_lt_pow2; lia. }
  assert (Lb : Z.log2 b < n).
  { destruct (decide (b = 0)) as [->|]; [simpl; lia|]. apply Z.log2_lt_pow2; lia. }
  lia.
Qed.

Lemma shiftl_byte_bound b k n : 0 ≤ k → k + 8 ≤ n → 0 ≤ Z.shiftl (byteZ b) k < 2 ^ n.
Proof.
  intros Hk Hn. pose proof (byteZ_range b). rewrite Z.shiftl_mul_pow2 by lia.
  split; [apply Z.mul_nonneg_nonneg; lia|].
  apply Z.lt_le_trans with (2 ^ 8 * 2 ^ k).
  - apply Z.mul_lt_mono_pos_r; lia.
  - rewrite <- Z.pow_add_r by lia. apply Z.pow_le_mono_r; lia.
Qed.

Lemma Uint32_range b v : Uint32 b = Some v → 0 ≤ v < 2 ^ 32.
Proof.
  destruct b as [|b0 [|b1 [|b2 [|b3 ?]]]]; try discriminate.
  intros [= <-].
  repeat apply lor_bound; try lia; try (apply shiftl_byte_bound; lia).
  pose proof (byteZ_range b3). lia.
Qed.

Lemma Uint16_range b v : Uint16 b = Some v → 0 ≤ v < 2 ^ 16.
Proof.
  destruct b as [|b0 [|b1 ?]]; try discriminate.
  intros [= <-].
  repeat apply lor_bound; try lia; try (apply shiftl_byte_bound; lia).
  pose proof (byteZ_range b1). lia.
Qed.

Lemma Split_noDot_app s rest :
  noDot s = true → Split (s ++ "."%byte :: rest) "."%byte = s :: Split rest "."%byte.
Proof.
  induction s as [|c s IH]; simpl; intros H.
  - done.
  - apply andb_prop in H as [Hc Hs]. apply negb_true_iff in Hc.
    rewrite Hc. rewrite IH by done. done.
Qed.

Lemma Split_noDot s : noDot s = true → Split s "."%byte = [s].
Proof.
  induction s as [|c s IH]; simpl; intros H.
  - done.
  - apply andb_prop in H as [Hc Hs]. apply negb_true_iff in Hc.
    rewrite Hc. rewrite IH by done. done.
Qed.

Lemma Itoa_byte_noDot b : noDot (Itoa (byteZ b)) = true.
Proof. destruct b; vm_compute; reflexivity. Qed.

Lemma Atoi_Itoa_byte b : Atoi (Itoa (byteZ b)) = (byteZ b, false).
Proof. destruct b; vm_compute; reflexivity. Qed.

Lemma Split_dotted o0 o1 o2 o3 :
  Split (dotted (byteZ o0) (byteZ o1) (byteZ o2) (byteZ o3)) "."%byte
  = [Itoa (byteZ o0); Itoa (byteZ o1); Itoa (byteZ o2); Itoa (byteZ o3)].
Proof.
  unfold dotted. change (lit ".") with ["."%byte]. simpl app.
  rewrite !Split_noDot_app by apply Itoa_byte_noDot.
  rewrite Split_noDot by apply Itoa_byte_noDot. done.
Qed.

Lemma MakePacket_dotted t s o0 o1 o2 o3 p pl :
  MakePacket t s (dotted (byteZ o0) (byteZ o1) (byteZ o2) (byteZ o3)) p pl
  = Some {| pType := [toByte t]; seqNo := PutUint32 s;
            peerAddr := [o0; o1; o2; o3]; peerPort := PutUint16 p;
            payload := pl |}.
Proof.
  unfold MakePacket. rewrite Split_dotted. simpl.
  rewrite !Atoi_Itoa_byte. simpl. rewrite !toByte_byteZ. done.
Qed.

(** ** The codec *)

Lemma parsePacket_short d : (len d < 11)%nat → parsePacket d = None.
Proof.
  intros H. unfold parsePacket.
  destruct (index d 0) as [t|]; [|done]. simpl.
  destruct (subslice d 1 5); [|done]. simpl.
  destruct (subslice d 5 9); [|done]. simpl.
  destruct (subslice d 9 11); [|done]. simpl.
  unfold subsliceFrom. rewrite decide_False by lia. done.
Qed.

Lemma parsePacket_long e sp :
  (11 ≤ length e)%nat →
  parsePacket (Slice e sp) =
    Some {| pType := take 1 e; seqNo := take 4 (drop 1 e);
            peerAddr := take 4 (drop 5 e); peerPort := take 2 (drop 9 e);
            payload := drop 11 e |}.
Proof.
  intros H.
  do 11 (destruct e as [|? e]; [simpl in H; lia|]).
  unfold parsePacket, index, subslice, subsliceFrom, cap, len. simpl elems. simpl spare.
  rewrite !decide_True by (rewrite ?length_app; simpl; lia).
  reflexivity.
Qed.

(** The spare capacity of the slice plays no part in [parsePacket]. *)
Lemma parsePacket_spare e sp : parsePacket (Slice e sp) = parsePacket (Slice e []).
Proof.
  destruct (decide (11 ≤ length e)%nat).
  - rewrite !parsePacket_long by done. done.
  - rewrite !parsePacket_short by (unfold len; simpl; lia). done.
Qed.

Lemma parsePacket_wf d packet : parsePacket d = Some packet → wfPacket packet.
Proof.
  destruct d as [e sp]. intros H.
  destruct (decide (11 ≤ length e)%nat).
  - rewrite parsePacket_long in H by done. injection H as <-.
    unfold wfPacket. simpl. rewrite !length_take, !length_drop. lia.
  - rewrite parsePacket_short in H by (unfold len; simpl; lia). done.
Qed.

Lemma getBytes_parsePacket e sp packet :
  parsePacket (Slice e sp) = Some packet → getBytesFromPacket packet = e.
Proof.
  intros H.
  destruct (decide (11 ≤ length e)%nat).
  - rewrite parsePacket_long in H by done. injection H as <-.
    do 11 (destruct e as [|? e]; [simpl in *; lia|]). reflexivity.
  - rewrite parsePacket_short in H by (unfold len; simpl; lia). done.
Qed.

Lemma parsePacket_getBytes packet sp :
  wfPacket packet → parsePacket (Slice (getBytesFromPacket packet) sp) = Some packet.
Proof.
  destruct packet as [t s a p pl]. intros (Ht & Hs & Ha & Hp). simpl in *.
  destruct t as [|t0 [|]]; try discriminate.
  destruct s as [|s0 [|s1 [|s2 [|s3 [|]]]]]; try discriminate.
  destruct a as [|a0 [|a1 [|a2 [|a3 [|]]]]]; try discriminate.
  destruct p as [|p0 [|p1 [|]]]; try discriminate.
  rewrite parsePacket_long by (unfold getBytesFromPacket; simpl; lia).
  unfold getBytesFromPacket. simpl. rewrite drop_0. done.
Qed.

Lemma wfPacket_fields packet :
  wfPacket packet →
  ∃ t r a p, pType packet !! 0%nat = Some t ∧ Uint32 (seqNo packet) = Some r
             ∧ getAddressFromBytes packet = Some a
             ∧ Uint16 (peerPort packet) = Some p.
Proof.
  destruct packet as [t s a p pl]. intros (Ht & Hs & Ha & Hp). simpl in *.
  destruct t as [|t0 [|]]; try discriminate.
  destruct s as [|s0 [|s1 [|s2 [|s3 [|]]]]]; try discriminate.
  destruct a as [|a0 [|a1 [|a2 [|a3 [|]]]]]; try discriminate.
  destruct p as [|p0 [|p1 [|]]]; try discriminate.
  unfold getAddressFromBytes. simpl. eauto 10.
Qed.

(** C7. Codec round trip: a packet built by [MakePacket] from a one-byte
    type [t], a 32-bit [seqNo], a dotted-quad address, a 16-bit port and a
    payload of at most 1013 bytes, serialised by [getBytesFromPacket] and
    decoded by [parsePacket], is the packet that was built, and its type,
    sequence number, peer address, peer port and payload read back as the
    inputs. *)
Theorem codec_roundtrip (t s p : Z) (o0 o1 o2 o3 : byte) (pl sp : list byte) :
  0 ≤ t < 256 → 0 ≤ s < 2 ^ 32 → 0 ≤ p < 2 ^ 16 →
  (length pl ≤ 1013)%nat →
  let a := dotted (byteZ o0) (byteZ o1) (byteZ o2) (byteZ o3) in
  ∃ packet decoded,
    MakePacket t s a p pl = Some packet
    ∧ parsePacket (Slice (getBytesFromPacket packet) sp) = Some decoded
    ∧ decoded = packet
    ∧ byteZ <$> pType decoded !! 0%nat = Some t
    ∧ Uint32 (seqNo decoded) = Some s
    ∧ getAddressFromBytes decoded = Some a
    ∧ peerAddr decoded = [o0; o1; o2; o3]
    ∧ getPortFromBytes decoded = Some p
    ∧ payload decoded = pl.
Proof.
  intros Ht Hs Hp Hpl a. subst a.
  eexists _, _. split; [apply MakePacket_dotted|].
  split; [apply parsePacket_getBytes; by repeat split|].
  split; [done|].
  unfold getPortFromBytes, getAddressFromBytes.
  cbn [pType seqNo peerAddr peerPort payload].
  rewrite Uint32_PutUint32, Uint16_PutUint16 by lia. simpl.
  rewrite byteZ_toByte, Z.mod_small by lia.
  done.
Qed.

Lemma codec_roundtrip_witness :
  ∃ packet,
    MakePacket 1 4 (lit "127.0.0.1") 8080 (lit "hi") = Some packet
    ∧ parsePacket (Slice (getBytesFromPacket packet) []) = Some packet
    ∧ getAddressFromBytes packet = Some (lit "127.0.0.1")
    ∧ getPortFromBytes packet = Some 8080.
Proof.
  destruct (codec_roundtrip 1 4 8080 "127"%byte x00 x00 x01 (lit "hi") [])
    as (packet & decoded & H1 & H2 & -> & _ & _ & H3 & _ & H4 & _);
    [lia | lia | lia | simpl; lia |].
  exists packet. repeat split; assumption.
Defined.

(** ** The decode step of the server loop *)

Lemma decodeStep_short datagram :
  (length datagram < 11)%nat → decodeStep datagram = None.
Proof.
  intros H. unfold decodeStep.
  rewrite parsePacket_short; [done|].
  unfold readFromUDP, len. simpl. rewrite length_take. lia.
Qed.

Lemma decodeStep_long datagram :
  (11 ≤ length datagram)%nat →
  ∃ packet a p key, decodeStep datagram = Some (packet, a, p, key)
    ∧ parsePacket (readFromUDP datagram) = Some packet.
Proof.
  intros H. unfold decodeStep.
  destruct (parsePacket (readFromUDP datagram)) as [packet|] eqn:E.
  - pose proof (parsePacket_wf _ _ E) as Hwf.
    destruct (wfPacket_fields _ Hwf) as (t & r & a & p & _ & _ & Ha & Hp).
    simpl. rewrite Ha. simpl. unfold getPortFromBytes. rewrite Hp. simpl.
    eauto 10.
  - unfold readFromUDP in E. rewrite parsePacket_long in E; [done|].
    rewrite length_take. lia.
Qed.

(** C1. Every datagram shorter than 11 bytes makes [parsePacket] panic in
    the server loop: the decode step yields no packet and no error value
    that the loop could drop and log. *)
Theorem short_datagram_panics (datagram : list byte) :
  (length datagram < 11)%nat →
  parsePacket (readFromUDP datagram) = None ∧ decodeStep datagram = None.
Proof.
  intros H. split; [|by apply decodeStep_short].
  apply parsePacket_short. unfold readFromUDP, len. simpl.
  rewrite length_take. lia.
Qed.

Lemma short_datagram_panics_witness :
  parsePacket (readFromUDP [x01; x00; x00]) = None
  ∧ decodeStep [x01; x00; x00] = None.
Proof. apply short_datagram_panics. simpl. lia. Defined.

(** ** The response chunker *)

Lemma sub_Some {A} (l : list A) lo hi :
  0 ≤ lo → lo ≤ hi → hi ≤ Z.of_nat (length l) →
  sub l lo hi = Some (take (Z.to_nat (hi - lo)) (drop (Z.to_nat lo) l)).
Proof. intros. unfold sub. case_decide; [done|lia]. Qed.

Lemma sub_None {A} (l : list A) lo hi :
  lo < 0 ∨ hi < lo ∨ Z.of_nat (length l) < hi → sub l lo hi = None.
Proof. intros. unfold sub. case_decide; [lia|done]. Qed.

Lemma setAt_Some {A} (l : list A) i x :
  0 ≤ i < Z.of_nat (length l) → setAt l i x = Some (<[Z.to_nat i := x]> l).
Proof. intros. unfold setAt. case_decide; [done|lia]. Qed.

Lemma setAt_None {A} (l : list A) i x :
  i < 0 ∨ Z.of_nat (length l) ≤ i → setAt l i x = None.
Proof. intros. unfold setAt. case_decide; [lia|done]. Qed.

Lemma at_Some {A} (l : list A) i : 0 ≤ i → at_ l i = l !! Z.to_nat i.
Proof. intros. unfold at_. case_decide; [done|lia]. Qed.

Lemma at_None {A} (l : list A) i :
  i < 0 ∨ Z.of_nat (length l) ≤ i → at_ l i = None.
Proof.
  intros. unfold at_. case_decide; [|done].
  apply lookup_ge_None. lia.
Qed.

Section Chunker.

Variables (o0 o1 o2 o3 : byte) (port : Z).

Let addr := dotted (byteZ o0) (byteZ o1) (byteZ o2) (byteZ o3).
Let addr4 := [o0; o1; o2; o3].

Lemma MakePacket_frame t s pl :
  getBytesFromPacket <$> MakePacket t s addr port pl
  = Some (frame t s addr4 port pl).
Proof. unfold addr. rewrite MakePacket_dotted. reflexivity. Qed.

Lemma MakePacket_bind {B} t s pl (k : UDPPacket → option B) :
  (MakePacket t s addr port pl ≫= k)
  = k {| pType := [toByte t]; seqNo := PutUint32 s; peerAddr := addr4;
         peerPort := PutUint16 port; payload := pl |}.
Proof. unfold addr. rewrite MakePacket_dotted. reflexivity. Qed.

Lemma chunkLoop_spec numPackets payloadBytes (n : nat) :
  ∀ (k : nat) (packetsBytes : list (list byte)) (c seq : Z),
    (k + n ≤ length packetsBytes)%nat → 0 ≤ c →
    c + 1012 * Z.of_nat n ≤ Z.of_nat (length payloadBytes) →
    chunkLoop (seqZ (Z.of_nat k + 1) (Z.of_nat n)) numPackets addr port
      payloadBytes packetsBytes c seq
    = Some (take k packetsBytes
              ++ chunkFrames numPackets addr4 port payloadBytes n seq c
              ++ drop (k + n) packetsBytes,
            c + 1012 * Z.of_nat n,
            Nat.iter n (λ x, wrap32 (x + 1)) seq).
Proof.
  induction n as [|n IH]; intros k pb c seq Hk Hc Hlen.
  - simpl. rewrite Nat.add_0_r, take_drop. do 3 f_equal. lia.
  - rewrite seqZ_cons by lia. cbn [chunkLoop].
    rewrite sub_Some by lia. cbn [mbind option_bind].
    rewrite MakePacket_bind.
    rewrite setAt_Some by lia. cbn [mbind option_bind].
    replace (Z.to_nat (Z.of_nat k + 1 - 1)) with k by lia.
    rewrite at_Some by lia.
    replace (Z.to_nat (Z.of_nat k + 1 - 1)) with k by lia.
    rewrite list_lookup_insert_eq by lia. cbn [mbind option_bind].
    rewrite setAt_Some by (rewrite length_insert; lia).
    cbn [mbind option_bind].
    replace (Z.to_nat (Z.of_nat k + 1 - 1)) with k by lia.
    rewrite list_insert_insert_eq.
    replace (Z.succ (Z.of_nat k + 1)) with (Z.of_nat (S k) + 1) by lia.
    replace (Z.pred (Z.of_nat (S n))) with (Z.of_nat n) by lia.
    rewrite IH by (rewrite ?length_insert; lia).
    f_equal. f_equal; [f_equal|].
    + erewrite take_S_r by (apply list_lookup_insert_eq; lia).
      rewrite take_insert_ge by lia.
      rewrite drop_insert_lt by lia.
      cbn [chunkFrames]. rewrite <- app_assoc. simpl.
      replace (Z.to_nat (c + 1012 - c)) with 1012%nat by lia.
      do 3 f_equal. f_equal. lia.
    + lia.
    + rewrite Nat.iter_succ_r. done.
Qed.

End Chunker.

Lemma ceilDiv_one L : 0 < L ≤ 1012 → ceilDiv L 1012 = 1.
Proof. intros. unfold ceilDiv. Z.div_mod_to_equations. lia. Qed.

Lemma ceilDiv_exact N : 0 ≤ N → ceilDiv (1012 * N) 1012 = N.
Proof. intros. unfold ceilDiv. Z.div_mod_to_equations. lia. Qed.

Lemma ceilDiv_bounds L :
  0 ≤ L → (0 < L ∧ 1012 * (ceilDiv L 1012 - 1) < L) ∨ (L = 0 ∧ ceilDiv L 1012 = 0).
Proof. intros. unfold ceilDiv. Z.div_mod_to_equations. lia. Qed.

Lemma ceilDiv_upper L : 0 ≤ L → L ≤ 1012 * ceilDiv L 1012.
Proof. intros. unfold ceilDiv. Z.div_mod_to_equations. lia. Qed.

Lemma length_chunkFrames N addr4 port payload' n :
  ∀ seq c, length (chunkFrames N addr4 port payload' n seq c) = n.
Proof. induction n as [|n IH]; intros; simpl; [done|]. by rewrite IH. Qed.

(** [lia] after unfolding the local abbreviations of the goal. *)
Ltac slia := repeat match goal with x := _ |- _ => subst x end; lia.

Section ChunkerResult.

Variables (o0 o1 o2 o3 : byte) (port : Z).

Let addr := dotted (byteZ o0) (byteZ o1) (byteZ o2) (byteZ o3).
Let addr4 := [o0; o1; o2; o3].

Lemma getResponsePacketBytes_one seq payload' :
  (0 < length payload' ≤ 1012)%nat →
  getResponsePacketBytes seq addr port payload'
  = Some ([frame 0 seq addr4 port payload' ++ [toByte 1]], 1).
Proof.
  intros H. unfold getResponsePacketBytes, addr, addr4.
  rewrite ceilDiv_one by lia. rewrite Z.eqb_refl.
  rewrite MakePacket_bind. reflexivity.
Qed.

Lemma getResponsePacketBytes_multi seq payload' :
  let L := Z.of_nat (length payload') in
  let N := ceilDiv L 1012 in
  let m := Z.to_nat (N - 1) in
  N ≠ 1 →
  getResponsePacketBytes seq addr port payload'
  = Some (chunkFrames N addr4 port payload' m seq 0
            ++ (if 0 <? L mod 1012
                then [frame 0 (Nat.iter m (λ x, wrap32 (x + 1)) seq) addr4 port
                        (drop (Z.to_nat (1012 * (N - 1))) payload') ++ [toByte N]]
                else replicate (Z.to_nat N - m) []),
          N).
Proof.
  intros L N m HN.
 unfold getResponsePacketBytes, addr, addr4. fold L. fold N.
  destruct (Z.eqb_spec N 1) as [|_]; [done|].
  assert (HL : 0 ≤ L) by (slia).
  destruct (ceilDiv_bounds L HL) as [[HLpos Hlow]|[HL0 HN0]].
  - pose proof (ceilDiv_upper L HL) as Hup. fold N in Hlow, Hup.
    assert (HN2 : 2 ≤ N) by slia.
    replace (seqZ 1 (N - 1)) with (seqZ (Z.of_nat 0 + 1) (Z.of_nat m))
      by (f_equal; slia).
    rewrite chunkLoop_spec; rewrite ?length_replicate; try slia.
    cbn [mbind option_bind]. rewrite take_0, app_nil_l.
    rewrite drop_replicate. rewrite Z.add_0_l.
    replace (Z.to_nat N - (0 + m))%nat with 1%nat by slia.
    destruct (Z.ltb_spec 0 (L mod 1012)) as [Hres|Hres].
    + rewrite sub_Some by slia.
      cbn [mbind option_bind]. rewrite MakePacket_bind.
      set (addr4' := [o0; o1; o2; o3]).
      assert (Hlen : length (chunkFrames N addr4' port payload' m seq 0) = m)
        by apply length_chunkFrames.
      rewrite setAt_Some by (rewrite length_app, Hlen; simpl; slia).
      cbn [mbind option_bind].
      replace (Z.to_nat (N - 1)) with (length (chunkFrames N addr4' port payload' m seq 0) + 0)%nat by (rewrite Hlen; slia).
      rewrite insert_app_r. rewrite at_Some by slia.
      rewrite lookup_app_r by (rewrite Hlen; slia).
      rewrite Hlen. replace (Z.to_nat (N - 1) - m)%nat with 0%nat by slia.
      simpl lookup.
      cbn [mbind option_bind].
      rewrite setAt_Some by (rewrite length_app, Hlen; simpl; slia).
      replace (Z.to_nat (N - 1)) with (length (chunkFrames N addr4' port payload' m seq 0) + 0)%nat by (rewrite Hlen; slia).
      rewrite insert_app_r.
      change (replicate 1 []) with [[] : list byte].
      cbn [insert list_insert].
      rewrite take_ge by (rewrite length_drop; slia).
      unfold getBytesFromPacket, frame.
      cbn [pType seqNo peerAddr peerPort payload].
      rewrite <- !app_assoc.
      replace (Z.to_nat (1012 * Z.of_nat m)) with (Z.to_nat (1012 * (N - 1)))
        by slia.
      reflexivity.
    + replace (Z.to_nat N - m)%nat with 1%nat by slia. done.
  - assert (payload' = []) as -> by (destruct payload'; [done|simpl in *; lia]).
    reflexivity.
Qed.

End ChunkerResult.

(** ** Traces and the [IO] monad *)

Lemma sent_app t1 t2 : sent (t1 ++ t2) = sent t1 ++ sent t2.
Proof.
  induction t1 as [|[] t1 IH]; simpl; [done|by rewrite IH|done|done].
Qed.

Lemma handled_app t1 t2 : handled (t1 ++ t2) = handled t1 ++ handled t2.
Proof.
  induction t1 as [|[] t1 IH]; simpl; [done|done|done|by rewrite IH].
Qed.

Lemma sent_writes bs : sent (WriteToUDP <$> bs) = bs.
Proof. induction bs as [|b bs IH]; csimpl; [done|by rewrite IH]. Qed.

Lemma handled_writes bs : handled (WriteToUDP <$> bs) = [].
Proof. induction bs as [|b bs IH]; csimpl; done. Qed.

Lemma bind_orPanic_Some {A B} (a : A) (f : A → IO B) :
  (orPanic (Some a) ≫= f) = f a.
Proof. unfold mbind, IO_mbind, IO_bind, orPanic. by destruct (f a). Qed.

Lemma bind_orPanic_None {A B} (f : A → IO B) :
  (orPanic None ≫= f) = ([], None).
Proof. reflexivity. Qed.

Lemma bind_emit {B} e (f : unit → IO B) :
  (emit e ≫= f) = (e :: (f tt).1, (f tt).2).
Proof. unfold mbind, IO_mbind, IO_bind, emit. by destruct (f tt). Qed.

Lemma bind_mret {A B} (a : A) (f : A → IO B) : (mret a ≫= f) = f a.
Proof. unfold mbind, IO_mbind, IO_bind, mret, IO_mret, IO_ret. by destruct (f a). Qed.

Lemma bind_done {A B} t (a : A) (f : A → IO B) :
  ((t, Some a) : IO A) ≫= f = (t ++ (f a).1, (f a).2).
Proof. unfold mbind, IO_mbind, IO_bind. by destruct (f a). Qed.

Lemma IO_bind_assoc {A B C} (m : IO A) (f : A → IO B) (g : B → IO C) :
  ((m ≫= f) ≫= g) = (m ≫= λ x, f x ≫= g).
Proof.
  unfold mbind, IO_mbind, IO_bind.
  destruct m as [t1 [a|]]; [|done].
  destruct (f a) as [t2 [b|]]; [|done].
  destruct (g b) as [t3 r]. by rewrite app_assoc.
Qed.

Lemma isLong_true b : isLong b = true ↔ (11 ≤ length b)%nat.
Proof. unfold isLong. apply Nat.leb_le. Qed.

Lemma isLong_false b : isLong b = false ↔ (length b < 11)%nat.
Proof. unfold isLong. apply Nat.leb_gt. Qed.

Lemma parsePacket_decoded e sp :
  parsePacket (Slice e sp) = if isLong e then Some (decoded e) else None.
Proof.
  destruct (isLong e) eqn:E.
  - apply parsePacket_long. by apply isLong_true.
  - apply parsePacket_short. unfold len. simpl. by apply isLong_false.
Qed.

Lemma getBytes_decoded e : isLong e = true → getBytesFromPacket (decoded e) = e.
Proof.
  intros H. apply (getBytes_parsePacket e []).
  by rewrite parsePacket_decoded, H.
Qed.

(** ** The response emitter *)

(** The loop of [writeResponseToClient]: every datagram is parsed, then
    written, in order; the loop panics at the first datagram shorter than
    a header, before writing it. *)
Lemma sendLoop_spec bs : ∀ acc,
  forRange bs (λ responsePackets' packetBytes,
      parsed ← orPanic (parsePacket (Slice packetBytes []));
      emit (WriteToUDP packetBytes);;
      mret (responsePackets' ++ [parsed])) acc
  = (WriteToUDP <$> longPrefix bs,
     if forallb isLong bs then Some (acc ++ (decoded <$> bs)) else None).
Proof.
  induction bs as [|b bs IH]; intros acc.
  - simpl. by rewrite app_nil_r.
  - cbn [forRange longPrefix forallb]. rewrite parsePacket_decoded.
    destruct (isLong b) eqn:E.
    + rewrite bind_orPanic_Some, bind_emit.
      unfold mret, IO_mret, IO_ret. cbn [fst snd].
      unfold mbind at 1, IO_mbind, IO_bind.
      rewrite IH. csimpl.
      rewrite <- app_assoc. reflexivity.
    + reflexivity.
Qed.

Section Emitter.

Variable handleUdpConnection : list byte → option (list byte).

Lemma writeResponseToClient_spec httpPayload' total hostAddr' hostPort' req resp bs n :
  stringifyRequestPayload httpPayload' total = Some req →
  handleUdpConnection req = Some resp →
  getResponsePacketBytes 1 hostAddr' (wrap16 hostPort') resp = Some (bs, n) →
  writeResponseToClient handleUdpConnection httpPayload' total hostAddr' hostPort'
  = (HandleUdp req :: (WriteToUDP <$> longPrefix bs),
     if forallb isLong bs then Some (decoded <$> bs, n) else None).
Proof.
  intros Hreq Hresp Hbs. unfold writeResponseToClient, getResponsePayload.
  rewrite !IO_bind_assoc.
  rewrite Hreq, bind_orPanic_Some, !IO_bind_assoc, bind_emit. cbn beta.
  rewrite Hresp, !bind_orPanic_Some.
  rewrite Hbs, !bind_orPanic_Some. rewrite sendLoop_spec.
  unfold mbind, IO_mbind, IO_bind. cbn [fst snd].
  destruct (forallb isLong bs); simpl; rewrite ?app_nil_r; done.
Qed.

(** Without a request window or a response, the emitter panics before
    anything is written. *)
Lemma writeResponseToClient_no_response httpPayload' total hostAddr' hostPort' req :
  stringifyRequestPayload httpPayload' total = Some req →
  handleUdpConnection req = None →
  writeResponseToClient handleUdpConnection httpPayload' total hostAddr' hostPort'
  = ([HandleUdp req], None).
Proof.
  intros Hreq Hresp. unfold writeResponseToClient, getResponsePayload.
  rewrite !IO_bind_assoc.
  rewrite Hreq, bind_orPanic_Some, !IO_bind_assoc, bind_emit. cbn beta.
  rewrite Hresp. reflexivity.
Qed.

End Emitter.

(** ** C3: a response of exactly 1012·N bytes *)

Lemma length_frame t seq addr4 port pl :
  length (frame t seq addr4 port pl) = (7 + length addr4 + length pl)%nat.
Proof. unfold frame, PutUint32, PutUint16. rewrite !length_app. simpl. lia. Qed.

Lemma chunkFrames_long N addr4 port payload' n :
  length addr4 = 4%nat →
  ∀ seq c, forallb isLong (chunkFrames N addr4 port payload' n seq c) = true.
Proof.
  intros Ha. induction n as [|n IH]; intros seq c; [done|].
  cbn [chunkFrames forallb]. rewrite IH, andb_true_r.
  apply isLong_true. rewrite length_app, length_frame. lia.
Qed.

Lemma longPrefix_all bs : forallb isLong bs = true → longPrefix bs = bs.
Proof.
  induction bs as [|b bs IH]; simpl; [done|].
  intros [Hb Hbs]%andb_prop. rewrite Hb, IH by done. done.
Qed.

Lemma longPrefix_app_short l b r :
  forallb isLong l = true → isLong b = false →
  longPrefix (l ++ b :: r) = l ∧ forallb isLong (l ++ b :: r) = false.
Proof.
  induction l as [|x l IH]; simpl; intros Hl Hb.
  - by rewrite Hb.
  - apply andb_prop in Hl as [Hx Hl]. rewrite Hx.
    destruct (IH Hl Hb) as [-> ->]. done.
Qed.

(** C3. When the response is exactly 1012·N bytes long with N ≥ 2, the
    chunker fills only the first N−1 of its N slots: the residue is 0, so
    the last 1012 bytes are never made into a packet and slot N stays
    empty.  [writeResponseToClient] then writes N−1 datagrams and panics in
    [parsePacket] at the empty N-th one. *)
Theorem exact_multiple_last_packet_missing
    (handleUdpConnection : list byte → option (list byte))
    (o0 o1 o2 o3 : byte) (hostPort' : Z)
    (httpPayload' : list (list byte)) (total : Z) (req resp : list byte) (N : Z) :
  2 ≤ N → Z.of_nat (length resp) = 1012 * N →
  stringifyRequestPayload httpPayload' total = Some req →
  handleUdpConnection req = Some resp →
  let addr := dotted (byteZ o0) (byteZ o1) (byteZ o2) (byteZ o3) in
  ∃ packetsBytes t,
    getResponsePacketBytes 1 addr (wrap16 hostPort') resp = Some (packetsBytes, N)
    ∧ Z.of_nat (length packetsBytes) = N
    ∧ packetsBytes !! Z.to_nat (N - 1) = Some []
    ∧ writeResponseToClient handleUdpConnection httpPayload' total addr hostPort'
      = (t, None)
    ∧ Z.of_nat (length (sent t)) = N - 1.
Proof.
  intros HN Hlen Hreq Hresp addr.
  pose proof (getResponsePacketBytes_multi o0 o1 o2 o3 (wrap16 hostPort') 1 resp) as H.
  cbv zeta in H. rewrite Hlen, ceilDiv_exact in H by lia.
  specialize (H ltac:(lia)).
  replace ((1012 * N) mod 1012) with 0 in H
    by (symmetry; rewrite Z.mul_comm; apply Z.mod_mul; lia).
  change (0 <? 0) with false in H. cbv iota in H.
  replace (Z.to_nat N - Z.to_nat (N - 1))%nat with 1%nat in H by lia.
  change (replicate 1 []) with [[] : list byte] in H.
  set (cf := chunkFrames N [o0; o1; o2; o3] (wrap16 hostPort') resp
               (Z.to_nat (N - 1)) 1 0) in H.
  assert (Hcf : length cf = Z.to_nat (N - 1)) by apply length_chunkFrames.
  assert (Hlong : forallb isLong cf = true) by (by apply chunkFrames_long).
  destruct (longPrefix_app_short cf [] [] Hlong eq_refl) as [Hpre Hall].
  exists (cf ++ [[]]), (HandleUdp req :: (WriteToUDP <$> cf)).
  split; [exact H|].
  split; [rewrite length_app, Hcf; simpl; lia|].
  split; [rewrite lookup_app_r, Hcf, Nat.sub_diag by lia; done|].
  split.
  - unfold addr.
    rewrite (writeResponseToClient_spec _ _ _ _ _ _ _ _ _ Hreq Hresp H).
    by rewrite Hpre, Hall.
  - cbn [sent]. rewrite sent_writes. lia.
Qed.

Lemma exact_multiple_last_packet_missing_witness :
  ∃ packetsBytes t,
    getResponsePacketBytes 1 (lit "127.0.0.1") 8080 (replicate 2024 "a"%byte)
    = Some (packetsBytes, 2)
    ∧ Z.of_nat (length packetsBytes) = 2
    ∧ packetsBytes !! 1%nat = Some []
    ∧ writeResponseToClient (λ _, Some (replicate 2024 "a"%byte))
        (<[4%nat := lit "x"]> (replicate 1024 [])) 1 (lit "127.0.0.1") 8080
      = (t, None)
    ∧ Z.of_nat (length (sent t)) = 1.
Proof.
  apply (exact_multiple_last_packet_missing
           (λ _, Some (replicate 2024 "a"%byte))
           "127"%byte x00 x00 x01 8080
           (<[4%nat := lit "x"]> (replicate 1024 [])) 1 (lit "x")
           (replicate 2024 "a"%byte) 2);
    [lia | vm_compute; reflexivity | vm_compute; reflexivity | reflexivity].
Defined.

(** ** The [Loop] monad *)

Lemma run_io_Some {A B} (a : A) (f : A → Loop B) s :
  (io (orPanic (Some a)) ≫= f) s = f a s.
Proof.
  unfold mbind, Loop_mbind, Loop_bind, io, orPanic. by destruct (f a s).
Qed.

Lemma run_io_None {A B} (f : A → Loop B) s :
  (io (orPanic None) ≫= f) s = ([], Panic).
Proof. reflexivity. Qed.

Lemma run_io_emit {B} e (f : unit → Loop B) s :
  (io (emit e) ≫= f) s = (e :: (f tt s).1, (f tt s).2).
Proof.
  unfold mbind, Loop_mbind, Loop_bind, io, emit. by destruct (f tt s).
Qed.

Lemma run_get {B} (f : Session → Loop B) s : (get ≫= f) s = f s s.
Proof. unfold mbind, Loop_mbind, Loop_bind, get. by destruct (f s s). Qed.

Lemma run_modify {B} g (f : unit → Loop B) s :
  (modify g ≫= f) s = f tt (g s).
Proof.
  unfold mbind, Loop_mbind, Loop_bind, modify. by destruct (f tt (g s)).
Qed.

Lemma run_mret {A B} (a : A) (f : A → Loop B) s : (mret a ≫= f) s = f a s.
Proof.
  unfold mbind, Loop_mbind, Loop_bind, mret, Loop_mret, Loop_ret.
  by destruct (f a s).
Qed.

Lemma run_continue {A B} (f : A → Loop B) s :
  (continue ≫= f) s = ([], Continue s).
Proof. reflexivity. Qed.

Lemma Loop_bind_assoc {A B C} (m : Loop A) (f : A → Loop B) (g : B → Loop C) s :
  ((m ≫= f) ≫= g) s = (m ≫= λ x, f x ≫= g) s.
Proof.
  unfold mbind, Loop_mbind, Loop_bind.
  destruct (m s) as [t1 [a s1| |]]; [|done|done].
  destruct (f a s1) as [t2 [b s2| |]]; [|done|done].
  destruct (g b s2) as [t3 r]. by rewrite app_assoc.
Qed.

(** Running [m] and then [f], by the way [m] ends. *)
Lemma run_bind {A B} (m : Loop A) (f : A → Loop B) s :
  (m ≫= f) s =
    match (m s).2 with
    | Next a s1 => ((m s).1 ++ (f a s1).1, (f a s1).2)
    | Continue s1 => ((m s).1, Continue s1)
    | Panic => ((m s).1, Panic)
    end.
Proof.
  unfold mbind, Loop_mbind, Loop_bind.
  destruct (m s) as [t1 [a s1| |]]; simpl; [|done|done].
  by destruct (f a s1).
Qed.

Ltac run_step :=
  first
    [ rewrite run_io_Some
    | rewrite run_io_emit
    | rewrite run_get
    | rewrite run_modify
    | rewrite run_mret
    | rewrite Loop_bind_assoc ];
  cbn beta.

Ltac run := repeat run_step; cbn [fst snd].

Lemma nakBody_spec rps nakPack :
  (missingNo ← orPanic (Uint32 (seqNo nakPack));
   missingPacket ← orPanic (at_ rps (missingNo - 1));
   emit (WriteToUDP (getBytesFromPacket missingPacket)))
  = match lookupNak rps nakPack with
    | Some b => ([WriteToUDP b], Some tt)
    | None => ([], None)
    end.
Proof.
  unfold lookupNak.
  destruct (Uint32 (seqNo nakPack)) as [missingNo|]; [|done].
  rewrite bind_orPanic_Some. cbn [mbind option_bind].
  destruct (at_ rps (missingNo - 1)) as [missingPacket|]; [|done].
  rewrite bind_orPanic_Some. done.
Qed.

Lemma sendUnreceived_spec rps l :
  sendUnreceivedResponsePackets l rps
  = (WriteToUDP <$> somePrefix (lookupNak rps) l,
     if forallb (λ nak, bool_decide (is_Some (lookupNak rps nak))) l
     then Some tt else None).
Proof.
  unfold sendUnreceivedResponsePackets.
  induction l as [|nak l IH]; [done|].
  cbn [forRange somePrefix forallb]. rewrite nakBody_spec.
  destruct (lookupNak rps nak) as [b|] eqn:E.
  - rewrite bind_done. rewrite IH.
    rewrite bool_decide_eq_true_2 by eauto. done.
  - rewrite bool_decide_eq_false_2 by (by intros [? ?]). done.
Qed.

Section Session.

Variable handleUdpConnection : list byte → option (list byte).
Variables (o0 o1 o2 o3 : byte) (port : Z) (packet : UDPPacket).

Let addr := dotted (byteZ o0) (byteZ o1) (byteZ o2) (byteZ o3).
Let addr4 := [o0; o1; o2; o3].

Hypothesis Hport : Uint16 (peerPort packet) = Some port.

Lemma run_MakePacket {B} t seq pl (f : UDPPacket → Loop B) s :
  hostAddr s = addr →
  (io (orPanic (MakePacket t seq (hostAddr s) port pl)) ≫= f) s
  = f {| pType := [toByte t]; seqNo := PutUint32 seq; peerAddr := addr4;
         peerPort := PutUint16 port; payload := pl |} s.
Proof.
  intros ->. unfold addr. rewrite MakePacket_dotted. apply run_io_Some.
Qed.

Lemma storePayload_spec r s :
  storePayload r packet s =
    match setAt (httpPayload s) r (payload packet) with
    | Some hp => ([], Next tt (set_httpPayload hp s))
    | None => ([], Panic)
    end.
Proof.
  unfold storePayload. run.
  destruct (setAt (httpPayload s) r (payload packet)); [|done].
  run. done.
Qed.

Lemma nakLoop_spec ks : ∀ s,
  hostAddr s = addr →
  nakLoop ks packet s
  = (nakEvents addr4 port ks, Next tt (set_naks (naks s ++ ks) s)).
Proof.
  induction ks as [|k ks IH]; intros s Hs.
  - unfold nakEvents. simpl. rewrite app_nil_r. by destruct s.
  - cbn [nakLoop]. run. rewrite Hport. run.
    rewrite run_MakePacket by done. run.
    rewrite IH by done. cbn [fst snd set_naks naks].
    unfold nakEvents. cbn [mbind list_bind app].
    rewrite <- app_assoc. destruct s; reflexivity.
Qed.

Lemma acceptData_spec r s :
  hostAddr s = addr →
  acceptData packet r s =
    let ackW := WriteToUDP (frame 1 r addr4 port []) in
    let ackL := LogInfo (lit "ACK'd packet " ++ Itoa r) in
    let ks := seqZ (expectedSeqNo s) (r - expectedSeqNo s) in
    match setAt (httpPayload s) r (payload packet) with
    | None => (if r =? expectedSeqNo s then [ackW] else [ackW; ackL], Panic)
    | Some hp =>
        if r =? expectedSeqNo s then
          ([ackW; ackL],
           Next tt (set_expectedSeqNo (wrap32 (expectedSeqNo s + 1))
                      (set_httpPayload hp s)))
        else if r <? expectedSeqNo s then
          ([ackW; ackL], Next tt (set_httpPayload hp s))
        else
          ([ackW; ackL] ++ nakEvents addr4 port ks,
           Next tt (set_expectedSeqNo (wrap32 (r + 1))
                      (set_naks (naks s ++ ks) (set_httpPayload hp s))))
    end.
Proof.
  intros Hs. unfold acceptData. rewrite run_get.
  destruct (r =? expectedSeqNo s) eqn:E1; [|destruct (r <? expectedSeqNo s) eqn:E2].
  - rewrite Hport. run. rewrite run_MakePacket by done. run.
    rewrite run_bind, storePayload_spec.
    destruct (setAt (httpPayload s) r (payload packet)); [|done].
    cbn [fst snd app]. run. done.
  - rewrite Hport. run. rewrite run_MakePacket by done. run.
    rewrite storePayload_spec.
    destruct (setAt (httpPayload s) r (payload packet)); done.
  - rewrite Hport. run. rewrite run_MakePacket by done. run.
    rewrite run_bind, storePayload_spec.
    destruct (setAt (httpPayload s) r (payload packet)) as [hp|]; [|done].
    cbn [fst snd app].
    rewrite run_bind, nakLoop_spec by done.
    cbn [fst snd]. unfold modify. cbn [fst snd]. rewrite app_nil_r. done.
Qed.

Lemma respond_spec s :
  respond handleUdpConnection s =
    match writeResponseToClient handleUdpConnection (httpPayload s)
            (totalNumPackets s) (hostAddr s) (hostPort s) with
    | (t, Some (rp, _)) => (t, Next tt (set_responsePackets rp s))
    | (t, None) => (t, Panic)
    end.
Proof.
  unfold respond. rewrite run_get.
  unfold mbind, Loop_mbind, Loop_bind, io.
  destruct (writeResponseToClient _ _ _ _ _) as [t [[rp n]|]]; [|done].
  unfold modify. by rewrite app_nil_r.
Qed.

Lemma checkDone_spec s :
  length (httpPayload s) = 1024%nat →
  checkDone handleUdpConnection s =
    match requestComplete s with
    | Some true => respond handleUdpConnection s
    | Some false => ([], Next tt s)
    | None => ([], Panic)
    end.
Proof.
  intros Hlen. unfold checkDone, requestComplete. rewrite run_get.
  destruct (lookup_lt_is_Some_2 (httpPayload s) 4) as [first Hfirst]; [lia|].
  rewrite Hfirst. cbn [default from_option id].
  destruct (totalNumPackets s =? 1) eqn:E1.
  - rewrite Loop_bind_assoc. cbn beta.
    rewrite at_Some by lia. change (Z.to_nat 4) with 4%nat.
    rewrite Hfirst. run. cbn [andb].
    destruct (0 <? length first)%nat; [done|].
    destruct (sub (httpPayload s) 4 (4 + totalNumPackets s)) as [w|]; [|done].
    run. cbn [mbind option_bind]. destruct (checkNotEmpty w); done.
  - rewrite run_mret. cbn [andb].
    destruct (sub (httpPayload s) 4 (4 + totalNumPackets s)) as [w|]; [|done].
    run. cbn [mbind option_bind]. destruct (checkNotEmpty w); done.
Qed.

(** *** One pass through the loop body, by packet type *)

Variables (a0 a1 a2 a3 ty : byte) (r : Z).

Hypothesis Haddr : peerAddr packet = [a0; a1; a2; a3].
Hypothesis Hty : pType packet !! 0%nat = Some ty.
Hypothesis Hseq : Uint32 (seqNo packet) = Some r.

Lemma getAddressFromBytes_packet :
  getAddressFromBytes packet
  = Some (dotted (byteZ a0) (byteZ a1) (byteZ a2) (byteZ a3)).
Proof. unfold getAddressFromBytes. rewrite Haddr. reflexivity. Qed.

Lemma handleHandshakePacket_spec :
  handleHandshakePacket packet =
    if byteZ ty =? 2 then
      ((if (Atoi (payload packet)).2
        then [LogInfo (lit "Corrupt SYN packet!")] else [])
       ++ [WriteToUDP (frame 3 (wrap32 (r + 1)) [a0; a1; a2; a3] port []);
           LogInfo (lit "SYN'd packet " ++ Itoa r)],
       Some (Some (Atoi (payload packet)).1))
    else if byteZ ty =? 1 then
      ([LogInfo (lit "Received ACK for packet " ++ Itoa r)], Some None)
    else ([], Some None).
Proof.
  unfold handleHandshakePacket.
  rewrite getAddressFromBytes_packet, bind_orPanic_Some, Hty, bind_orPanic_Some.
  destruct (byteZ ty =? 2); [|destruct (byteZ ty =? 1)].
  - rewrite Hseq, bind_orPanic_Some.
    destruct (Atoi (payload packet)) as [n err]. cbn [fst snd].
    assert (Hrest :
      (orPanic (Uint16 (peerPort packet)) ≫= λ port0,
         orPanic (MakePacket 3 (wrap32 (r + 1))
                    (dotted (byteZ a0) (byteZ a1) (byteZ a2) (byteZ a3)) port0 [])
         ≫= λ synAck,
           emit (WriteToUDP (getBytesFromPacket synAck));;
           emit (LogInfo (lit "SYN'd packet " ++ Itoa r));;
           mret (Some n))
      = ([WriteToUDP (frame 3 (wrap32 (r + 1)) [a0; a1; a2; a3] port []);
          LogInfo (lit "SYN'd packet " ++ Itoa r)], Some (Some n))).
    { rewrite Hport, bind_orPanic_Some, MakePacket_dotted, bind_orPanic_Some.
      rewrite !bind_emit. reflexivity. }
    destruct err.
    + rewrite bind_emit. cbn beta. rewrite Hrest. reflexivity.
    + rewrite bind_mret. rewrite Hrest. reflexivity.
  - rewrite Hseq, bind_orPanic_Some, bind_emit. reflexivity.
  - reflexivity.
Qed.

Lemma loopBody_head s :
  loopBody handleUdpConnection packet s =
    ((if byteZ ty =? 4 then
        modify (λ s, set_responseNaksList (responseNaksList s ++ [packet]) s);;
        s ← get;
        io (sendUnreceivedResponsePackets (responseNaksList s) (responsePackets s))
      else if byteZ ty =? 1 then
        if r =? 3 then continue
        else
          s ← get;
          responseNaksList' ← io (orPanic (remove (responseNaksList s) packet));
          modify (set_responseNaksList responseNaksList');;
          s ← get;
          io (sendUnreceivedResponsePackets (responseNaksList s) (responsePackets s))
      else mret tt);;
     (if byteZ ty =? 0 then onData handleUdpConnection packet r else mret tt);;
     handshakePayload ← io (handleHandshakePacket packet);
     match handshakePayload with
     | Some n => if 0 <? n then modify (set_totalNumPackets n) else mret tt
     | None => mret tt
     end) s.
Proof. unfold loopBody. rewrite Hseq, run_io_Some, Hty, run_io_Some. done. Qed.

(** A DATA packet. *)
Lemma sessionStep_data s :
  byteZ ty = 0 →
  sessionStep handleUdpConnection packet s =
    if inAcks r (acks s) then ([], Some s)
    else outcome ((acceptData packet r ≫= λ _, checkDone handleUdpConnection)
                    (set_acks (acks s ++ [r]) s)).
Proof.
  intros H0. unfold sessionStep. rewrite loopBody_head, H0.
  change (0 =? 4) with false. change (0 =? 1) with false.
  change (0 =? 0) with true. cbv iota. rewrite run_mret.
  rewrite handleHandshakePacket_spec, H0.
  change (0 =? 2) with false. change (0 =? 1) with false. cbv iota.
  unfold onData. rewrite Loop_bind_assoc, run_get. cbn beta.
  destruct (inAcks r (acks s)); [done|].
  rewrite !Loop_bind_assoc, run_modify. cbn beta.
  rewrite run_bind.
  destruct ((acceptData packet r ≫= λ _, checkDone handleUdpConnection)
              (set_acks (acks s ++ [r]) s)) as [t1 [[] s1|s1|]]; cbn [fst snd outcome].
  - change (io ([], Some None)) with (io (orPanic (Some (@None Z)))).
    rewrite run_io_Some. unfold mret, Loop_mret, Loop_ret.
    cbn [fst snd]. by rewrite app_nil_r.
  - done.
  - done.
Qed.

(** An accepted DATA packet, in full. *)
Lemma sessionStep_data_closed s :
  byteZ ty = 0 → hostAddr s = addr → length (httpPayload s) = 1024%nat →
  sessionStep handleUdpConnection packet s =
    if inAcks r (acks s) then ([], Some s)
    else
      match setAt (httpPayload s) r (payload packet) with
      | None =>
          (if r =? expectedSeqNo s
           then [WriteToUDP (frame 1 r addr4 port [])]
           else [WriteToUDP (frame 1 r addr4 port []);
                 LogInfo (lit "ACK'd packet " ++ Itoa r)],
           None)
      | Some hp =>
          let s2 := accepted s r hp in
          match requestComplete s2 with
          | None => (dataEvents addr4 port s r, None)
          | Some false => (dataEvents addr4 port s r, Some s2)
          | Some true =>
              match writeResponseToClient handleUdpConnection
                      (httpPayload s2) (totalNumPackets s2)
                      (hostAddr s2) (hostPort s2) with
              | (t, Some (rp, _)) =>
                  (dataEvents addr4 port s r ++ t,
                   Some (set_responsePackets rp s2))
              | (t, None) => (dataEvents addr4 port s r ++ t, None)
              end
          end
      end.
Proof.
  intros H0 Hs Hlen. rewrite sessionStep_data by done.
  destruct (inAcks r (acks s)); [done|].
  rewrite run_bind, acceptData_spec by done. cbv zeta.
  cbn [httpPayload expectedSeqNo naks set_acks].
  destruct (setAt (httpPayload s) r (payload packet)) as [hp|] eqn:Hset.
  2:{ destruct (r =? expectedSeqNo s); done. }
  assert (Hlen2 : length hp = 1024%nat).
  { unfold setAt in Hset. case_decide; [|done].
    injection Hset as <-. by rewrite length_insert. }
  unfold accepted, dataEvents.
  destruct (r =? expectedSeqNo s) eqn:E1;
    [|destruct (r <? expectedSeqNo s) eqn:E2];
    cbn [fst snd orb]; rewrite checkDone_spec by (by destruct s);
    (match goal with |- context [requestComplete ?x] =>
       destruct (requestComplete x) as [[]|] end);
    rewrite ?respond_spec; cbn [fst snd outcome]; rewrite ?app_nil_r;
    try done;
    (match goal with |- context [writeResponseToClient ?a ?b ?c ?d ?e] =>
       destruct (writeResponseToClient a b c d e) as [t' [[rp n']|]] end);
    done.
Qed.

(** A NAK from the peer. *)
Lemma sessionStep_nak s :
  byteZ ty = 4 →
  sessionStep handleUdpConnection packet s =
    match sendUnreceivedResponsePackets (responseNaksList s ++ [packet])
            (responsePackets s) with
    | (t, Some _) =>
        (t, Some (set_responseNaksList (responseNaksList s ++ [packet]) s))
    | (t, None) => (t, None)
    end.
Proof.
  intros H4. unfold sessionStep. rewrite loopBody_head, H4.
  change (4 =? 4) with true. change (4 =? 0) with false. cbv iota.
  rewrite handleHandshakePacket_spec, H4.
  change (4 =? 2) with false. change (4 =? 1) with false. cbv iota.
  run. cbn [responseNaksList responsePackets set_responseNaksList].
  rewrite run_bind. unfold io at 1 2.
  destruct (sendUnreceivedResponsePackets _ _) as [t [[]|]]; cbn [fst snd]; [|done].
  rewrite run_mret.
  change (io ([], Some None)) with (io (orPanic (Some (@None Z)))).
  rewrite run_io_Some. unfold mret, Loop_mret, Loop_ret.
  cbn [fst snd]. by rewrite app_nil_r.
Qed.

(** An ACK from the peer. *)
Lemma sessionStep_ack s :
  byteZ ty = 1 →
  sessionStep handleUdpConnection packet s =
    if r =? 3 then ([], Some s)
    else
      match remove (responseNaksList s) packet with
      | None => ([], None)
      | Some l' =>
          match sendUnreceivedResponsePackets l' (responsePackets s) with
          | (t, Some _) =>
              (t ++ [LogInfo (lit "Received ACK for packet " ++ Itoa r)],
               Some (set_responseNaksList l' s))
          | (t, None) => (t, None)
          end
      end.
Proof.
  intros H1. unfold sessionStep. rewrite loopBody_head, H1.
  change (1 =? 4) with false. change (1 =? 1) with true.
  change (1 =? 0) with false. cbv iota.
  rewrite handleHandshakePacket_spec, H1.
  change (1 =? 2) with false. change (1 =? 1) with true. cbv iota.
  destruct (r =? 3); [done|].
  run.
  destruct (remove (responseNaksList s) packet) as [l'|]; [|done].
  run. cbn [responseNaksList responsePackets set_responseNaksList].
  rewrite run_bind. unfold io at 1 2.
  destruct (sendUnreceivedResponsePackets _ _) as [t [[]|]]; cbn [fst snd]; [|done].
  rewrite run_mret.
  change (io ([LogInfo (lit "Received ACK for packet " ++ Itoa r)], Some None))
    with (io (emit (LogInfo (lit "Received ACK for packet " ++ Itoa r))
              ≫= λ _, orPanic (Some (@None Z)))).
  rewrite run_bind. reflexivity.
Qed.

(** A SYN. *)
Lemma sessionStep_syn s :
  byteZ ty = 2 →
  sessionStep handleUdpConnection packet s =
    ((if (Atoi (payload packet)).2
      then [LogInfo (lit "Corrupt SYN packet!")] else [])
     ++ [WriteToUDP (frame 3 (wrap32 (r + 1)) [a0; a1; a2; a3] port []);
         LogInfo (lit "SYN'd packet " ++ Itoa r)],
     Some (if 0 <? (Atoi (payload packet)).1
           then set_totalNumPackets (Atoi (payload packet)).1 s else s)).
Proof.
  intros H2. unfold sessionStep. rewrite loopBody_head, H2.
  change (2 =? 4) with false. change (2 =? 1) with false.
  change (2 =? 0) with false. cbv iota.
  rewrite handleHandshakePacket_spec, H2.
  change (2 =? 2) with true. cbv iota.
  rewrite !run_mret. rewrite run_bind. unfold io at 1 2. cbn [fst snd].
  destruct (0 <? (Atoi (payload packet)).1); cbn; by rewrite app_nil_r.
Qed.

(** A packet of no known type. *)
Lemma sessionStep_other s :
  byteZ ty ≠ 0 → byteZ ty ≠ 1 → byteZ ty ≠ 2 → byteZ ty ≠ 4 →
  sessionStep handleUdpConnection packet s = ([], Some s).
Proof.
  intros H0 H1 H2 H4. unfold sessionStep. rewrite loopBody_head.
  rewrite handleHandshakePacket_spec.
  apply Z.eqb_neq in H0, H1, H2, H4. rewrite H0, H1, H2, H4.
  rewrite !run_mret.
  change (io ([], Some None)) with (io (orPanic (Some (@None Z)))).
  rewrite run_io_Some. reflexivity.
Qed.

End Session.

(** ** Headers of the datagrams a session writes *)

Lemma wfPacket_inv packet :
  wfPacket packet →
  ∃ ty r a0 a1 a2 a3 port,
    pType packet !! 0%nat = Some ty ∧ Uint32 (seqNo packet) = Some r
    ∧ peerAddr packet = [a0; a1; a2; a3]
    ∧ Uint16 (peerPort packet) = Some port
    ∧ 0 ≤ r < 2 ^ 32.
Proof.
  destruct packet as [t s a p pl]. intros (Ht & Hs & Ha & Hp). simpl in *.
  destruct t as [|t0 [|]]; try discriminate.
  destruct s as [|s0 [|s1 [|s2 [|s3 [|]]]]]; try discriminate.
  destruct a as [|a0 [|a1 [|a2 [|a3 [|]]]]]; try discriminate.
  destruct p as [|p0 [|p1 [|]]]; try discriminate.
  eexists t0, _, a0, a1, a2, a3, _. repeat split; try reflexivity.
  - apply (Uint32_range [s0; s1; s2; s3]). reflexivity.
  - apply (Uint32_range [s0; s1; s2; s3]). reflexivity.
Qed.

Lemma headerOf_frame t seq addr4 port pl :
  length addr4 = 4%nat → 0 ≤ t < 256 → 0 ≤ seq < 2 ^ 32 →
  headerOf (frame t seq addr4 port pl) = Some (t, seq).
Proof.
  intros Ha Ht Hseq.
  destruct addr4 as [|a0 [|a1 [|a2 [|a3 [|]]]]]; try discriminate.
  unfold headerOf. rewrite parsePacket_decoded.
  replace (isLong (frame t seq [a0; a1; a2; a3] port pl)) with true
    by (symmetry; apply isLong_true; rewrite length_frame; simpl; lia).
  cbn [mbind option_bind].
  change (pType (decoded (frame t seq [a0; a1; a2; a3] port pl)))
    with [toByte t].
  change (seqNo (decoded (frame t seq [a0; a1; a2; a3] port pl)))
    with (PutUint32 seq).
  rewrite Uint32_PutUint32 by done. cbn [lookup list_lookup mbind option_bind].
  rewrite byteZ_toByte, Z.mod_small by lia. done.
Qed.

(** A trailing byte after the payload does not affect the header. *)
Lemma headerOf_frame_app t seq addr4 port pl extra :
  length addr4 = 4%nat → 0 ≤ t < 256 → 0 ≤ seq < 2 ^ 32 →
  headerOf (frame t seq addr4 port pl ++ extra) = Some (t, seq).
Proof.
  intros. replace (frame t seq addr4 port pl ++ extra)
    with (frame t seq addr4 port (pl ++ extra)).
  - by apply headerOf_frame.
  - unfold frame. by rewrite <- !app_assoc.
Qed.

Lemma iter_wrap32 j seq :
  0 ≤ seq → seq + Z.of_nat j < 2 ^ 32 →
  Nat.iter j (λ x, wrap32 (x + 1)) seq = seq + Z.of_nat j.
Proof.
  intros Hseq. induction j as [|j IH]; intros Hj.
  - simpl. lia.
  - rewrite Nat.iter_succ, IH by lia. unfold wrap32.
    rewrite Z.mod_small by lia. lia.
Qed.

Lemma chunkFrames_lookup N addr4 port pl n : ∀ seq c j b,
  chunkFrames N addr4 port pl n seq c !! j = Some b →
  ∃ chunk, b = frame 0 (Nat.iter j (λ x, wrap32 (x + 1)) seq) addr4 port chunk
               ++ [toByte N].
Proof.
  induction n as [|n IH]; intros seq c j b H; [done|].
  destruct j as [|j].
  - injection H as <-. eauto.
  - cbn [chunkFrames lookup list_lookup] in H. apply IH in H as [chunk ->].
    exists chunk. by rewrite Nat.iter_succ_r.
Qed.

Section ResponseHeaders.

Variables (o0 o1 o2 o3 : byte) (port : Z).

(** The datagrams of a response are numbered 1, 2, ... in the order in
    which they are stored and written. *)
Lemma response_headers resp bs n :
  getResponsePacketBytes 1 (dotted (byteZ o0) (byteZ o1) (byteZ o2) (byteZ o3))
    port resp = Some (bs, n) →
  forallb isLong bs = true →
  n = Z.of_nat (length bs) ∧
  ∀ j b, bs !! j = Some b → Z.of_nat j + 1 < 2 ^ 32 →
         headerOf b = Some (0, Z.of_nat j + 1).
Proof.
  intros Hbs Hlong.
  destruct (decide (ceilDiv (Z.of_nat (length resp)) 1012 = 1)) as [H1|H1].
  - assert (0 < length resp ≤ 1012)%nat as Hlen.
    { unfold ceilDiv in H1. revert H1. Z.div_mod_to_equations. lia. }
    rewrite getResponsePacketBytes_one in Hbs by done.
    assert (bs = [frame 0 1 [o0; o1; o2; o3] port resp ++ [toByte 1]]
            ∧ n = 1) as [-> ->] by (split; congruence).
    split; [done|].
    intros [|[|j]] b Hb Hj; try done.
    assert (b = frame 0 1 [o0; o1; o2; o3] port resp ++ [toByte 1]) as ->
      by (cbn [lookup list_lookup] in Hb; congruence).
    apply headerOf_frame_app; [done|lia|lia].
  - pose proof (getResponsePacketBytes_multi o0 o1 o2 o3 port 1 resp) as H.
    cbv zeta in H. rewrite (H H1) in Hbs. clear H.
    apply (inj Some) in Hbs. apply pair_equal_spec in Hbs as [Hbs Hn].
    subst bs n.
    rewrite forallb_app in Hlong. apply andb_prop in Hlong as [_ Hlast].
    assert (HL : 0 ≤ Z.of_nat (length resp)) by lia.
    pose proof (ceilDiv_upper _ HL) as Hup.
    pose proof (ceilDiv_bounds _ HL) as Hcases.
    set (N := ceilDiv (Z.of_nat (length resp)) 1012) in *.
    set (m := Z.to_nat (N - 1)) in *.
    destruct Hcases as [[HLpos Hlow]|[HL0 HN0]].
    + (* N ≥ 2 *)
      assert (HN2 : 2 ≤ N) by lia.
      destruct (0 <? Z.of_nat (length resp) `mod` 1012) eqn:Hres.
      * split.
        { rewrite length_app, length_chunkFrames. simpl. slia. }
        intros j b Hb Hj.
        apply lookup_app_Some in Hb as [Hb|[Hge Hb]].
        -- apply chunkFrames_lookup in Hb as [chunk ->].
           rewrite iter_wrap32 by lia.
           replace (1 + Z.of_nat j) with (Z.of_nat j + 1) by lia.
           apply headerOf_frame_app; [done|lia|lia].
        -- rewrite length_chunkFrames in Hge, Hb.
           destruct (j - m)%nat as [|?] eqn:Ej; [|done].
           cbn [lookup list_lookup] in Hb.
           apply (inj Some) in Hb. subst b. assert (j = m) as -> by lia.
           rewrite iter_wrap32 by lia.
           replace (1 + Z.of_nat m) with (Z.of_nat m + 1) by lia.
           apply headerOf_frame_app; [done|lia|lia].
      * replace (Z.to_nat N - m)%nat with 1%nat in Hlast by slia.
        done.
    + (* N = 0: no datagram at all *)
      assert (resp = []) as -> by (destruct resp; [done|simpl in *; lia]).
      subst m. rewrite HN0. simpl. split; [done|]. intros j b Hb. done.
Qed.

End ResponseHeaders.

Section EmitterInversion.

Variable handleUdpConnection : list byte → option (list byte).

Lemma writeResponseToClient_inv httpPayload' total hostAddr' hostPort' t rps n :
  writeResponseToClient handleUdpConnection httpPayload' total hostAddr' hostPort'
  = (t, Some (rps, n)) →
  ∃ req resp bs,
    stringifyRequestPayload httpPayload' total = Some req
    ∧ handleUdpConnection req = Some resp
    ∧ getResponsePacketBytes 1 hostAddr' (wrap16 hostPort') resp = Some (bs, n)
    ∧ forallb isLong bs = true
    ∧ t = HandleUdp req :: (WriteToUDP <$> bs)
    ∧ rps = decoded <$> bs.
Proof.
  intros H.
  destruct (stringifyRequestPayload httpPayload' total) as [req|] eqn:Hreq;
    [|unfold writeResponseToClient, getResponsePayload in H;
      rewrite Hreq in H; discriminate].
  destruct (handleUdpConnection req) as [resp|] eqn:Hresp;
    [|rewrite (writeResponseToClient_no_response _ _ _ _ _ _ Hreq Hresp) in H;
      discriminate].
  destruct (getResponsePacketBytes 1 hostAddr' (wrap16 hostPort') resp)
    as [[bs n']|] eqn:Hbs.
  - rewrite (writeResponseToClient_spec _ _ _ _ _ _ _ _ _ Hreq Hresp Hbs) in H.
    destruct (forallb isLong bs) eqn:Hlong; [|discriminate].
    injection H as <- <- <-.
    exists req, resp, bs. rewrite longPrefix_all by done. done.
  - unfold writeResponseToClient, getResponsePayload in H.
    rewrite !IO_bind_assoc in H.
    rewrite Hreq, bind_orPanic_Some, !IO_bind_assoc, bind_emit in H.
    cbn beta in H. rewrite Hresp, !bind_orPanic_Some, Hbs in H.
    discriminate.
Qed.

End EmitterInversion.

(** ** Invariants of a session *)

Lemma decodeStep_inv datagram packet a p key :
  decodeStep datagram = Some (packet, a, p, key) →
  wfPacket packet ∧
  ∃ a0 a1 a2 a3, a = dotted (byteZ a0) (byteZ a1) (byteZ a2) (byteZ a3).
Proof.
  unfold decodeStep. intros H.
  destruct (parsePacket (readFromUDP datagram)) as [packet'|] eqn:E; [|done].
  pose proof (parsePacket_wf _ _ E) as Hwf.
  destruct (wfPacket_inv _ Hwf) as (ty & r & a0 & a1 & a2 & a3 & port & _ & _ & Ha & Hp & _).
  cbn [mbind option_bind] in H.
  rewrite (getAddressFromBytes_packet _ _ _ _ _ Ha) in H.
  unfold getPortFromBytes in H. rewrite Hp in H. cbn [mbind option_bind] in H.
  injection H as <- <- <- <-. eauto 10.
Qed.

Lemma inAcks_true r l : inAcks r l = true ↔ r ∈ l.
Proof.
  induction l as [|a l IH]; simpl.
  - split; [done|]. by intros ?%elem_of_nil.
  - destruct (Z.eqb_spec a r) as [->|Hne].
    + split; [intros _; apply list_elem_of_here|done].
    + rewrite IH. split; [apply list_elem_of_further|].
      intros [?|?]%elem_of_cons; [congruence|done].
Qed.

Lemma setAt_inv {A} (l : list A) i x l' :
  setAt l i x = Some l' →
  0 ≤ i < Z.of_nat (length l) ∧ l' = <[Z.to_nat i := x]> l.
Proof. unfold setAt. case_decide; [|done]. by intros [= <-]. Qed.

Lemma newSession_inv a0 a1 a2 a3 p :
  sessionInv (newSession (dotted (byteZ a0) (byteZ a1) (byteZ a2) (byteZ a3)) p).
Proof.
  split; [split|split].
  - cbn [newSession httpPayload]. by rewrite length_replicate.
  - cbn [newSession hostAddr]. eauto.
  - cbn [newSession expectedSeqNo]. lia.
  - cbn [newSession expectedSeqNo acks].
    repeat constructor; lia.
Qed.

Lemma accepted_inv s r hp :
  sessionInv s → inAcks r (acks s) = false →
  0 ≤ r < 1024 → length hp = 1024%nat →
  sessionInv (accepted s r hp)
  ∧ expectedSeqNo s ≤ expectedSeqNo (accepted s r hp).
Proof.
  intros ((Hlen & Haddr) & He & Hacks) Hnew Hr Hhp. unfold accepted, sessionInv, wfSession.
  destruct (Z.eqb_spec r (expectedSeqNo s)) as [->|Hne];
    [|destruct (Z.ltb_spec r (expectedSeqNo s))];
    cbn [httpPayload hostAddr expectedSeqNo acks set_expectedSeqNo
         set_httpPayload set_acks set_naks]; unfold wrap32;
    rewrite ?Z.mod_small by lia;
    (repeat split; [done|done|lia|lia| |lia]);
    (apply Forall_app; split;
     [eapply Forall_impl; [|exact Hacks]; cbn beta; intros; lia
     |apply Forall_singleton; lia]).
Qed.

Section Invariant.

Variable handleUdpConnection : list byte → option (list byte).

Lemma sessionInv_frame s s' :
  sessionInv s →
  httpPayload s' = httpPayload s → hostAddr s' = hostAddr s →
  expectedSeqNo s' = expectedSeqNo s → acks s' = acks s →
  sessionInv s'.
Proof.
  unfold sessionInv, wfSession. intros H -> -> -> ->. exact H.
Qed.

Lemma step_inv s packet t s' :
  sessionInv s → wfPacket packet →
  sessionStep handleUdpConnection packet s = (t, Some s') →
  sessionInv s' ∧ expectedSeqNo s ≤ expectedSeqNo s'.
Proof.
  intros Hinv Hwf Hstep.
  destruct (wfPacket_inv _ Hwf)
    as (ty & r & a0 & a1 & a2 & a3 & port & Hty & Hseq & Ha & Hp & Hr).
  pose proof Hinv as ((Hlen & (o0 & o1 & o2 & o3 & Haddr)) & He & Hacks).
  destruct (decide (byteZ ty = 0)) as [H0|H0];
    [|destruct (decide (byteZ ty = 1)) as [H1|H1];
      [|destruct (decide (byteZ ty = 2)) as [H2|H2];
        [|destruct (decide (byteZ ty = 4)) as [H4|H4]]]].
  - rewrite (sessionStep_data_closed _ o0 o1 o2 o3 port packet Hp
               a0 a1 a2 a3 ty r Ha Hty Hseq s H0 Haddr Hlen) in Hstep.
    destruct (inAcks r (acks s)) eqn:Hin.
    { injection Hstep as <- <-. split; [done|lia]. }
    destruct (setAt (httpPayload s) r (payload packet)) as [hp|] eqn:Hset;
      [|done].
    apply setAt_inv in Hset as [Hrange ->]. rewrite Hlen in Hrange.
    destruct (accepted_inv s r (<[Z.to_nat r:=payload packet]> (httpPayload s))
                Hinv Hin) as [Hinv2 Hmono];
      [lia|by rewrite length_insert|].
    cbv zeta in Hstep.
    destruct (requestComplete _) as [[]|]; [| |done].
    + destruct (writeResponseToClient _ _ _ _ _) as [t' [[rp n']|]]; [|done].
      injection Hstep as <- <-. split; [|done].
      by eapply sessionInv_frame.
    + injection Hstep as <- <-. done.
  - rewrite (sessionStep_ack _ port packet Hp a0 a1 a2 a3 ty r Ha Hty Hseq s H1)
      in Hstep.
    destruct (r =? 3); [injection Hstep as <- <-; split; [done|lia]|].
    destruct (remove (responseNaksList s) packet) as [l'|]; [|done].
    destruct (sendUnreceivedResponsePackets _ _) as [t' [[]|]]; [|done].
    injection Hstep as <- <-. split; [|done]. by eapply sessionInv_frame.
  - rewrite (sessionStep_syn _ port packet Hp a0 a1 a2 a3 ty r Ha Hty Hseq s H2)
      in Hstep.
    injection Hstep as <- <-.
    destruct (0 <? _); (split; [by eapply sessionInv_frame|done]).
  - rewrite (sessionStep_nak _ port packet Hp a0 a1 a2 a3 ty r Ha Hty Hseq s H4)
      in Hstep.
    destruct (sendUnreceivedResponsePackets _ _) as [t' [[]|]]; [|done].
    injection Hstep as <- <-. split; [|done]. by eapply sessionInv_frame.
  - rewrite (sessionStep_other _ port packet Hp a0 a1 a2 a3 ty r Ha Hty Hseq s
               H0 H1 H2 H4) in Hstep.
    injection Hstep as <- <-. split; [done|lia].
Qed.

Lemma reachable_inv s : reachable handleUdpConnection s → sessionInv s.
Proof.
  induction 1 as [d packet a p key Hd|s d packet a p key t s' _ IH Hd Hstep].
  - apply decodeStep_inv in Hd as [_ (a0 & a1 & a2 & a3 & ->)].
    apply newSession_inv.
  - apply decodeStep_inv in Hd as [Hwf _].
    by destruct (step_inv _ _ _ _ IH Hwf Hstep).
Qed.

(** C9. Within a session [expectedSeqNo] never decreases: it starts at 4,
    and every pass through the receive loop that the goroutine
    survives, whatever the packet, leaves it unchanged or increases
    it. *)
Theorem expectedSeqNo_monotone s datagram packet a p key t s' :
  reachable handleUdpConnection s →
  decodeStep datagram = Some (packet, a, p, key) →
  sessionStep handleUdpConnection packet s = (t, Some s') →
  4 ≤ expectedSeqNo s ≤ expectedSeqNo s'.
Proof.
  intros Hreach Hd Hstep.
  pose proof (reachable_inv _ Hreach) as Hinv.
  apply decodeStep_inv in Hd as [Hwf _].
  destruct (step_inv _ _ _ _ Hinv Hwf Hstep) as [_ Hmono].
  destruct Hinv as (_ & He & _). lia.
Qed.

End Invariant.

(** ** Retransmission on NAK *)

Lemma somePrefix_snoc {A B} (f : A → option B) l x :
  Forall (λ y, is_Some (f y)) l →
  somePrefix f (l ++ [x]) = somePrefix f l ++ somePrefix f [x]
  ∧ forallb (λ y, bool_decide (is_Some (f y))) (l ++ [x])
    = bool_decide (is_Some (f x)).
Proof.
  induction 1 as [|y l [b Hy] _ [IH1 IH2]]; cbn [app somePrefix forallb].
  - by rewrite andb_true_r.
  - rewrite Hy, IH1, IH2. rewrite bool_decide_eq_true_2 by eauto. done.
Qed.

Lemma forallb_snoc_false {A} (f : A → bool) l x :
  f x = false → forallb f (l ++ [x]) = false.
Proof.
  intros H. rewrite forallb_app. cbn [forallb]. rewrite H.
  by rewrite andb_false_r.
Qed.

Section Retransmission.

Variable handleUdpConnection : list byte → option (list byte).

(** C10. [sendUnreceivedResponsePackets] indexes [responsePackets] at
    [seqNo − 1] unchecked: a NAK whose sequence number is 0 or exceeds
    the number of stored response packets makes the lookup fail and the
    goroutine panic; before any response has been emitted this holds
    for every NAK. *)
Theorem nak_out_of_range_panics s packet k :
  wfPacket packet →
  byteZ <$> pType packet !! 0%nat = Some 4 →
  Uint32 (seqNo packet) = Some k →
  k = 0 ∨ Z.of_nat (length (responsePackets s)) < k ∨ responsePackets s = [] →
  at_ (responsePackets s) (k - 1) = None
  ∧ (sessionStep handleUdpConnection packet s).2 = None.
Proof.
  intros Hwf Hty4 Hk Hrange.
  destruct (wfPacket_inv _ Hwf)
    as (ty & r & a0 & a1 & a2 & a3 & port & Hty & Hseq & Ha & Hp & Hr).
  assert (r = k) as -> by congruence.
  assert (byteZ ty = 4) as H4 by (rewrite Hty in Hty4; by injection Hty4).
  assert (Hat : at_ (responsePackets s) (k - 1) = None).
  { apply at_None. destruct Hrange as [->|[?|Hnil]]; [lia|lia|].
    rewrite Hnil. simpl. lia. }
  split; [done|].
  rewrite (sessionStep_nak _ port packet Hp a0 a1 a2 a3 ty k Ha Hty Hseq s H4).
  rewrite sendUnreceived_spec.
  rewrite forallb_snoc_false; [done|].
  apply bool_decide_eq_false_2. unfold lookupNak.
  rewrite Hseq. cbn [mbind option_bind]. rewrite Hat. by intros [? ?].
Qed.

(** C6. After an emitter run has written the datagrams [sent t0] and
    stored their packets, and while every NAK still pending names one of
    them, a NAK with sequence number [k] between 1 and their number is
    appended to the pending list and answered with the very bytes of
    the [k]-th datagram written, whose header carries DATA and sequence
    number [k]. *)
Theorem nak_retransmits_original s packet k hp total t0 n :
  wfSession s → wfPacket packet →
  byteZ <$> pType packet !! 0%nat = Some 4 →
  Uint32 (seqNo packet) = Some k →
  writeResponseToClient handleUdpConnection hp total (hostAddr s) (hostPort s)
  = (t0, Some (responsePackets s, n)) →
  Forall (λ nak, is_Some (lookupNak (responsePackets s) nak))
    (responseNaksList s) →
  1 ≤ k ≤ n →
  ∃ b t,
    sent t0 !! Z.to_nat (k - 1) = Some b
    ∧ headerOf b = Some (0, k)
    ∧ sessionStep handleUdpConnection packet s
      = (t, Some (set_responseNaksList (responseNaksList s ++ [packet]) s))
    ∧ list.last (sent t) = Some b.
Proof.
  intros [_ (o0 & o1 & o2 & o3 & Haddr)] Hwf Hty4 Hk Hemit Hpend Hrange.
  destruct (wfPacket_inv _ Hwf)
    as (ty & r & a0 & a1 & a2 & a3 & port & Hty & Hseq & Ha & Hp & Hr).
  assert (r = k) as -> by congruence.
  assert (byteZ ty = 4) as H4 by (rewrite Hty in Hty4; by injection Hty4).
  apply writeResponseToClient_inv in Hemit
    as (req & resp & bs & Hreq & Hresp & Hbs & Hlong & -> & Hrps).
  rewrite Haddr in Hbs.
  destruct (response_headers _ _ _ _ _ _ _ _ Hbs Hlong) as [Hn Hhdr].
  destruct (lookup_lt_is_Some_2 bs (Z.to_nat (k - 1))) as [b Hb]; [lia|].
  assert (Hlb : isLong b = true).
  { rewrite forallb_forall in Hlong. apply Hlong.
    apply list_elem_of_In. by eapply list_elem_of_lookup_2. }
  assert (Hnak : lookupNak (responsePackets s) packet = Some b).
  { unfold lookupNak. rewrite Hseq. cbn [mbind option_bind].
    rewrite at_Some by lia. rewrite Hrps, list_lookup_fmap, Hb.
    cbn [fmap option_fmap option_map mbind option_bind].
    by rewrite getBytes_decoded. }
  destruct (somePrefix_snoc (lookupNak (responsePackets s))
              (responseNaksList s) packet Hpend) as [Hpre Hall].
  exists b, (WriteToUDP <$> somePrefix (lookupNak (responsePackets s))
                             (responseNaksList s ++ [packet])).
  split; [cbn [sent]; by rewrite sent_writes|].
  split.
  { replace k with (Z.of_nat (Z.to_nat (k - 1)) + 1) by lia.
    apply Hhdr; [done|lia]. }
  split.
  - rewrite (sessionStep_nak _ port packet Hp a0 a1 a2 a3 ty k Ha Hty Hseq s H4).
    rewrite sendUnreceived_spec, Hall.
    rewrite bool_decide_eq_true_2 by eauto. done.
  - rewrite sent_writes, Hpre. cbn [somePrefix]. rewrite Hnak.
    apply last_snoc.
Qed.

End Retransmission.

(** ** Accepting DATA *)

Lemma sent_nakEvents addr4 port ks :
  sent (nakEvents addr4 port ks) = (λ k, frame 4 k addr4 port []) <$> ks.
Proof.
  unfold nakEvents. induction ks as [|k ks IH]; [done|].
  cbn [mbind list_bind app sent fmap list_fmap]. by rewrite <- IH.
Qed.

Lemma handled_nakEvents addr4 port ks : handled (nakEvents addr4 port ks) = [].
Proof.
  unfold nakEvents. induction ks as [|k ks IH]; [done|].
  cbn [mbind list_bind app handled]. exact IH.
Qed.

Lemma seqZ_range m n k : k ∈ seqZ m n → m ≤ k < m + n.
Proof. intros H%elem_of_seqZ. lia. Qed.

Lemma nak_headers addr4 port ks :
  length addr4 = 4%nat → Forall (λ k, 0 ≤ k < 2 ^ 32) ks →
  headerOf <$> ((λ k, frame 4 k addr4 port []) <$> ks)
  = (λ k, Some (4, k)) <$> ks.
Proof.
  intros Ha. induction 1 as [|k ks Hk _ IH]; [done|].
  cbn [fmap list_fmap]. f_equal; [|exact IH].
  apply headerOf_frame; [done|lia|done].
Qed.

(** The type that a receiver reads from a frame is the one it was built
    with. *)
Lemma headerOf_frame_type t seq addr4 port pl ty q :
  0 ≤ t < 256 →
  headerOf (frame t seq addr4 port pl) = Some (ty, q) → ty = t.
Proof.
  intros Ht. unfold headerOf. rewrite parsePacket_decoded.
  destruct (isLong _); [|done]. cbn [mbind option_bind].
  change (pType (decoded (frame t seq addr4 port pl))) with [toByte t].
  cbn [lookup list_lookup mbind option_bind].
  destruct (Uint32 _); [|done]. cbn [mbind option_bind].
  intros [= <- _]. rewrite byteZ_toByte, Z.mod_small; lia.
Qed.

Lemma headerOf_nil : headerOf [] = None.
Proof. reflexivity. Qed.

Lemma notAck_data seq addr4 port pl extra :
  notAck (frame 0 seq addr4 port pl ++ extra).
Proof.
  intros q H.
  replace (frame 0 seq addr4 port pl ++ extra)
    with (frame 0 seq addr4 port (pl ++ extra)) in H
    by (unfold frame; by rewrite <- !app_assoc).
  apply headerOf_frame_type in H; lia.
Qed.

Lemma Forall_longPrefix (P : list byte → Prop) bs :
  Forall P bs → Forall P (longPrefix bs).
Proof.
  induction 1 as [|b bs Hb _ IH]; cbn [longPrefix]; [done|].
  destruct (isLong b); [by constructor|constructor].
Qed.

Lemma chunkFrames_notAck N addr4 port pl n : ∀ seq c,
  Forall notAck (chunkFrames N addr4 port pl n seq c).
Proof.
  induction n as [|n IH]; intros seq c; cbn [chunkFrames]; constructor.
  - apply notAck_data.
  - apply IH.
Qed.

Section ResponseShape.

Variables (o0 o1 o2 o3 : byte) (port : Z).

Lemma getResponsePacketBytes_total seq resp :
  ∃ bs n,
    getResponsePacketBytes seq
      (dotted (byteZ o0) (byteZ o1) (byteZ o2) (byteZ o3)) port resp
    = Some (bs, n) ∧ Forall notAck bs.
Proof.
  destruct (decide (ceilDiv (Z.of_nat (length resp)) 1012 = 1)) as [H1|H1].
  - assert (0 < length resp ≤ 1012)%nat as Hlen.
    { unfold ceilDiv in H1. revert H1. Z.div_mod_to_equations. lia. }
    rewrite getResponsePacketBytes_one by done.
    eexists _, _. split; [done|]. repeat constructor. apply notAck_data.
  - pose proof (getResponsePacketBytes_multi o0 o1 o2 o3 port seq resp) as H.
    cbv zeta in H. rewrite (H H1).
    eexists _, _. split; [done|].
    apply Forall_app. split; [apply chunkFrames_notAck|].
    destruct (0 <? _).
    + repeat constructor. apply notAck_data.
    + apply list.Forall_forall. intros b ->%elem_of_replicate_inv q.
      by rewrite headerOf_nil.
Qed.

End ResponseShape.

Section DataTheorems.

Variable handleUdpConnection : list byte → option (list byte).

(** What an emitter run hands to the HTTP side and what it writes. *)
Lemma writeResponseToClient_trace hp total o0 o1 o2 o3 hostPort' :
  let r := writeResponseToClient handleUdpConnection hp total
             (dotted (byteZ o0) (byteZ o1) (byteZ o2) (byteZ o3)) hostPort' in
  handled r.1 = match stringifyRequestPayload hp total with
                | Some req => [req]
                | None => []
                end
  ∧ Forall notAck (sent r.1).
Proof.
  cbv zeta.
  destruct (stringifyRequestPayload hp total) as [req|] eqn:Hreq.
  2:{ unfold writeResponseToClient, getResponsePayload. rewrite Hreq. done. }
  destruct (handleUdpConnection req) as [resp|] eqn:Hresp.
  2:{ rewrite (writeResponseToClient_no_response _ _ _ _ _ _ Hreq Hresp).
      done. }
  destruct (getResponsePacketBytes_total o0 o1 o2 o3 (wrap16 hostPort') 1 resp)
    as (bs & n & Hbs & Hshape).
  rewrite (writeResponseToClient_spec _ _ _ _ _ _ _ _ _ Hreq Hresp Hbs).
  cbn [fst handled sent]. rewrite handled_writes, sent_writes.
  split; [done|]. by apply Forall_longPrefix.
Qed.

(** The completeness check changes nothing but [responsePackets]. *)
Lemma checkDone_frame s t s' :
  length (httpPayload s) = 1024%nat →
  outcome (checkDone handleUdpConnection s) = (t, Some s') →
  s' = s ∨ ∃ rp, s' = set_responsePackets rp s.
Proof.
  intros Hlen. rewrite checkDone_spec by done.
  destruct (requestComplete s) as [[]|]; [| |done].
  - rewrite respond_spec.
    destruct (writeResponseToClient _ _ _ _ _) as [t' [[rp n]|]]; [|done].
    intros [= <- <-]. eauto.
  - intros [= <- <-]. eauto.
Qed.

Lemma not_inAcks_above s r :
  sessionInv s → expectedSeqNo s ≤ r → inAcks r (acks s) = false.
Proof.
  intros (_ & _ & Hacks) Hr.
  destruct (inAcks r (acks s)) eqn:E; [|done].
  apply inAcks_true in E. rewrite list.Forall_forall in Hacks.
  apply Hacks in E. lia.
Qed.

(** C5. A DATA packet ahead of [expectedSeqNo], within the 1024 slots of
    the reassembly buffer: the session writes ACK(r) and then NAK(k) for
    every k from [expectedSeqNo] up to r−1, in order; it stores the
    payload in slot r, appends those k to [naks] and sets
    [expectedSeqNo] to r+1; the completeness check then runs on that
    session, and changes none of these. *)
Theorem data_ahead s datagram packet a p key r :
  reachable handleUdpConnection s →
  decodeStep datagram = Some (packet, a, p, key) →
  byteZ <$> pType packet !! 0%nat = Some 0 →
  Uint32 (seqNo packet) = Some r →
  expectedSeqNo s < r < 1024 →
  let e := expectedSeqNo s in
  let s2 := accepted s r (<[Z.to_nat r := payload packet]> (httpPayload s)) in
  ∃ t1 ack naks',
    sessionStep handleUdpConnection packet s
    = outcome (t1 ++ (checkDone handleUdpConnection s2).1,
               (checkDone handleUdpConnection s2).2)
    ∧ sent t1 = ack :: naks'
    ∧ headerOf ack = Some (1, r)
    ∧ headerOf <$> naks' = (λ k, Some (4, k)) <$> seqZ e (r - e)
    ∧ httpPayload s2 !! Z.to_nat r = Some (payload packet)
    ∧ naks s2 = naks s ++ seqZ e (r - e)
    ∧ expectedSeqNo s2 = r + 1
    ∧ ∀ s', (sessionStep handleUdpConnection packet s).2 = Some s' →
            httpPayload s' !! Z.to_nat r = Some (payload packet)
            ∧ naks s' = naks s ++ seqZ e (r - e)
            ∧ expectedSeqNo s' = r + 1.
Proof.
  intros Hreach Hd Hty0 Hseq Hr e s2. subst e.
  pose proof (reachable_inv _ _ Hreach) as Hinv.
  apply decodeStep_inv in Hd as [Hwf _].
  destruct (wfPacket_inv _ Hwf)
    as (ty & r' & a0 & a1 & a2 & a3 & port & Hty & Hseq' & Ha & Hp & Hr32).
  assert (r' = r) as -> by congruence.
  assert (byteZ ty = 0) as H0 by (rewrite Hty in Hty0; by injection Hty0).
  pose proof Hinv as ((Hlen & (o0 & o1 & o2 & o3 & Haddr)) & He & Hacks).
  assert (E1 : (r =? expectedSeqNo s) = false) by (apply Z.eqb_neq; lia).
  assert (E2 : (r <? expectedSeqNo s) = false) by (apply Z.ltb_ge; lia).
  assert (Hs2 : s2 = set_expectedSeqNo (wrap32 (r + 1))
                       (set_naks (naks s ++ seqZ (expectedSeqNo s) (r - expectedSeqNo s))
                          (set_httpPayload
                             (<[Z.to_nat r := payload packet]> (httpPayload s))
                             (set_acks (acks s ++ [r]) s)))).
  { unfold s2, accepted. rewrite E1, E2. done. }
  assert (Hstep :
    sessionStep handleUdpConnection packet s
    = outcome (dataEvents [o0; o1; o2; o3] port s r
                 ++ (checkDone handleUdpConnection s2).1,
               (checkDone handleUdpConnection s2).2)).
  { rewrite (sessionStep_data _ port packet Hp a0 a1 a2 a3 ty r Ha Hty Hseq s H0).
    rewrite not_inAcks_above by (done || lia).
    rewrite run_bind.
    rewrite (acceptData_spec o0 o1 o2 o3 port packet Hp) by done.
    cbv zeta. cbn [httpPayload expectedSeqNo naks set_acks].
    rewrite setAt_Some by lia. rewrite E1, E2. cbn [fst snd].
    rewrite <- Hs2. unfold dataEvents. rewrite E1, E2. done. }
  exists (dataEvents [o0; o1; o2; o3] port s r),
         (frame 1 r [o0; o1; o2; o3] port []),
         ((λ k, frame 4 k [o0; o1; o2; o3] port []) <$> seqZ (expectedSeqNo s) (r - expectedSeqNo s)).
  split; [exact Hstep|].
  split.
  { unfold dataEvents. rewrite E1, E2. cbn [orb app sent].
    by rewrite sent_nakEvents. }
  split; [apply headerOf_frame; [done|lia|lia]|].
  split.
  { apply nak_headers; [done|]. apply list.Forall_forall.
    intros k Hk%seqZ_range. lia. }
  assert (Hslot : httpPayload s2 !! Z.to_nat r = Some (payload packet)).
  { rewrite Hs2. cbn [httpPayload set_expectedSeqNo set_naks set_httpPayload].
    apply list_lookup_insert_eq. lia. }
  assert (Hnaks : naks s2 = naks s ++ seqZ (expectedSeqNo s) (r - expectedSeqNo s)) by (by rewrite Hs2).
  assert (Hexp : expectedSeqNo s2 = r + 1).
  { rewrite Hs2. cbn [expectedSeqNo set_expectedSeqNo]. unfold wrap32.
    apply Z.mod_small. lia. }
  split; [done|]. split; [done|]. split; [done|].
  intros s' Hs'. rewrite Hstep in Hs'.
  assert (Hlen2 : length (httpPayload s2) = 1024%nat).
  { rewrite Hs2. cbn [httpPayload set_expectedSeqNo set_naks set_httpPayload].
    by rewrite length_insert. }
  destruct (checkDone handleUdpConnection s2) as [t2 fl] eqn:Hcd.
  assert (Hout : outcome (checkDone handleUdpConnection s2) = (t2, Some s')).
  { rewrite Hcd. cbn [fst snd outcome] in Hs' |- *.
    destruct fl; cbn [snd] in Hs'; congruence. }
  destruct (checkDone_frame _ _ _ Hlen2 Hout) as [->|[rp ->]]; done.
Qed.

(** Acknowledged sequence numbers stay acknowledged, and a DATA packet
    that the session has processed is among them. *)
Lemma step_acks s packet t s' :
  sessionInv s → wfPacket packet →
  sessionStep handleUdpConnection packet s = (t, Some s') →
  (∀ x, inAcks x (acks s) = true → inAcks x (acks s') = true)
  ∧ (∀ r, byteZ <$> pType packet !! 0%nat = Some 0 →
          Uint32 (seqNo packet) = Some r → inAcks r (acks s') = true).
Proof.
  intros Hinv Hwf Hstep.
  destruct (wfPacket_inv _ Hwf)
    as (ty & r & a0 & a1 & a2 & a3 & port & Hty & Hseq & Ha & Hp & Hr).
  pose proof Hinv as ((Hlen & (o0 & o1 & o2 & o3 & Haddr)) & He & Hacks).
  assert (Hother : acks s' = acks s → byteZ ty ≠ 0 →
    (∀ x, inAcks x (acks s) = true → inAcks x (acks s') = true)
    ∧ (∀ r, byteZ <$> pType packet !! 0%nat = Some 0 →
            Uint32 (seqNo packet) = Some r → inAcks r (acks s') = true)).
  { intros -> Hne. split; [done|]. intros r0 Hty0.
    rewrite Hty in Hty0. by injection Hty0. }
  destruct (decide (byteZ ty = 0)) as [H0|H0];
    [|destruct (decide (byteZ ty = 1)) as [H1|H1];
      [|destruct (decide (byteZ ty = 2)) as [H2|H2];
        [|destruct (decide (byteZ ty = 4)) as [H4|H4]]]].
  - rewrite (sessionStep_data_closed _ o0 o1 o2 o3 port packet Hp
               a0 a1 a2 a3 ty r Ha Hty Hseq s H0 Haddr Hlen) in Hstep.
    destruct (inAcks r (acks s)) eqn:Hin.
    { injection Hstep as <- <-. split; [done|].
      intros r0 _ Hr0. congruence. }
    destruct (setAt (httpPayload s) r (payload packet)) as [hp|] eqn:Hset;
      [|done].
    assert (Hacc : acks (accepted s r hp) = acks s ++ [r]).
    { unfold accepted. destruct (r =? _); [done|]. by destruct (r <? _). }
    assert (Hgoal : ∀ s'', acks s'' = acks s ++ [r] →
      (∀ x, inAcks x (acks s) = true → inAcks x (acks s'') = true)
      ∧ (∀ r0, byteZ <$> pType packet !! 0%nat = Some 0 →
               Uint32 (seqNo packet) = Some r0 → inAcks r0 (acks s'') = true)).
    { intros s'' ->. split.
      - intros x Hx%inAcks_true. apply inAcks_true, elem_of_app. by left.
      - intros r0 _ Hr0. assert (r0 = r) as -> by congruence.
        apply inAcks_true, elem_of_app. right. apply list_elem_of_here. }
    cbv zeta in Hstep.
    destruct (requestComplete _) as [[]|]; [| |done].
    + destruct (writeResponseToClient _ _ _ _ _) as [t' [[rp n']|]]; [|done].
      injection Hstep as <- <-. by apply Hgoal.
    + injection Hstep as <- <-. by apply Hgoal.
  - rewrite (sessionStep_ack _ port packet Hp a0 a1 a2 a3 ty r Ha Hty Hseq s H1)
      in Hstep.
    destruct (r =? 3); [injection Hstep as <- <-; by apply Hother|].
    destruct (remove (responseNaksList s) packet) as [l'|]; [|done].
    destruct (sendUnreceivedResponsePackets _ _) as [t' [[]|]]; [|done].
    injection Hstep as <- <-. by apply Hother.
  - rewrite (sessionStep_syn _ port packet Hp a0 a1 a2 a3 ty r Ha Hty Hseq s H2)
      in Hstep.
    injection Hstep as <- <-. destruct (0 <? _); by apply Hother.
  - rewrite (sessionStep_nak _ port packet Hp a0 a1 a2 a3 ty r Ha Hty Hseq s H4)
      in Hstep.
    destruct (sendUnreceivedResponsePackets _ _) as [t' [[]|]]; [|done].
    injection Hstep as <- <-. by apply Hother.
  - rewrite (sessionStep_other _ port packet Hp a0 a1 a2 a3 ty r Ha Hty Hseq s
               H0 H1 H2 H4) in Hstep.
    injection Hstep as <- <-. by apply Hother.
Qed.

Lemma serveSession_acks others : ∀ s t s',
  sessionInv s → Forall wfPacket others →
  serveSession handleUdpConnection others s = (t, Some s') →
  sessionInv s'
  ∧ ∀ x, inAcks x (acks s) = true → inAcks x (acks s') = true.
Proof.
  induction others as [|packet others IH]; intros s t s' Hinv Hwf Hrun.
  - injection Hrun as <- <-. done.
  - apply list.Forall_cons in Hwf as [Hwf1 Hwf].
    cbn [serveSession] in Hrun.
    destruct (sessionStep handleUdpConnection packet s) as [t1 [s1|]] eqn:Hstep;
      [|done].
    destruct (serveSession handleUdpConnection others s1) as [t2 o] eqn:Hrest.
    injection Hrun as <- ->.
    destruct (step_inv _ _ _ _ _ Hinv Hwf1 Hstep) as [Hinv1 _].
    destruct (step_acks _ _ _ _ Hinv Hwf1 Hstep) as [Hmono _].
    destruct (IH _ _ _ Hinv1 Hwf Hrest) as [Hinv' Hmono'].
    split; [done|]. intros x Hx. by apply Hmono', Hmono.
Qed.

(** C2. Only the first copy of DATA(r) that a session accepts is
    acknowledged: it draws exactly one ACK(r), written first; once a
    copy has been processed, every later copy, whatever arrived in
    between, is dropped with no ACK, no write to the reassembly buffer
    and no response. *)
Theorem duplicate_data_dropped s datagram packet a p key r :
  reachable handleUdpConnection s →
  decodeStep datagram = Some (packet, a, p, key) →
  byteZ <$> pType packet !! 0%nat = Some 0 →
  Uint32 (seqNo packet) = Some r →
  (inAcks r (acks s) = false →
     ∃ ack rest,
       sent (sessionStep handleUdpConnection packet s).1 = ack :: rest
       ∧ headerOf ack = Some (1, r) ∧ Forall notAck rest)
  ∧ (∀ t1 s1 others t2 s2,
       sessionStep handleUdpConnection packet s = (t1, Some s1) →
       Forall wfPacket others →
       serveSession handleUdpConnection others s1 = (t2, Some s2) →
       sessionStep handleUdpConnection packet s2 = ([], Some s2)).
Proof.
  intros Hreach Hd Hty0 Hseq.
  pose proof (reachable_inv _ _ Hreach) as Hinv.
  apply decodeStep_inv in Hd as [Hwf _].
  destruct (wfPacket_inv _ Hwf)
    as (ty & r' & a0 & a1 & a2 & a3 & port & Hty & Hseq' & Ha & Hp & Hr32).
  assert (r' = r) as -> by congruence.
  assert (byteZ ty = 0) as H0 by (rewrite Hty in Hty0; by injection Hty0).
  pose proof Hinv as ((Hlen & (o0 & o1 & o2 & o3 & Haddr)) & He & Hacks).
  split.
  - intros Hin.
    rewrite (sessionStep_data_closed _ o0 o1 o2 o3 port packet Hp
               a0 a1 a2 a3 ty r Ha Hty Hseq s H0 Haddr Hlen), Hin.
    exists (frame 1 r [o0; o1; o2; o3] port []).
    assert (Hack : headerOf (frame 1 r [o0; o1; o2; o3] port []) = Some (1, r))
      by (apply headerOf_frame; [done|lia|lia]).
    assert (Hdata : ∃ rest,
      sent (dataEvents [o0; o1; o2; o3] port s r)
      = frame 1 r [o0; o1; o2; o3] port [] :: rest ∧ Forall notAck rest).
    { unfold dataEvents. cbn [app sent]. eexists. split; [done|].
      destruct (_ || _); [done|]. rewrite sent_nakEvents.
      apply list.Forall_forall. intros b (k & -> & _)%list_elem_of_fmap q Hq.
      apply headerOf_frame_type in Hq; lia. }
    destruct Hdata as (rest & Hsent & Hrest).
    destruct (setAt (httpPayload s) r (payload packet)) as [hp|].
    2:{ exists []. destruct (r =? expectedSeqNo s); done. }
    cbv zeta.
    assert (Haddr2 : hostAddr (accepted s r hp) = hostAddr s).
    { unfold accepted. destruct (r =? _); [done|]. by destruct (r <? _). }
    destruct (requestComplete _) as [[]|]; [|by exists rest..].
    pose proof (writeResponseToClient_trace (httpPayload (accepted s r hp))
                  (totalNumPackets (accepted s r hp)) o0 o1 o2 o3
                  (hostPort (accepted s r hp))) as [_ Hresp].
    rewrite Haddr2, Haddr.
    destruct (writeResponseToClient _ _ _ _ _) as [t' [[rp n']|]];
      cbn [fst] in *; rewrite sent_app, Hsent;
      (exists (rest ++ sent t'); split; [done|split; [done|]];
       by apply Forall_app).
  - intros t1 s1 others t2 s2 Hstep Hothers Hrun.
    destruct (step_inv _ _ _ _ _ Hinv Hwf Hstep) as [Hinv1 _].
    destruct (step_acks _ _ _ _ Hinv Hwf Hstep) as [_ Hacked].
    destruct (serveSession_acks _ _ _ _ Hinv1 Hothers Hrun) as [_ Hkeep].
    rewrite (sessionStep_data _ port packet Hp a0 a1 a2 a3 ty r Ha Hty Hseq s2 H0).
    by rewrite (Hkeep r (Hacked r Hty0 Hseq)).
Qed.

End DataTheorems.

(** ** When the response emitter runs *)

Lemma somePrefix_Forall {A B} (f : A → option B) (P : B → Prop) l :
  (∀ x b, f x = Some b → P b) → Forall P (somePrefix f l).
Proof.
  intros H. induction l as [|x l IH]; cbn [somePrefix]; [done|].
  destruct (f x) as [b|] eqn:E; [|done]. constructor; eauto.
Qed.

Lemma lookupNak_stored rps nak b :
  lookupNak rps nak = Some b → b ∈ getBytesFromPacket <$> rps.
Proof.
  unfold lookupNak. destruct (Uint32 (seqNo nak)) as [k|]; [|done].
  cbn [mbind option_bind]. unfold at_. case_decide; [|done].
  destruct (rps !! Z.to_nat (k - 1)) as [q|] eqn:E; [|done].
  cbn [mbind option_bind]. intros [= <-].
  apply list_elem_of_fmap. exists q. split; [done|].
  by eapply list_elem_of_lookup_2.
Qed.


Lemma accepted_frame s r hp :
  hostAddr (accepted s r hp) = hostAddr s
  ∧ httpPayload (accepted s r hp) = hp
  ∧ totalNumPackets (accepted s r hp) = totalNumPackets s.
Proof.
  unfold accepted. destruct (r =? _); [done|]. by destruct (r <? _).
Qed.

Lemma handled_dataEvents addr4 port s r : handled (dataEvents addr4 port s r) = [].
Proof.
  unfold dataEvents. cbn [app handled]. destruct (_ || _); [done|].
  apply handled_nakEvents.
Qed.

Lemma accepted_fields s r hp :
  hostPort (accepted s r hp) = hostPort s
  ∧ acks (accepted s r hp) = acks s ++ [r]
  ∧ naks s `prefix_of` naks (accepted s r hp)
  ∧ responseNaksList (accepted s r hp) = responseNaksList s
  ∧ responsePackets (accepted s r hp) = responsePackets s.
Proof.
  unfold accepted. destruct (r =? _); [|destruct (r <? _)];
    cbn; repeat split; try done.
  by apply prefix_app_r.
Qed.

Lemma notData_frame t seq addr4 port pl :
  0 < t < 256 → notData (frame t seq addr4 port pl).
Proof.
  intros Ht q H. apply headerOf_frame_type in H; lia.
Qed.

Lemma dataEvents_notData addr4 port s r :
  Forall notData (sent (dataEvents addr4 port s r)).
Proof.
  unfold dataEvents. rewrite sent_app. cbn [sent].
  constructor; [apply notData_frame; lia|].
  destruct (_ || _); [constructor|].
  rewrite sent_nakEvents. apply list.Forall_forall.
  intros b (k & -> & _)%list_elem_of_fmap. apply notData_frame. lia.
Qed.

Section EmitterRuns.

Variable handleUdpConnection : list byte → option (list byte).


(** C4. A SYN whose payload is not a decimal integer is logged and
    leaves the session as it was, [totalNumPackets] included; when that
    is still 0, the window [httpPayload[4:4]] of the completeness check
    is empty and [checkNotEmpty] holds of it, so the next DATA packet
    that is accepted makes the emitter run, on the empty request
    text. *)
Theorem corrupt_syn_then_data_emits s d1 syn a1 p1 key1 d2 data a2 p2 key2 r :
  reachable handleUdpConnection s →
  totalNumPackets s = 0 →
  decodeStep d1 = Some (syn, a1, p1, key1) →
  byteZ <$> pType syn !! 0%nat = Some 2 →
  Atoi (payload syn) = (0, true) →
  decodeStep d2 = Some (data, a2, p2, key2) →
  byteZ <$> pType data !! 0%nat = Some 0 →
  Uint32 (seqNo data) = Some r →
  inAcks r (acks s) = false → 0 ≤ r < 1024 →
  ∃ t1,
    sessionStep handleUdpConnection syn s = (t1, Some s)
    ∧ LogInfo (lit "Corrupt SYN packet!") ∈ t1
    ∧ handled (sessionStep handleUdpConnection data s).1 = [[]].
Proof.
  intros Hreach Htotal Hd1 Hsyn Hatoi Hd2 Hdata Hseq' Hin Hr.
  pose proof (reachable_inv _ _ Hreach) as Hinv.
  pose proof Hinv as ((Hlen & (o0 & o1 & o2 & o3 & Haddr)) & He & Hacks).
  apply decodeStep_inv in Hd1 as [Hwf1 _].
  apply decodeStep_inv in Hd2 as [Hwf2 _].
  destruct (wfPacket_inv _ Hwf1)
    as (ty1 & r1 & b0 & b1 & b2 & b3 & port1 & Hty1 & Hseq1 & Ha1 & Hp1 & _).
  destruct (wfPacket_inv _ Hwf2)
    as (ty2 & r2 & c0 & c1 & c2 & c3 & port2 & Hty2 & Hseq2 & Ha2 & Hp2 & _).
  assert (r2 = r) as -> by congruence.
  assert (byteZ ty1 = 2) as H2 by (rewrite Hty1 in Hsyn; by injection Hsyn).
  assert (byteZ ty2 = 0) as H0 by (rewrite Hty2 in Hdata; by injection Hdata).
  eexists. split; [|split].
  - rewrite (sessionStep_syn _ port1 syn Hp1 b0 b1 b2 b3 ty1 r1 Ha1 Hty1 Hseq1 s H2).
    rewrite Hatoi. cbn [fst snd]. change (0 <? 0) with false. cbv iota.
    reflexivity.
  - apply elem_of_app. left. apply list_elem_of_here.
  - rewrite (sessionStep_data_closed _ o0 o1 o2 o3 port2 data Hp2
               c0 c1 c2 c3 ty2 r Ha2 Hty2 Hseq2 s H0 Haddr Hlen), Hin.
    rewrite setAt_Some by lia. cbv zeta.
    set (hp := <[Z.to_nat r:=payload data]> (httpPayload s)).
    destruct (accepted_frame s r hp) as (Haddr2 & Hhp2 & Htot2).
    assert (Hlen2 : length hp = 1024%nat) by (unfold hp; by rewrite length_insert).
    assert (Hc : requestComplete (accepted s r hp) = Some true).
    { unfold requestComplete. rewrite Htot2, Htotal, Hhp2.
      change (0 =? 1) with false. cbn [andb].
      rewrite sub_Some by lia. reflexivity. }
    rewrite Hc.
    pose proof (writeResponseToClient_trace handleUdpConnection
                  (httpPayload (accepted s r hp))
                  (totalNumPackets (accepted s r hp)) o0 o1 o2 o3
                  (hostPort (accepted s r hp))) as [Hh _].
    unfold stringifyRequestPayload in Hh.
    rewrite Htot2, Htotal, Hhp2 in Hh. rewrite sub_Some in Hh by lia.
    cbn [mbind option_bind] in Hh.
    change (Z.to_nat (4 + 0 - 4)) with 0%nat in Hh. rewrite take_0 in Hh.
    cbn [fold_left] in Hh.
    rewrite Haddr2, Haddr, Htot2, Htotal, Hhp2.
    destruct (writeResponseToClient _ _ _ _ _) as [t' [[rp n']|]];
      cbn [fst] in *; by rewrite handled_app, handled_dataEvents, Hh.
Qed.

End EmitterRuns.

(** ** Concrete runs *)

Lemma decode_peer_data4 :
  decodeStep (peerDatagram 0 4 (lit "x"))
  = Some (peerPacket 0 4 (lit "x"), lit "127.0.0.1", 8080, lit "127.0.0.1:8080").
Proof. vm_compute. reflexivity. Qed.

Lemma freshSession_reachable bridge : reachable bridge freshSession.
Proof. exact (reach_new bridge _ _ _ _ _ decode_peer_data4). Qed.

Lemma step_reachable bridge s datagram packet a p key s' :
  reachable bridge s →
  decodeStep datagram = Some (packet, a, p, key) →
  (sessionStep bridge packet s).2 = Some s' →
  reachable bridge s'.
Proof.
  intros Hs Hd Hstep.
  destruct (sessionStep bridge packet s) as [t o] eqn:E.
  cbn [snd] in Hstep. subst o. by eapply reach_step.
Qed.

Lemma answeredSession_reachable : reachable echoBridge answeredSession.
Proof.
  apply (step_reachable echoBridge
           (default freshSession
              (sessionStep echoBridge (peerPacket 2 2 (lit "1")) freshSession).2)
           (peerDatagram 0 4 (lit "GET / HTTP/1.0"))
           (peerPacket 0 4 (lit "GET / HTTP/1.0"))
           (lit "127.0.0.1") 8080 (lit "127.0.0.1:8080")).
  - apply (step_reachable echoBridge freshSession
             (peerDatagram 2 2 (lit "1")) (peerPacket 2 2 (lit "1"))
             (lit "127.0.0.1") 8080 (lit "127.0.0.1:8080"));
      [apply freshSession_reachable | vm_compute; reflexivity
      | vm_compute; reflexivity].
  - vm_compute. reflexivity.
  - vm_compute. reflexivity.
Qed.

Lemma announcedSession_reachable k :
  (sessionStep echoBridge (peerPacket 2 2 (lit k)) freshSession).2
  = Some (announcedSession k) →
  decodeStep (peerDatagram 2 2 (lit k))
  = Some (peerPacket 2 2 (lit k), lit "127.0.0.1", 8080, lit "127.0.0.1:8080") →
  reachable echoBridge (announcedSession k).
Proof.
  intros Hstep Hd.
  exact (step_reachable echoBridge freshSession _ _ _ _ _ _
           (freshSession_reachable echoBridge) Hd Hstep).
Qed.

Lemma announced1_reachable : reachable echoBridge (announcedSession "1").
Proof. apply announcedSession_reachable; vm_compute; reflexivity. Qed.

Lemma announced3_reachable : reachable echoBridge (announcedSession "3").
Proof. apply announcedSession_reachable; vm_compute; reflexivity. Qed.

Lemma expectedSeqNo_monotone_witness :
  4 ≤ expectedSeqNo (announcedSession "1")
    ≤ expectedSeqNo
        (default freshSession
           (sessionStep echoBridge (peerPacket 0 4 (lit "x"))
              (announcedSession "1")).2).
Proof.
  apply (expectedSeqNo_monotone echoBridge (announcedSession "1")
           (peerDatagram 0 4 (lit "x")) (peerPacket 0 4 (lit "x"))
           (lit "127.0.0.1") 8080 (lit "127.0.0.1:8080")
           (sessionStep echoBridge (peerPacket 0 4 (lit "x"))
              (announcedSession "1")).1);
    [apply announced1_reachable | exact decode_peer_data4
    | vm_compute; reflexivity].
Defined.

Lemma nak_out_of_range_panics_witness :
  at_ (responsePackets freshSession) (1 - 1) = None
  ∧ (sessionStep echoBridge (peerPacket 4 1 []) freshSession).2 = None.
Proof.
  apply (nak_out_of_range_panics echoBridge freshSession (peerPacket 4 1 []) 1);
    [vm_compute; done | reflexivity | reflexivity | right; right; reflexivity].
Defined.

Lemma nak_retransmits_original_witness :
  ∃ b t,
    sent (writeResponseToClient echoBridge (httpPayload answeredSession) 1
            (hostAddr answeredSession) (hostPort answeredSession)).1
      !! Z.to_nat (1 - 1) = Some b
    ∧ headerOf b = Some (0, 1)
    ∧ sessionStep echoBridge (peerPacket 4 1 []) answeredSession
      = (t, Some (set_responseNaksList
                    (responseNaksList answeredSession ++ [peerPacket 4 1 []])
                    answeredSession))
    ∧ list.last (sent t) = Some b.
Proof.
  apply (nak_retransmits_original echoBridge answeredSession
           (peerPacket 4 1 []) 1 (httpPayload answeredSession) 1
           (writeResponseToClient echoBridge (httpPayload answeredSession) 1
              (hostAddr answeredSession) (hostPort answeredSession)).1 1).
  - split; [vm_compute; reflexivity|].
    exists "127"%byte, x00, x00, x01. vm_compute. reflexivity.
  - vm_compute. done.
  - reflexivity.
  - reflexivity.
  - vm_compute. reflexivity.
  - vm_compute. constructor.
  - lia.
Defined.

Lemma decode_peer_data6 :
  decodeStep (peerDatagram 0 6 (lit "c"))
  = Some (peerPacket 0 6 (lit "c"), lit "127.0.0.1", 8080, lit "127.0.0.1:8080").
Proof. vm_compute. reflexivity. Qed.

Lemma data_ahead_witness :
  ∃ t1 ack naks',
    sessionStep echoBridge (peerPacket 0 6 (lit "c")) (announcedSession "3")
    = outcome
        (t1 ++ (checkDone echoBridge
                  (accepted (announcedSession "3") 6
                     (<[Z.to_nat 6 := payload (peerPacket 0 6 (lit "c"))]>
                        (httpPayload (announcedSession "3"))))).1,
         (checkDone echoBridge
            (accepted (announcedSession "3") 6
               (<[Z.to_nat 6 := payload (peerPacket 0 6 (lit "c"))]>
                  (httpPayload (announcedSession "3"))))).2)
    ∧ sent t1 = ack :: naks'
    ∧ headerOf ack = Some (1, 6)
    ∧ headerOf <$> naks'
      = (λ k, Some (4, k))
          <$> seqZ (expectedSeqNo (announcedSession "3")) (6 - expectedSeqNo (announcedSession "3"))
    ∧ httpPayload
        (accepted (announcedSession "3") 6
           (<[Z.to_nat 6 := payload (peerPacket 0 6 (lit "c"))]>
              (httpPayload (announcedSession "3")))) !! Z.to_nat 6
      = Some (payload (peerPacket 0 6 (lit "c")))
    ∧ naks
        (accepted (announcedSession "3") 6
           (<[Z.to_nat 6 := payload (peerPacket 0 6 (lit "c"))]>
              (httpPayload (announcedSession "3"))))
      = naks (announcedSession "3")
          ++ seqZ (expectedSeqNo (announcedSession "3")) (6 - expectedSeqNo (announcedSession "3"))
    ∧ expectedSeqNo
        (accepted (announcedSession "3") 6
           (<[Z.to_nat 6 := payload (peerPacket 0 6 (lit "c"))]>
              (httpPayload (announcedSession "3")))) = 6 + 1
    ∧ ∀ s',
        (sessionStep echoBridge (peerPacket 0 6 (lit "c")) (announcedSession "3")).2
        = Some s' →
        httpPayload s' !! Z.to_nat 6 = Some (payload (peerPacket 0 6 (lit "c")))
        ∧ naks s'
          = naks (announcedSession "3")
              ++ seqZ (expectedSeqNo (announcedSession "3"))
                   (6 - expectedSeqNo (announcedSession "3"))
        ∧ expectedSeqNo s' = 6 + 1.
Proof.
  apply (data_ahead echoBridge (announcedSession "3") (peerDatagram 0 6 (lit "c"))
           (peerPacket 0 6 (lit "c")) (lit "127.0.0.1") 8080
           (lit "127.0.0.1:8080") 6);
    [apply announced3_reachable | exact decode_peer_data6 | reflexivity
    | reflexivity | vm_compute; split; reflexivity].
Defined.

(** C5 as stated fails beyond the reassembly buffer: for r = 1024 the ACK
    is written and the store panics; no NAK is written and no session
    remains. *)
Lemma data_ahead_beyond_buffer_panics :
  expectedSeqNo freshSession < 1024
  ∧ sessionStep echoBridge (peerPacket 0 1024 (lit "x")) freshSession
    = ([WriteToUDP (peerDatagram 1 1024 []);
        LogInfo (lit "ACK'd packet 1024")], None).
Proof. vm_compute. split; reflexivity. Qed.

Lemma duplicate_data_dropped_witness :
  (inAcks 4 (acks (announcedSession "3")) = false →
     ∃ ack rest,
       sent (sessionStep echoBridge (peerPacket 0 4 (lit "x")) (announcedSession "3")).1
       = ack :: rest
       ∧ headerOf ack = Some (1, 4) ∧ Forall notAck rest)
  ∧ (∀ t1 s1 others t2 s2,
       sessionStep echoBridge (peerPacket 0 4 (lit "x")) (announcedSession "3")
       = (t1, Some s1) →
       Forall wfPacket others →
       serveSession echoBridge others s1 = (t2, Some s2) →
       sessionStep echoBridge (peerPacket 0 4 (lit "x")) s2 = ([], Some s2)).
Proof.
  apply (duplicate_data_dropped echoBridge (announcedSession "3")
           (peerDatagram 0 4 (lit "x")) (peerPacket 0 4 (lit "x"))
           (lit "127.0.0.1") 8080 (lit "127.0.0.1:8080") 4);
    [apply announced3_reachable | exact decode_peer_data4 | reflexivity
    | reflexivity].
Defined.

(** C2 as stated fails: after a handshake announcing one packet, DATA 4
    sent twice draws one ACK 4, not two; the second copy writes nothing,
    and the response is emitted once. *)
Lemma duplicate_data_one_ack :
  acksOf 4
    (serveSession echoBridge
       [peerPacket 2 2 (lit "1"); peerPacket 1 3 [];
        peerPacket 0 4 (lit "GET / HTTP/1.0");
        peerPacket 0 4 (lit "GET / HTTP/1.0")] freshSession).1 = 1%nat
  ∧ acksOf 4
      (serveSession echoBridge
         [peerPacket 2 2 (lit "1"); peerPacket 1 3 [];
          peerPacket 0 4 (lit "GET / HTTP/1.0");
          peerPacket 0 4 (lit "GET / HTTP/1.0")] freshSession).1 ≠ 2%nat
  ∧ (serveSession echoBridge
       [peerPacket 2 2 (lit "1"); peerPacket 0 4 (lit "GET / HTTP/1.0")]
       freshSession).2 = Some answeredSession
  ∧ sessionStep echoBridge (peerPacket 0 4 (lit "GET / HTTP/1.0"))
      answeredSession = ([], Some answeredSession).
Proof.
  split; [vm_compute; reflexivity|].
  split; [vm_compute; discriminate|].
  split; vm_compute; reflexivity.
Qed.





Lemma corrupt_syn_then_data_emits_witness :
  ∃ t1,
    sessionStep echoBridge (peerPacket 2 2 (lit "abc")) freshSession
    = (t1, Some freshSession)
    ∧ LogInfo (lit "Corrupt SYN packet!") ∈ t1
    ∧ handled (sessionStep echoBridge (peerPacket 0 4 (lit "x"))
                 freshSession).1 = [[]].
Proof.
  apply (corrupt_syn_then_data_emits echoBridge freshSession
           (peerDatagram 2 2 (lit "abc")) (peerPacket 2 2 (lit "abc"))
           (lit "127.0.0.1") 8080 (lit "127.0.0.1:8080")
           (peerDatagram 0 4 (lit "x")) (peerPacket 0 4 (lit "x"))
           (lit "127.0.0.1") 8080 (lit "127.0.0.1:8080") 4);
    [apply freshSession_reachable | reflexivity | vm_compute; reflexivity
    | reflexivity | vm_compute; reflexivity | exact decode_peer_data4
    | reflexivity | reflexivity | reflexivity | lia].
Defined.

(** C6 as stated fails when a NAK is still pending from an earlier,
    longer response, with [handleUdpConnection] of the source as the
    HTTP side: the session holds the one packet of its latest response
    and the NAK for packet 2 of the first, and a NAK for packet 1 panics
    at that pending NAK before anything is written again. *)
Lemma stale_pending_nak_blocks_retransmission :
  (serveSession fileBridge
     [peerPacket 2 2 (lit "2");
      peerPacket 0 4 refusedHead;
      peerPacket 0 5 refusedRest;
      peerPacket 4 2 [];
      peerPacket 2 2 (lit "1");
      peerPacket 0 6 (lit "z")]
     freshSession).2 = Some reansweredSession
  ∧ length (responsePackets reansweredSession) = 1%nat
  ∧ length (responseNaksList reansweredSession) = 1%nat
  ∧ sessionStep fileBridge (peerPacket 4 1 []) reansweredSession = ([], None).
Proof. vm_compute. repeat split; reflexivity. Qed.

(** * Further properties of the transport *)

(** ** Reassembly of the request *)

Lemma checkNotEmpty_true l : checkNotEmpty l = true ↔ Forall (λ c, c ≠ []) l.
Proof.
  induction l as [|c l IH]; cbn [checkNotEmpty]; [by split|].
  destruct c as [|b c]; cbn [length Nat.eqb].
  - split; [done|]. by intros [? _]%list.Forall_cons.
  - rewrite IH. split; [by constructor|]. by intros [_ ?]%list.Forall_cons.
Qed.

Lemma checkNotEmpty_false l : [] ∈ l → checkNotEmpty l = false.
Proof.
  intros H. destruct (checkNotEmpty l) eqn:E; [|done].
  apply checkNotEmpty_true in E. rewrite list.Forall_forall in E.
  by destruct (E _ H).
Qed.

Lemma fold_left_app_concat (l : list (list byte)) acc :
  fold_left (λ a p, a ++ p) l acc = acc ++ concat l.
Proof.
  revert acc. induction l as [|c l IH]; intros acc; cbn [fold_left concat].
  - by rewrite app_nil_r.
  - by rewrite IH, app_assoc.
Qed.

Lemma stringify_window hp total :
  0 ≤ total → 4 + total ≤ Z.of_nat (length hp) →
  stringifyRequestPayload hp total
  = Some (concat (take (Z.to_nat total) (drop 4 hp))).
Proof.
  intros H0 H1. unfold stringifyRequestPayload. rewrite sub_Some by lia.
  cbn [mbind option_bind]. rewrite fold_left_app_concat.
  replace (Z.to_nat (4 + total - 4)) with (Z.to_nat total) by lia. done.
Qed.

(** The completeness check, within the buffer, is the test that no slot of
    the window is empty. *)
Lemma requestComplete_window_check s :
  length (httpPayload s) = 1024%nat → 0 ≤ totalNumPackets s ≤ 1020 →
  requestComplete s
  = Some (checkNotEmpty (take (Z.to_nat (totalNumPackets s))
                           (drop 4 (httpPayload s)))).
Proof.
  intros Hlen Htot. unfold requestComplete.
  rewrite sub_Some by lia. cbn [mbind option_bind].
  replace (Z.to_nat (4 + totalNumPackets s - 4))
    with (Z.to_nat (totalNumPackets s)) by lia.
  change (Z.to_nat 4) with 4%nat.
  destruct (Z.eqb_spec (totalNumPackets s) 1) as [E|_]; [|done].
  rewrite E. cbn [andb]. change (Z.to_nat 1) with 1%nat.
  destruct (lookup_lt_is_Some_2 (httpPayload s) 4) as [first Hfirst]; [lia|].
  rewrite Hfirst. cbn [default from_option id].
  rewrite (drop_S _ _ _ Hfirst). cbn [take checkNotEmpty].
  destruct first; done.
Qed.

Section Reassembly.

Variable handleUdpConnection : list byte → option (list byte).
Variable chunks : list (list byte).

Lemma reassembly_run pkts : ∀ order s,
  (1 ≤ length chunks ≤ 1020)%nat →
  Forall (λ c, c ≠ []) chunks →
  Forall2 (carries chunks) pkts order → NoDup order → pkts ≠ [] →
  awaiting chunks s order →
  handled (serveSession handleUdpConnection pkts s).1 = [concat chunks].
Proof.
  induction pkts as [|packet pkts IH]; intros order s HK Hne Hcar Hnd Hpk Haw;
    [done|].
  destruct order as [|i order]; [by apply Forall2_cons_nil_inv in Hcar|].
  apply Forall2_cons_1 in Hcar as [(Hwf & Hty0 & Hseq & Hchunk) Hcar].
  apply list.NoDup_cons in Hnd as [Hi Hnd].
  destruct Haw as ((Hlen & (o0 & o1 & o2 & o3 & Haddr)) & Htot & Hslots).
  destruct (wfPacket_inv _ Hwf)
    as (ty & r & a0 & a1 & a2 & a3 & port & Hty & Hseq' & Ha & Hp & Hr32).
  assert (r = 4 + Z.of_nat i) as -> by congruence.
  assert (byteZ ty = 0) as H0 by (rewrite Hty in Hty0; by injection Hty0).
  pose proof (lookup_lt_Some _ _ _ Hchunk) as HiK.
  pose proof (Hslots i _ Hchunk) as Hsi.
  rewrite decide_True in Hsi by apply list_elem_of_here.
  destruct Hsi as [_ Hin].
  cbn [serveSession].
  rewrite (sessionStep_data_closed _ o0 o1 o2 o3 port packet Hp
             a0 a1 a2 a3 ty _ Ha Hty Hseq s H0 Haddr Hlen), Hin.
  rewrite setAt_Some by lia. cbv zeta.
  replace (Z.to_nat (4 + Z.of_nat i)) with (4 + i)%nat by lia.
  set (hp := <[(4 + i)%nat := payload packet]> (httpPayload s)).
  destruct (accepted_frame s (4 + Z.of_nat i) hp) as (Haddr2 & Hhp2 & Htot2).
  assert (Hlen2 : length hp = 1024%nat) by (unfold hp; by rewrite length_insert).
  assert (Hacks2 : acks (accepted s (4 + Z.of_nat i) hp)
                   = acks s ++ [4 + Z.of_nat i]).
  { unfold accepted. destruct (_ =? _); [done|]. by destruct (_ <? _). }
  (* the slots after the store *)
  assert (Hslots2 : ∀ j c, chunks !! j = Some c →
    if decide (j ∈ order)
    then hp !! (4 + j)%nat = Some []
         ∧ inAcks (4 + Z.of_nat j) (acks s ++ [4 + Z.of_nat i]) = false
    else hp !! (4 + j)%nat = Some c).
  { intros j c Hj. pose proof (Hslots j c Hj) as Hsj.
    destruct (decide (j ∈ order)) as [Hjo|Hjo].
    - assert (j ≠ i) by (intros ->; done).
      rewrite decide_True in Hsj by (by apply list_elem_of_further).
      destruct Hsj as [Hsl Hack]. split.
      + unfold hp. rewrite list_lookup_insert_ne by lia. done.
      + destruct (inAcks _ (acks s ++ _)) eqn:E; [|done].
        apply inAcks_true, elem_of_app in E as [E|E%list_elem_of_singleton].
        * apply inAcks_true in E. congruence.
        * lia.
    - destruct (decide (j = i)) as [->|Hji].
      + unfold hp. rewrite list_lookup_insert_eq by lia. congruence.
      + rewrite decide_False in Hsj
          by (intros [?|?]%elem_of_cons; done).
        unfold hp. rewrite list_lookup_insert_ne by lia. done. }
  rewrite requestComplete_window_check by (rewrite ?Hhp2, ?Htot2; lia).
  rewrite Hhp2, Htot2, Htot, Nat2Z.id.
  destruct pkts as [|packet' pkts].
  - (* the last chunk: the window is the request *)
    apply Forall2_nil_inv_l in Hcar as ->.
    assert (Hwin : take (length chunks) (drop 4 hp) = chunks).
    { apply list_eq. intros j.
      destruct (decide (j < length chunks)%nat) as [Hj|Hj].
      - rewrite lookup_take_lt, lookup_drop by done.
        destruct (lookup_lt_is_Some_2 chunks j Hj) as [c Hc].
        pose proof (Hslots2 j c Hc) as Hsj.
        rewrite decide_False in Hsj by apply not_elem_of_nil. congruence.
      - rewrite lookup_take_ge by lia. symmetry.
        apply lookup_ge_None. lia. }
    rewrite Hwin. rewrite (proj2 (checkNotEmpty_true chunks) Hne).
    pose proof (writeResponseToClient_trace handleUdpConnection hp
                  (Z.of_nat (length chunks)) o0 o1 o2 o3
                  (hostPort (accepted s (4 + Z.of_nat i) hp))) as [Hh _].
    cbv zeta in Hh. rewrite stringify_window in Hh by lia.
    rewrite Nat2Z.id, Hwin in Hh. rewrite Haddr2, Haddr.
    destruct (writeResponseToClient _ _ _ _ _) as [t' [[rp n']|]];
      cbn [fst serveSession] in *;
      rewrite ?app_nil_r, handled_app, handled_dataEvents, Hh; done.
  - (* more to come: the slot of the next chunk is still empty *)
    pose proof Hcar as Hcar'.
    destruct order as [|i' order]; [by apply Forall2_cons_nil_inv in Hcar|].
    apply Forall2_cons_1 in Hcar as [(_ & _ & _ & Hchunk') _].
    pose proof (Hslots2 i' _ Hchunk') as Hs'.
    rewrite decide_True in Hs' by apply list_elem_of_here.
    destruct Hs' as [Hempty _].
    rewrite checkNotEmpty_false.
    2:{ apply list_elem_of_lookup. exists i'.
        rewrite lookup_take_lt by (by eapply lookup_lt_Some).
        by rewrite lookup_drop. }
    destruct (serveSession handleUdpConnection (packet' :: pkts)
                (accepted s (4 + Z.of_nat i) hp)) as [t2 o] eqn:Hrest.
    cbn [fst]. rewrite handled_app, handled_dataEvents. cbn [app].
    replace t2 with (serveSession handleUdpConnection (packet' :: pkts)
                       (accepted s (4 + Z.of_nat i) hp)).1
      by (by rewrite Hrest).
    apply (IH (i' :: order)); try done.
    split; [split; [by rewrite Hhp2|rewrite Haddr2; eauto]|].
    split; [by rewrite Htot2|].
    intros j c Hj. rewrite Hhp2, Hacks2. by apply Hslots2.
Qed.

End Reassembly.

(** X1. Reassembly does not depend on the order of arrival: when the
    chunks of a request of 1 to 1020 nonempty chunks arrive as DATA 4,
    5, ... in any order, each once, in a session that announced their
    number and has seen none of them, the HTTP side is handed the request
    exactly once, after the last arrival, and it is the chunks joined in
    sequence order. *)
Theorem reassembly_any_order bridge chunks s pkts order :
  (1 ≤ length chunks ≤ 1020)%nat →
  Forall (λ c, c ≠ []) chunks →
  order ≡ₚ seq 0 (length chunks) →
  Forall2 (carries chunks) pkts order →
  awaiting chunks s order →
  handled (serveSession bridge pkts s).1 = [concat chunks].
Proof.
  intros HK Hne Hperm Hcar Haw.
  apply (reassembly_run bridge chunks pkts order s); try done.
  - rewrite Hperm. apply NoDup_seq.
  - intros ->. apply Forall2_nil_inv_l in Hcar as ->.
    apply Permutation_length in Hperm. rewrite length_seq in Hperm.
    cbn [length] in Hperm. lia.
Qed.

Lemma reassembly_any_order_witness :
  handled
    (serveSession echoBridge
       [peerPacket 0 6 (lit "c"); peerPacket 0 4 (lit "a");
        peerPacket 0 5 (lit "b")]
       (announcedSession "3")).1
  = [concat [lit "a"; lit "b"; lit "c"]].
Proof.
  apply (reassembly_any_order echoBridge [lit "a"; lit "b"; lit "c"]
           (announcedSession "3")
           [peerPacket 0 6 (lit "c"); peerPacket 0 4 (lit "a");
            peerPacket 0 5 (lit "b")]
           [2; 0; 1]%nat).
  - cbn [length]. lia.
  - repeat constructor; discriminate.
  - change (seq 0 (length [lit "a"; lit "b"; lit "c"])) with [0; 1; 2]%nat.
    etrans; [apply Permutation_swap|]. apply perm_skip, Permutation_swap.
  - repeat constructor; vm_compute; try reflexivity; try discriminate.
  - split; [split; [reflexivity|by exists x7f, x00, x00, x01]|].
    split; [reflexivity|].
    intros [|[|[|i]]] c Hc; try discriminate; vm_compute; split; reflexivity.
Defined.


(** ** The datagrams of a response *)

Lemma chunkOf_frame t seq addr4 port chunk x :
  length addr4 = 4%nat →
  chunkOf (frame t seq addr4 port chunk ++ [x]) = chunk.
Proof.
  intros Ha. unfold chunkOf. rewrite length_app, length_frame, Ha.
  cbn [length].
  replace (7 + 4 + length chunk + 1 - 12)%nat with (length chunk) by lia.
  replace (frame t seq addr4 port chunk ++ [x])
    with (frame t seq addr4 port [] ++ (chunk ++ [x]))
    by (unfold frame; by rewrite app_nil_r, <- !app_assoc).
  rewrite drop_app_length' by (rewrite length_frame, Ha; done).
  by rewrite take_app_length.
Qed.

Lemma last_frame t seq addr4 port chunk x :
  list.last (frame t seq addr4 port chunk ++ [x]) = Some x.
Proof. apply last_snoc. Qed.

Lemma chunkFrames_cover N addr4 port pl n :
  length addr4 = 4%nat →
  ∀ seq c, 0 ≤ c → c + 1012 * Z.of_nat n ≤ Z.of_nat (length pl) →
    concat (chunkOf <$> chunkFrames N addr4 port pl n seq c)
    = take (Z.to_nat (1012 * Z.of_nat n)) (drop (Z.to_nat c) pl)
    ∧ Forall (λ b, length b = 1024%nat ∧ list.last b = Some (toByte N))
        (chunkFrames N addr4 port pl n seq c).
Proof.
  intros Ha. induction n as [|n IH]; intros seq c Hc Hlen.
  - cbn [chunkFrames fmap list_fmap concat]. split; [|constructor].
    replace (Z.to_nat (1012 * Z.of_nat 0)) with 0%nat by lia. done.
  - cbn [chunkFrames]. rewrite fmap_cons. cbn [concat].
    rewrite chunkOf_frame by done.
    destruct (IH (wrap32 (seq + 1)) (c + 1012)) as [IH1 IH2]; [lia|lia|].
    rewrite IH1. split.
    + replace (Z.to_nat (c + 1012)) with (Z.to_nat c + 1012)%nat by lia.
      rewrite <- drop_drop.
      replace (Z.to_nat (1012 * Z.of_nat (S n)))
        with (1012 + Z.to_nat (1012 * Z.of_nat n))%nat by lia.
      assert (length (take 1012 (drop (Z.to_nat c) pl)) = 1012%nat) as _
        by (rewrite length_take, length_drop; lia).
      apply take_take_drop.
    + constructor; [|done]. split; [|apply last_frame].
      rewrite length_app, length_frame, Ha, length_take, length_drop.
      cbn [length]. lia.
Qed.

(** X2. The datagrams of a response carry it whole: when the response is
    not empty and its length is at most 1012 or no multiple of 1012, the
    chunker builds ceil(length / 1012) datagrams, each of 13 to 1024
    bytes and ending in the low byte of their number, and the chunks
    after the 11-byte headers, joined in order, are the response. *)
Theorem response_chunks_cover o0 o1 o2 o3 port seq resp :
  let L := Z.of_nat (length resp) in
  let N := ceilDiv L 1012 in
  0 < L → L ≤ 1012 ∨ L mod 1012 ≠ 0 →
  ∃ bs,
    getResponsePacketBytes seq
      (dotted (byteZ o0) (byteZ o1) (byteZ o2) (byteZ o3)) port resp
    = Some (bs, N)
    ∧ Z.of_nat (length bs) = N
    ∧ concat (chunkOf <$> bs) = resp
    ∧ Forall (λ b, (13 ≤ length b ≤ 1024)%nat
                   ∧ list.last b = Some (toByte N)) bs.
Proof.
  intros L N HL Hres.
  destruct (decide (N = 1)) as [H1|H1].
  - assert (0 < length resp ≤ 1012)%nat as Hlen.
    { unfold N, ceilDiv in H1. revert H1. Z.div_mod_to_equations. slia. }
    rewrite getResponsePacketBytes_one by done. rewrite H1.
    eexists. split; [done|]. split; [done|]. split.
    + cbn [fmap list_fmap concat]. rewrite chunkOf_frame by done.
      apply app_nil_r.
    + constructor; [|constructor]. split; [|apply last_frame].
      rewrite length_app, length_frame. cbn [length]. lia.
  - pose proof (getResponsePacketBytes_multi o0 o1 o2 o3 port seq resp) as H.
    cbv zeta in H. rewrite (H H1). clear H. fold L. fold N.
    assert (HL0 : 0 ≤ L) by lia.
    pose proof (ceilDiv_upper L HL0) as Hup.
    destruct (ceilDiv_bounds L HL0) as [[_ Hlow]|[? _]]; [|lia].
    fold N in Hup, Hlow.
    assert (HN2 : 2 ≤ N) by lia.
    assert (Hmod : 0 < L mod 1012).
    { destruct Hres as [Hres|Hres]; [lia|].
      pose proof (Z.mod_pos_bound L 1012). lia. }
    destruct (Z.ltb_spec 0 (L mod 1012)) as [_|?]; [|lia].
    destruct (chunkFrames_cover N [o0; o1; o2; o3] port resp
                (Z.to_nat (N - 1)) eq_refl seq 0) as [Hcat Hall];
      [lia|slia|].
    eexists. split; [done|]. split; [|split].
    + rewrite length_app, length_chunkFrames. cbn [length]. lia.
    + rewrite fmap_app, concat_app, Hcat. cbn [fmap list_fmap concat].
      rewrite chunkOf_frame by done. rewrite app_nil_r.
      change (Z.to_nat 0) with 0%nat. rewrite drop_0.
      replace (Z.to_nat (1012 * Z.of_nat (Z.to_nat (N - 1))))
        with (Z.to_nat (1012 * (N - 1))) by lia.
      apply take_drop.
    + apply Forall_app. split.
      * eapply list.Forall_impl; [exact Hall|].
        intros b [-> ?]. split; [lia|done].
      * constructor; [|constructor]. split; [|apply last_frame].
        rewrite length_app, length_frame, length_drop. cbn [length]. slia.
Qed.

Lemma response_chunks_cover_witness :
  ∃ bs,
    getResponsePacketBytes 1
      (dotted (byteZ x7f) (byteZ x00) (byteZ x00) (byteZ x01)) 8080
      (replicate 2000 "a"%byte)
    = Some (bs, ceilDiv (Z.of_nat (length (replicate 2000 "a"%byte))) 1012)
    ∧ Z.of_nat (length bs)
      = ceilDiv (Z.of_nat (length (replicate 2000 "a"%byte))) 1012
    ∧ concat (chunkOf <$> bs) = replicate 2000 "a"%byte
    ∧ Forall (λ b, (13 ≤ length b ≤ 1024)%nat
                   ∧ list.last b
                     = Some (toByte (ceilDiv (Z.of_nat (length (replicate 2000 "a"%byte))) 1012)))
        bs.
Proof.
  apply (response_chunks_cover x7f x00 x00 x01 8080 1 (replicate 2000 "a"%byte)).
  - rewrite length_replicate. lia.
  - right. rewrite length_replicate. vm_compute. discriminate.
Defined.


(** ** Decimal numbers *)

Lemma isDigit_toByte d : 0 ≤ d < 10 → isDigit (toByte (48 + d)) = true.
Proof.
  intros H. unfold isDigit. rewrite byteZ_toByte, Z.mod_small by lia. lia.
Qed.

Lemma digitsValue_snoc ds c :
  digitsValue (ds ++ [c]) = 10 * digitsValue ds + (byteZ c - 48).
Proof. unfold digitsValue. by rewrite fold_left_app. Qed.

(** [digits] writes the decimal digits of [n] in front of [acc]. *)
Lemma digits_spec fuel : ∀ n acc,
  0 ≤ n < 10 ^ Z.of_nat (S fuel) →
  ∃ d ds, digits (S fuel) n acc = (d :: ds) ++ acc
          ∧ forallb isDigit (d :: ds) = true
          ∧ digitsValue (d :: ds) = n.
Proof.
  induction fuel as [|fuel IH]; intros n acc Hn;
    (assert (Hd : 0 ≤ n mod 10 < 10) by (apply Z.mod_pos_bound; lia));
    (assert (Hsmall : n < 10 →
       ∃ d ds, toByte (48 + n mod 10) :: acc = (d :: ds) ++ acc
               ∧ forallb isDigit (d :: ds) = true
               ∧ digitsValue (d :: ds) = n);
     [intros Hlt; exists (toByte (48 + n mod 10)), [];
      split; [done|]; split;
      [cbn [forallb]; by rewrite isDigit_toByte
      |unfold digitsValue; cbn [fold_left];
       rewrite byteZ_toByte, (Z.mod_small (48 + _)) by lia;
       rewrite Z.mod_small; lia]|]).
  - change (10 ^ Z.of_nat 1) with 10 in Hn. cbn [digits].
    destruct (Z.ltb_spec n 10) as [Hlt|Hge]; [by apply Hsmall|lia].
  - cbn [digits]. fold (digits (S fuel)).
    destruct (Z.ltb_spec n 10) as [Hlt|Hge]; [by apply Hsmall|].
    change (if n / 10 <? 10 then _ else _)
      with (digits (S fuel) (n / 10) (toByte (48 + n mod 10) :: acc)).
    destruct (IH (n / 10) (toByte (48 + n mod 10) :: acc))
      as (d & ds & -> & Hall & Hval).
    { rewrite (Nat2Z.inj_succ (S fuel)), Z.pow_succ_r in Hn by lia.
      split; [apply Z.div_pos; lia|].
      apply Z.div_lt_upper_bound; lia. }
    exists d, (ds ++ [toByte (48 + n mod 10)]). split; [|split].
    + cbn [app]. by rewrite <- app_assoc.
    + change (d :: ds ++ [toByte (48 + n mod 10)])
        with ((d :: ds) ++ [toByte (48 + n mod 10)]).
      rewrite forallb_app, Hall. cbn [forallb].
      by rewrite isDigit_toByte.
    + change (d :: ds ++ [toByte (48 + n mod 10)])
        with ((d :: ds) ++ [toByte (48 + n mod 10)]).
      rewrite digitsValue_snoc, Hval, byteZ_toByte, (Z.mod_small (48 + _)) by lia.
      pose proof (Z.div_mod n 10). lia.
Qed.

Lemma isDigit_not_sign c :
  isDigit c = true → Byte.eqb c "-"%byte = false ∧ Byte.eqb c "+"%byte = false.
Proof. destruct c; vm_compute; intros; (done || by split). Qed.

(** [strconv.Atoi] reads back what [%d] prints, for every non-negative
    [int]. *)
Lemma Atoi_Itoa n : 0 ≤ n < 2 ^ 63 → Atoi (Itoa n) = (n, false).
Proof.
  intros Hn. unfold Itoa.
  destruct (Z.ltb_spec n 0) as [?|_]; [lia|].
  destruct (digits_spec 19 n []) as (d & ds & -> & Hall & Hval).
  { change (10 ^ Z.of_nat 20) with 100000000000000000000. lia. }
  rewrite app_nil_r. unfold Atoi.
  pose proof Hall as Hall'. cbn [forallb] in Hall'.
  apply andb_prop in Hall' as [Hd _].
  destruct (isDigit_not_sign d Hd) as [-> ->].
  rewrite Hall, Hval.
  destruct (Z.leb_spec (2 ^ 63) n) as [?|_]; [lia|done].
Qed.


(** ** What a session keeps *)

Section Keeps.

Variable handleUdpConnection : list byte → option (list byte).

(** What a pass through the loop body leaves as it is. *)
Lemma step_frame s packet t s' :
sessionInv s → wfPacket packet →
sessionStep handleUdpConnection packet s = (t, Some s') →
hostAddr s' = hostAddr s ∧ hostPort s' = hostPort s
∧ acks s `prefix_of` acks s' ∧ naks s `prefix_of` naks s'
∧ (∀ q, inAcks q (acks s) = true →
        httpPayload s' !! Z.to_nat q = httpPayload s !! Z.to_nat q).
Proof.
intros Hinv Hwf Hstep.
destruct (wfPacket_inv _ Hwf)
  as (ty & r & a0 & a1 & a2 & a3 & port & Hty & Hseq & Ha & Hp & Hr).
pose proof Hinv as ((Hlen & (o0 & o1 & o2 & o3 & Haddr)) & He & Hacks).
assert (Hsame : hostAddr s' = hostAddr s → hostPort s' = hostPort s →
  acks s' = acks s → naks s' = naks s → httpPayload s' = httpPayload s →
  hostAddr s' = hostAddr s ∧ hostPort s' = hostPort s
  ∧ acks s `prefix_of` acks s' ∧ naks s `prefix_of` naks s'
  ∧ (∀ q, inAcks q (acks s) = true →
          httpPayload s' !! Z.to_nat q = httpPayload s !! Z.to_nat q)).
{ intros -> -> -> -> ->. done. }
destruct (decide (byteZ ty = 0)) as [H0|H0];
  [|destruct (decide (byteZ ty = 1)) as [H1|H1];
    [|destruct (decide (byteZ ty = 2)) as [H2|H2];
      [|destruct (decide (byteZ ty = 4)) as [H4|H4]]]].
- rewrite (sessionStep_data_closed _ o0 o1 o2 o3 port packet Hp
             a0 a1 a2 a3 ty r Ha Hty Hseq s H0 Haddr Hlen) in Hstep.
  destruct (inAcks r (acks s)) eqn:Hin.
  { injection Hstep as <- <-. by apply Hsame. }
  destruct (setAt (httpPayload s) r (payload packet)) as [hp|] eqn:Hset;
    [|done].
  apply setAt_inv in Hset as [Hrange ->].
  set (hp := <[Z.to_nat r:=payload packet]> (httpPayload s)) in *.
  destruct (accepted_frame s r hp) as (Ha1 & Ha2 & _).
  destruct (accepted_fields s r hp) as (Hf1 & Hf2 & Hf3 & _).
  assert (Hgoal : ∀ s'', hostAddr s'' = hostAddr (accepted s r hp) →
    hostPort s'' = hostPort (accepted s r hp) →
    acks s'' = acks (accepted s r hp) → naks s'' = naks (accepted s r hp) →
    httpPayload s'' = httpPayload (accepted s r hp) →
    hostAddr s'' = hostAddr s ∧ hostPort s'' = hostPort s
    ∧ acks s `prefix_of` acks s'' ∧ naks s `prefix_of` naks s''
    ∧ (∀ q, inAcks q (acks s) = true →
            httpPayload s'' !! Z.to_nat q = httpPayload s !! Z.to_nat q)).
  { intros s'' -> -> -> -> ->. rewrite Ha1, Ha2, Hf1, Hf2.
    repeat split; try done; [by apply prefix_app_r|].
    intros q Hq. unfold hp. apply list_lookup_insert_ne.
    intros Heq. assert (q ≠ r) by (intros ->; congruence).
    apply inAcks_true in Hq. rewrite list.Forall_forall in Hacks.
    apply Hacks in Hq. lia. }
  cbv zeta in Hstep.
  destruct (requestComplete _) as [[]|]; [| |done].
  + destruct (writeResponseToClient _ _ _ _ _) as [t' [[rp n']|]]; [|done].
    injection Hstep as <- <-. by apply Hgoal.
  + injection Hstep as <- <-. by apply Hgoal.
- rewrite (sessionStep_ack _ port packet Hp a0 a1 a2 a3 ty r Ha Hty Hseq s H1)
    in Hstep.
  destruct (r =? 3); [injection Hstep as <- <-; by apply Hsame|].
  destruct (remove (responseNaksList s) packet) as [l'|]; [|done].
  destruct (sendUnreceivedResponsePackets _ _) as [t' [[]|]]; [|done].
  injection Hstep as <- <-. by apply Hsame.
- rewrite (sessionStep_syn _ port packet Hp a0 a1 a2 a3 ty r Ha Hty Hseq s H2)
    in Hstep.
  injection Hstep as <- <-. destruct (0 <? _); by apply Hsame.
- rewrite (sessionStep_nak _ port packet Hp a0 a1 a2 a3 ty r Ha Hty Hseq s H4)
    in Hstep.
  destruct (sendUnreceivedResponsePackets _ _) as [t' [[]|]]; [|done].
  injection Hstep as <- <-. by apply Hsame.
- rewrite (sessionStep_other _ port packet Hp a0 a1 a2 a3 ty r Ha Hty Hseq s
             H0 H1 H2 H4) in Hstep.
  injection Hstep as <- <-. by apply Hsame.
Qed.

(** X3. Whatever packets a session takes from its inbox, for as long as
  its goroutine lives: the peer address and port it answers to never
  change, the lists of acknowledged and of NAKed sequence numbers only
  grow at the end, and the reassembly slot of an acknowledged sequence
  number is never written again. *)
Theorem session_keeps packets : ∀ s t s',
sessionInv s → Forall wfPacket packets →
serveSession handleUdpConnection packets s = (t, Some s') →
hostAddr s' = hostAddr s ∧ hostPort s' = hostPort s
∧ acks s `prefix_of` acks s' ∧ naks s `prefix_of` naks s'
∧ (∀ q, inAcks q (acks s) = true →
        httpPayload s' !! Z.to_nat q = httpPayload s !! Z.to_nat q).
Proof.
induction packets as [|packet packets IH]; intros s t s' Hinv Hwf Hrun.
- injection Hrun as <- <-. done.
- apply list.Forall_cons in Hwf as [Hwf1 Hwf].
  cbn [serveSession] in Hrun.
  destruct (sessionStep handleUdpConnection packet s) as [t1 [s1|]] eqn:Hstep;
    [|done].
  destruct (serveSession handleUdpConnection packets s1) as [t2 o] eqn:Hrest.
  injection Hrun as <- ->.
  destruct (step_inv _ _ _ _ _ Hinv Hwf1 Hstep) as [Hinv1 _].
  destruct (step_frame _ _ _ _ Hinv Hwf1 Hstep)
    as (Hs1 & Hs2 & Hs3 & Hs4 & Hs5).
  destruct (IH _ _ _ Hinv1 Hwf Hrest) as (Hr1 & Hr2 & Hr3 & Hr4 & Hr5).
  destruct (step_acks _ _ _ _ _ Hinv Hwf1 Hstep) as [Hmono _].
  split; [congruence|]. split; [congruence|].
  split; [by etrans|]. split; [by etrans|].
  intros q Hq. rewrite Hr5 by (by apply Hmono). by apply Hs5.
Qed.

End Keeps.

Lemma session_keeps_witness :
  hostAddr aheadSession = hostAddr (announcedSession "3")
  ∧ hostPort aheadSession = hostPort (announcedSession "3")
  ∧ acks (announcedSession "3") `prefix_of` acks aheadSession
  ∧ naks (announcedSession "3") `prefix_of` naks aheadSession
  ∧ (∀ q, inAcks q (acks (announcedSession "3")) = true →
          httpPayload aheadSession !! Z.to_nat q
          = httpPayload (announcedSession "3") !! Z.to_nat q).
Proof.
  apply (session_keeps echoBridge
           [peerPacket 0 6 (lit "c"); peerPacket 0 4 (lit "a")]
           (announcedSession "3")
           (serveSession echoBridge
              [peerPacket 0 6 (lit "c"); peerPacket 0 4 (lit "a")]
              (announcedSession "3")).1
           aheadSession).
  - apply (reachable_inv echoBridge), announced3_reachable.
  - repeat constructor.
  - vm_compute. reflexivity.
Defined.


(** ** The handshake *)

Lemma sent_log_prefix (c : bool) e t :
  sent ((if c then [LogInfo e] else []) ++ t) = sent t.
Proof. by destruct c. Qed.

Lemma handled_log_prefix (c : bool) e t :
  handled ((if c then [LogInfo e] else []) ++ t) = handled t.
Proof. by destruct c. Qed.

Lemma wrap32_range x : 0 ≤ wrap32 x < 2 ^ 32.
Proof. unfold wrap32. apply Z.mod_pos_bound. lia. Qed.

(** The events of [k] writes of the datagram [b] that failed. *)
Lemma synAckLoop_failing b k :
  synAckLoop b (replicate k false)
  = (concat (replicate k [WriteToUDP b; LogInfo (lit "Timeout handshaking!")]),
     Some false).
Proof.
  induction k as [|k IH]; cbn [replicate synAckLoop concat]; [done|].
  rewrite !bind_emit, IH. done.
Qed.

Lemma synAckLoop_ending b k rest :
  synAckLoop b (replicate k false ++ true :: rest)
  = (concat (replicate k [WriteToUDP b; LogInfo (lit "Timeout handshaking!")])
       ++ [WriteToUDP b],
     Some true).
Proof.
  induction k as [|k IH]; cbn [replicate synAckLoop concat app].
  - by rewrite bind_emit.
  - rewrite !bind_emit, IH. done.
Qed.

Lemma sent_failed_writes b e k :
  sent (concat (replicate k [WriteToUDP b; LogInfo e])) = replicate k b.
Proof.
  induction k as [|k IH]; cbn [replicate concat app sent]; [done|].
  by rewrite IH.
Qed.

Lemma handled_failed_writes b e k :
  handled (concat (replicate k [WriteToUDP b; LogInfo e])) = [].
Proof. induction k as [|k IH]; cbn [replicate concat app handled]; done. Qed.

Lemma run_io_done {A B} (t : list Event) (a : A) (f : A → Loop B) s :
  (io (t, Some a) ≫= f) s = (t ++ (f a s).1, (f a s).2).
Proof.
  unfold mbind, Loop_mbind, Loop_bind, io. by destruct (f a s).
Qed.

Section RetrySyn.

Variable handleUdpConnection : list byte → option (list byte).
Variables (packet : UDPPacket) (port : Z) (a0 a1 a2 a3 ty : byte) (r : Z).

Hypothesis Hport : Uint16 (peerPort packet) = Some port.
Hypothesis Haddr : peerAddr packet = [a0; a1; a2; a3].
Hypothesis Hty : pType packet !! 0%nat = Some ty.
Hypothesis Hseq : Uint32 (seqNo packet) = Some r.
Hypothesis H2 : byteZ ty = 2.

(** The handshake on a SYN, as far as the retry loop goes. *)
Lemma handleHandshakePacketRetry_syn outcomes :
handleHandshakePacketRetry outcomes packet
= match synAckLoop (frame 3 (wrap32 (r + 1)) [a0; a1; a2; a3] port [])
          outcomes with
  | (t, Some true) =>
      ((if (Atoi (payload packet)).2
        then [LogInfo (lit "Corrupt SYN packet!")] else [])
       ++ t ++ [LogInfo (lit "SYN'd packet " ++ Itoa r)],
       Some (Some (Some (Atoi (payload packet)).1)))
  | (t, Some false) =>
      ((if (Atoi (payload packet)).2
        then [LogInfo (lit "Corrupt SYN packet!")] else []) ++ t,
       Some None)
  | (t, None) =>
      ((if (Atoi (payload packet)).2
        then [LogInfo (lit "Corrupt SYN packet!")] else []) ++ t,
       None)
  end.
Proof.
unfold handleHandshakePacketRetry.
rewrite (getAddressFromBytes_packet _ _ _ _ _ Haddr), bind_orPanic_Some.
rewrite Hty, bind_orPanic_Some, H2. change (2 =? 2) with true. cbv iota.
rewrite Hseq, bind_orPanic_Some.
destruct (Atoi (payload packet)) as [n err]. cbn [fst snd].
destruct err; [rewrite !bind_emit|rewrite !bind_mret]; cbn beta;
  rewrite Hport, bind_orPanic_Some, MakePacket_dotted, bind_orPanic_Some;
  change (getBytesFromPacket _)
    with (frame 3 (wrap32 (r + 1)) [a0; a1; a2; a3] port []);
  destruct (synAckLoop _ outcomes) as [t [[]|]];
  cbn [mbind IO_mbind IO_bind mret IO_mret IO_ret emit fst snd app];
  rewrite ?app_nil_r; reflexivity.
Qed.

(** The pass on a SYN, as far as the retry loop goes. *)
Lemma sessionStepRetry_syn outcomes s :
sessionStepRetry handleUdpConnection outcomes packet s
= match synAckLoop (frame 3 (wrap32 (r + 1)) [a0; a1; a2; a3] port [])
          outcomes with
  | (t, Some true) =>
      ((if (Atoi (payload packet)).2
        then [LogInfo (lit "Corrupt SYN packet!")] else [])
       ++ t ++ [LogInfo (lit "SYN'd packet " ++ Itoa r)],
       Some (Some (if 0 <? (Atoi (payload packet)).1
                   then set_totalNumPackets (Atoi (payload packet)).1 s
                   else s)))
  | (t, Some false) =>
      ((if (Atoi (payload packet)).2
        then [LogInfo (lit "Corrupt SYN packet!")] else []) ++ t,
       Some None)
  | (t, None) =>
      ((if (Atoi (payload packet)).2
        then [LogInfo (lit "Corrupt SYN packet!")] else []) ++ t,
       None)
  end.
Proof.
unfold sessionStepRetry, loopBodyRetry.
rewrite Hseq, run_io_Some, Hty, run_io_Some, H2.
change (2 =? 4) with false. change (2 =? 1) with false.
change (2 =? 0) with false. cbv iota. rewrite !run_mret.
rewrite handleHandshakePacketRetry_syn.
destruct (synAckLoop _ outcomes) as [t [[]|]].
- rewrite run_io_done.
  destruct (0 <? (Atoi (payload packet)).1);
    [rewrite run_modify|rewrite run_mret]; cbn [fst snd mret Loop_mret Loop_ret];
    by rewrite app_nil_r.
- rewrite run_io_done. cbn [fst snd mret Loop_mret Loop_ret].
  by rewrite app_nil_r.
- reflexivity.
Qed.

End RetrySyn.

(** With a first write that succeeds the handshake is
    [handleHandshakePacket], whatever the packet. *)
Lemma handleHandshakePacketRetry_first rest packet :
  handleHandshakePacketRetry (true :: rest) packet
  = ((handleHandshakePacket packet).1, Some <$> (handleHandshakePacket packet).2).
Proof.
  unfold handleHandshakePacketRetry, handleHandshakePacket.
  destruct (getAddressFromBytes packet) as [hostAddr'|]; [|done].
  rewrite !bind_orPanic_Some.
  destruct (pType packet !! 0%nat) as [t|]; [|done].
  rewrite !bind_orPanic_Some.
  destruct (byteZ t =? 2); [|destruct (byteZ t =? 1)].
  - destruct (Uint32 (seqNo packet)) as [receivedSeq|]; [|done].
    rewrite !bind_orPanic_Some.
    destruct (Atoi (payload packet)) as [n err].
    destruct err; [rewrite !bind_emit|rewrite !bind_mret]; cbn beta;
      (destruct (Uint16 (peerPort packet)) as [port|]; [|done]);
      rewrite !bind_orPanic_Some;
      (destruct (MakePacket _ _ _ _ _) as [synAck|]; [|done]);
      rewrite !bind_orPanic_Some; reflexivity.
  - destruct (Uint32 (seqNo packet)) as [receivedSeq|]; [|done].
    rewrite !bind_orPanic_Some. reflexivity.
  - reflexivity.
Qed.

(** Two passes that agree up to their last step leave the session
    alike when the last steps do. *)
Lemma retryOutcome_bind {A} (m : Loop A) (f : A → Loop unit)
    (f' : A → Loop bool) s :
  (∀ a s1, retryOutcome (f' a s1)
           = ((outcome (f a s1)).1, Some <$> (outcome (f a s1)).2)) →
  retryOutcome ((m ≫= f') s)
  = ((outcome ((m ≫= f) s)).1, Some <$> (outcome ((m ≫= f) s)).2).
Proof.
  intros Hf. rewrite !run_bind.
  destruct (m s) as [t1 [a s1| s1|]]; cbn [fst snd]; [|done..].
  specialize (Hf a s1).
  destruct (f' a s1) as [t2 [[] s2|s2|]], (f a s1) as [t3 [[] s3|s3|]];
    cbn [retryOutcome outcome fst snd fmap option_fmap option_map] in *;
    congruence.
Qed.

(** [sessionStep] is the pass in which the first write of the handshake
    succeeds. *)
Lemma sessionStepRetry_first bridge rest packet s :
  sessionStepRetry bridge (true :: rest) packet s
  = ((sessionStep bridge packet s).1, Some <$> (sessionStep bridge packet s).2).
Proof.
  change (sessionStep bridge packet s) with (outcome (loopBody bridge packet s)).
  unfold sessionStepRetry, loopBodyRetry, loopBody.
  do 4 (apply retryOutcome_bind; intros ? ?).
  rewrite handleHandshakePacketRetry_first.
  destruct (handleHandshakePacket packet) as [th [[n|]|]]; cbn [fst snd fmap option_fmap option_map].
  - rewrite !run_io_done.
    destruct (0 <? n); [rewrite !run_modify|rewrite !run_mret];
      cbn [fst snd mret Loop_mret Loop_ret retryOutcome outcome];
      by rewrite ?app_nil_r.
  - rewrite !run_io_done. by rewrite !run_mret.
  - reflexivity.
Qed.

(** X4. A SYN is answered with SYN-ACKs until a write succeeds.  The
    SYN-ACK is a datagram of type 3 with the sequence number of the SYN
    plus one modulo 2^32.  When the first [k] writes fail and the next
    succeeds, the pass writes that datagram [k + 1] times and nothing
    else, hands nothing to the HTTP side and ends with the session
    alive: the number of request packets becomes the payload read as a
    decimal number when that is positive, and nothing else of the
    session changes.  While the writes fail the pass does not end: after
    [k] failed writes, whatever [k], it has written the datagram [k]
    times and is still in the retry loop, so a write that keeps failing
    holds the session there for good. *)
Theorem syn_answered bridge s packet r k rest :
  wfPacket packet →
  byteZ <$> pType packet !! 0%nat = Some 2 →
  Uint32 (seqNo packet) = Some r →
  ∃ b,
    headerOf b = Some (3, wrap32 (r + 1))
    ∧ (∃ t,
         sessionStepRetry bridge (replicate k false ++ true :: rest) packet s
         = (t, Some (Some (if 0 <? (Atoi (payload packet)).1
                           then set_totalNumPackets (Atoi (payload packet)).1 s
                           else s)))
         ∧ sent t = replicate (S k) b ∧ handled t = [])
    ∧ (∃ t,
         sessionStepRetry bridge (replicate k false) packet s = (t, Some None)
         ∧ sent t = replicate k b ∧ handled t = []).
Proof.
  intros Hwf Hty2 Hseq.
  destruct (wfPacket_inv _ Hwf)
    as (ty & r' & a0 & a1 & a2 & a3 & port & Hty & Hseq' & Ha & Hp & Hr).
  assert (r' = r) as -> by congruence.
  assert (byteZ ty = 2) as H2 by (rewrite Hty in Hty2; by injection Hty2).
  exists (frame 3 (wrap32 (r + 1)) [a0; a1; a2; a3] port []).
  split; [apply headerOf_frame; [done|lia|apply wrap32_range]|].
  split.
  - eexists. split.
    + rewrite (sessionStepRetry_syn bridge packet port a0 a1 a2 a3 ty r
                 Hp Ha Hty Hseq H2).
      rewrite synAckLoop_ending. reflexivity.
    + rewrite sent_log_prefix, handled_log_prefix.
      rewrite !sent_app, !handled_app, sent_failed_writes, handled_failed_writes.
      cbn [sent handled app]. split; [|done].
      rewrite app_nil_r. symmetry. apply replicate_S_end.
  - eexists. split.
    + rewrite (sessionStepRetry_syn bridge packet port a0 a1 a2 a3 ty r
                 Hp Ha Hty Hseq H2).
      rewrite synAckLoop_failing. reflexivity.
    + rewrite sent_log_prefix, handled_log_prefix.
      by rewrite sent_failed_writes, handled_failed_writes.
Qed.

Lemma syn_answered_witness :
  ∃ b,
    headerOf b = Some (3, wrap32 (2 + 1))
    ∧ (∃ t,
         sessionStepRetry echoBridge (replicate 2 false ++ true :: [])
           (peerPacket 2 2 (lit "3")) freshSession
         = (t, Some (Some (if 0 <? (Atoi (payload (peerPacket 2 2 (lit "3")))).1
                           then set_totalNumPackets
                                  (Atoi (payload (peerPacket 2 2 (lit "3")))).1
                                  freshSession
                           else freshSession)))
         ∧ sent t = replicate 3 b ∧ handled t = [])
    ∧ (∃ t,
         sessionStepRetry echoBridge (replicate 2 false)
           (peerPacket 2 2 (lit "3")) freshSession
         = (t, Some None)
         ∧ sent t = replicate 2 b ∧ handled t = []).
Proof.
  apply (syn_answered echoBridge freshSession (peerPacket 2 2 (lit "3")) 2
           2%nat []).
  - repeat split.
  - reflexivity.
  - reflexivity.
Defined.

(** X5. Announcing more request packets than the reassembly buffer has
    slots after the first four is fatal: after a SYN whose payload is a
    decimal number above 1020, the next DATA packet with a sequence
    number not yet acknowledged ends the goroutine of the session in a
    panic (the window of the completeness check, or the slot of the
    packet, is out of range), and the HTTP side is not reached. *)
Theorem oversized_announcement_panics bridge s syn data n q :
  wfSession s →
  wfPacket syn → byteZ <$> pType syn !! 0%nat = Some 2 →
  payload syn = Itoa n → 1020 < n < 2 ^ 63 →
  wfPacket data → byteZ <$> pType data !! 0%nat = Some 0 →
  Uint32 (seqNo data) = Some q → inAcks q (acks s) = false →
  (serveSession bridge [syn; data] s).2 = None
  ∧ handled (serveSession bridge [syn; data] s).1 = [].
Proof.
  intros [Hlen (o0 & o1 & o2 & o3 & Haddr)] Hwf1 Hty1 Hpl Hn Hwf2 Hty2 Hq Hin.
  destruct (wfPacket_inv _ Hwf1)
    as (ty & r & a0 & a1 & a2 & a3 & port & Hty & Hseq & Ha & Hp & Hr).
  assert (byteZ ty = 2) as H2 by (rewrite Hty in Hty1; by injection Hty1).
  cbn [serveSession].
  rewrite (sessionStep_syn _ port syn Hp a0 a1 a2 a3 ty r Ha Hty Hseq s H2).
  rewrite Hpl, Atoi_Itoa by lia. cbn [fst snd].
  destruct (Z.ltb_spec 0 n) as [_|?]; [|lia].
  destruct (wfPacket_inv _ Hwf2)
    as (ty' & r' & b0 & b1 & b2 & b3 & port' & Hty' & Hseq' & Hb & Hp' & Hr').
  assert (r' = q) as -> by congruence.
  assert (byteZ ty' = 0) as H0 by (rewrite Hty' in Hty2; by injection Hty2).
  rewrite (sessionStep_data_closed _ o0 o1 o2 o3 port' data Hp'
             b0 b1 b2 b3 ty' q Hb Hty' Hseq' (set_totalNumPackets n s) H0
             Haddr Hlen).
  cbn [set_totalNumPackets acks httpPayload]. rewrite Hin.
  destruct (setAt (httpPayload s) q (payload data)) as [hp|] eqn:Hset.
  - apply setAt_inv in Hset as [Hrange ->]. cbv zeta.
    set (hp := <[Z.to_nat q:=payload data]> (httpPayload s)).
    destruct (accepted_frame (set_totalNumPackets n s) q hp) as (_ & Hhp & Htot).
    cbn [set_totalNumPackets totalNumPackets] in Htot.
    assert (Hnone : requestComplete (accepted (set_totalNumPackets n s) q hp)
                    = None).
    { unfold requestComplete. rewrite Htot, Hhp.
      destruct (Z.eqb_spec n 1) as [?|_]; [lia|]. cbn [andb].
      rewrite sub_None; [done|]. unfold hp. rewrite length_insert. lia. }
    rewrite Hnone. cbn [fst snd].
    split; [done|]. rewrite handled_app, handled_dataEvents. done.
  - destruct (q =? _); cbn [fst snd]; (split; [done|]);
      rewrite handled_app; done.
Qed.

Lemma oversized_announcement_panics_witness :
  (serveSession echoBridge
     [peerPacket 2 2 (Itoa 1021); peerPacket 0 4 (lit "x")] freshSession).2
  = None
  ∧ handled
      (serveSession echoBridge
         [peerPacket 2 2 (Itoa 1021); peerPacket 0 4 (lit "x")] freshSession).1
    = [].
Proof.
  apply (oversized_announcement_panics echoBridge freshSession
           (peerPacket 2 2 (Itoa 1021)) (peerPacket 0 4 (lit "x")) 1021 4).
  - split; [reflexivity|by exists x7f, x00, x00, x01].
  - repeat split.
  - reflexivity.
  - reflexivity.
  - lia.
  - repeat split.
  - reflexivity.
  - reflexivity.
  - reflexivity.
Defined.


(** ** Packets that a session drops *)

Lemma reachable_zero_acked bridge s :
  reachable bridge s → inAcks 0 (acks s) = true.
Proof.
  induction 1 as [d packet a p key Hd|s d packet a p key t s' Hs IH Hd Hstep].
  - done.
  - pose proof (reachable_inv bridge s Hs) as Hinv.
    apply decodeStep_inv in Hd as [Hwf _].
    destruct (step_acks _ _ _ _ _ Hinv Hwf Hstep) as [Hmono _]. by apply Hmono.
Qed.

(** X6. Sequence number 0 is taken from the start: the list of
    acknowledged numbers is created holding zeros, so in every session
    the server can reach a DATA packet with sequence number 0 is dropped
    like a duplicate, without an ACK, a store or a log line. *)
Theorem data_zero_dropped bridge s packet :
  reachable bridge s → wfPacket packet →
  byteZ <$> pType packet !! 0%nat = Some 0 →
  Uint32 (seqNo packet) = Some 0 →
  sessionStep bridge packet s = ([], Some s).
Proof.
  intros Hs Hwf Hty0 Hseq.
  destruct (wfPacket_inv _ Hwf)
    as (ty & r & a0 & a1 & a2 & a3 & port & Hty & Hseq' & Ha & Hp & Hr).
  assert (r = 0) as -> by congruence.
  assert (byteZ ty = 0) as H0 by (rewrite Hty in Hty0; by injection Hty0).
  rewrite (sessionStep_data _ port packet Hp a0 a1 a2 a3 ty 0 Ha Hty Hseq s H0).
  by rewrite (reachable_zero_acked bridge s Hs).
Qed.

Lemma data_zero_dropped_witness :
  sessionStep echoBridge (peerPacket 0 0 (lit "x")) (announcedSession "3")
  = ([], Some (announcedSession "3")).
Proof.
  apply (data_zero_dropped echoBridge (announcedSession "3")
           (peerPacket 0 0 (lit "x"))).
  - exact announced3_reachable.
  - repeat split.
  - reflexivity.
  - reflexivity.
Defined.

(** X7. Packets without effect: a packet whose type is none of DATA (0),
    ACK (1), SYN (2) and NAK (4), a SYN-ACK (3) among them, and an ACK
    with sequence number 3, which is taken for the ACK of the handshake
    whatever NAKs are pending, leave the session as it is and write and
    log nothing. *)
Theorem ignored_packets bridge s packet ty r :
  wfPacket packet →
  pType packet !! 0%nat = Some ty → Uint32 (seqNo packet) = Some r →
  (byteZ ty ≠ 0 ∧ byteZ ty ≠ 1 ∧ byteZ ty ≠ 2 ∧ byteZ ty ≠ 4)
  ∨ (byteZ ty = 1 ∧ r = 3) →
  sessionStep bridge packet s = ([], Some s).
Proof.
  intros Hwf Hty Hseq Hcase.
  destruct (wfPacket_inv _ Hwf)
    as (ty' & r' & a0 & a1 & a2 & a3 & port & Hty' & Hseq' & Ha & Hp & Hr).
  destruct Hcase as [(H0 & H1 & H2 & H4)|[H1 ->]].
  - exact (sessionStep_other _ port packet Hp a0 a1 a2 a3 ty r Ha Hty Hseq s
             H0 H1 H2 H4).
  - by rewrite (sessionStep_ack _ port packet Hp a0 a1 a2 a3 ty 3 Ha Hty Hseq s H1).
Qed.

Lemma ignored_packets_witness :
  sessionStep echoBridge (peerPacket 1 3 []) answeredSession
  = ([], Some answeredSession).
Proof.
  apply (ignored_packets echoBridge answeredSession (peerPacket 1 3 []) x01 3).
  - repeat split.
  - reflexivity.
  - reflexivity.
  - right. split; reflexivity.
Defined.

(** ** ACKs from the peer *)

Lemma remove_first l1 : ∀ nak l2 ack k,
  Uint32 (seqNo ack) = Some k → Uint32 (seqNo nak) = Some k →
  Forall (λ p, ∃ j, Uint32 (seqNo p) = Some j ∧ j ≠ k) l1 →
  remove (l1 ++ nak :: l2) ack = Some (l1 ++ l2).
Proof.
  induction l1 as [|p l1 IH]; intros nak l2 ack k Hack Hnak Hl1.
  - cbn [app remove]. rewrite Hnak, Hack. cbn [mbind option_bind].
    by rewrite Z.eqb_refl.
  - apply list.Forall_cons in Hl1 as [(j & Hj & Hne) Hl1].
    cbn [app remove]. rewrite Hj, Hack. cbn [mbind option_bind].
    destruct (Z.eqb_spec j k) as [?|_]; [done|].
    by rewrite (IH nak l2 ack k Hack Hnak Hl1).
Qed.

Lemma remove_absent l : ∀ ack k,
  Uint32 (seqNo ack) = Some k →
  Forall (λ p, ∃ j, Uint32 (seqNo p) = Some j ∧ j ≠ k) l →
  remove l ack = Some l.
Proof.
  induction l as [|p l IH]; intros ack k Hack Hl; [done|].
  apply list.Forall_cons in Hl as [(j & Hj & Hne) Hl].
  cbn [remove]. rewrite Hj, Hack. cbn [mbind option_bind].
  destruct (Z.eqb_spec j k) as [?|_]; [done|].
  by rewrite (IH ack k Hack Hl).
Qed.

Lemma somePrefix_all {A B} (f : A → option B) l :
  Forall (λ x, is_Some (f x)) l → Some <$> somePrefix f l = f <$> l.
Proof.
  induction 1 as [|x l [y Hy] _ IH]; [done|].
  cbn [somePrefix]. rewrite Hy. rewrite !fmap_cons, IH, Hy. done.
Qed.

Lemma forallb_is_Some {A B} (f : A → option B) l :
  Forall (λ x, is_Some (f x)) l →
  forallb (λ x, bool_decide (is_Some (f x))) l = true.
Proof.
  induction 1 as [|x l Hx _ IH]; [done|].
  cbn [forallb]. by rewrite IH, bool_decide_eq_true_2.
Qed.

(** X8. An ACK for sequence number k other than 3 clears the oldest
    pending NAK for k and no other: with the NAKs before it asking for
    other numbers, and every NAK that stays pending asking for a stored
    response packet, the session goes on with the pending list without
    that NAK, and writes again, in order, the response packet of every
    NAK that stays pending. *)
Theorem ack_clears_oldest_nak bridge s ack k l1 nak l2 :
  wfPacket ack → byteZ <$> pType ack !! 0%nat = Some 1 →
  Uint32 (seqNo ack) = Some k → k ≠ 3 →
  responseNaksList s = l1 ++ nak :: l2 →
  Uint32 (seqNo nak) = Some k →
  Forall (λ p, ∃ j, Uint32 (seqNo p) = Some j ∧ j ≠ k) l1 →
  Forall (λ p, is_Some (lookupNak (responsePackets s) p)) (l1 ++ l2) →
  ∃ t,
    sessionStep bridge ack s
    = (t, Some (set_responseNaksList (l1 ++ l2) s))
    ∧ Some <$> sent t = lookupNak (responsePackets s) <$> (l1 ++ l2)
    ∧ handled t = [].
Proof.
  intros Hwf Hty1 Hseq Hk Hl Hnak Hl1 Hstored.
  destruct (wfPacket_inv _ Hwf)
    as (ty & r & a0 & a1 & a2 & a3 & port & Hty & Hseq' & Ha & Hp & Hr).
  assert (r = k) as -> by congruence.
  assert (byteZ ty = 1) as H1 by (rewrite Hty in Hty1; by injection Hty1).
  rewrite (sessionStep_ack _ port ack Hp a0 a1 a2 a3 ty k Ha Hty Hseq s H1).
  destruct (Z.eqb_spec k 3) as [?|_]; [done|].
  rewrite Hl, (remove_first l1 nak l2 ack k Hseq Hnak Hl1).
  rewrite sendUnreceived_spec, (forallb_is_Some _ _ Hstored).
  eexists. split; [reflexivity|].
  rewrite sent_app, handled_app, sent_writes, handled_writes.
  cbn [sent handled]. rewrite app_nil_r.
  split; [by apply somePrefix_all|done].
Qed.

Lemma ack_clears_oldest_nak_witness :
  ∃ t,
    sessionStep echoBridge (peerPacket 1 1 []) nakedSession
    = (t, Some (set_responseNaksList ([] ++ [peerPacket 4 1 []]) nakedSession))
    ∧ Some <$> sent t
      = lookupNak (responsePackets nakedSession) <$> ([] ++ [peerPacket 4 1 []])
    ∧ handled t = [].
Proof.
  apply (ack_clears_oldest_nak echoBridge nakedSession (peerPacket 1 1 []) 1
           [] (peerPacket 4 1 []) [peerPacket 4 1 []]).
  - repeat split.
  - reflexivity.
  - reflexivity.
  - lia.
  - vm_compute. reflexivity.
  - reflexivity.
  - constructor.
  - constructor; [|constructor].
    apply (bool_decide_unpack _). vm_compute. reflexivity.
Defined.


(** ** The key of a session *)

Lemma PutUint16_Uint16 b0 b1 v :
  Uint16 [b0; b1] = Some v → PutUint16 v = [b0; b1].
Proof.
  intros [= <-]. unfold PutUint16.
  pose proof (byteZ_range b0) as H0. pose proof (byteZ_range b1) as H1.
  assert (Hlow : ∀ b n, 8 ≤ n → Z.testbit (byteZ b) n = false).
  { intros b n Hn. pose proof (byteZ_range b).
    destruct (decide (byteZ b = 0)) as [->|?]; [apply Z.bits_0|].
    apply Z.bits_above_log2; [lia|].
    assert (Z.log2 (byteZ b) < 8) by (apply Z.log2_lt_pow2; lia). lia. }
  f_equal; [|f_equal].
  - rewrite <- (toByte_byteZ b0) at 2. unfold toByte. do 3 f_equal.
    rewrite (Z.mod_small (byteZ b0)) by lia. change 256 with (2 ^ 8).
    apply Z.bits_inj'. intros n Hn.
    destruct (decide (n < 8)).
    + rewrite Z.mod_pow2_bits_low by lia.
      rewrite Z.shiftr_spec, Z.lor_spec, Z.shiftl_spec by lia.
      rewrite (Hlow b1) by lia. rewrite orb_false_r. f_equal. lia.
    + rewrite Z.mod_pow2_bits_high by lia. symmetry. apply Hlow. lia.
  - rewrite <- (toByte_byteZ b1) at 2. unfold toByte. do 3 f_equal.
    rewrite (Z.mod_small (byteZ b1)) by lia. change 256 with (2 ^ 8).
    apply Z.bits_inj'. intros n Hn.
    destruct (decide (n < 8)).
    + rewrite Z.mod_pow2_bits_low by lia.
      rewrite Z.lor_spec, Z.shiftl_spec by lia.
      rewrite (Z.testbit_neg_r _ (n - 8)) by lia. done.
    + rewrite Z.mod_pow2_bits_high by lia. symmetry. apply Hlow. lia.
Qed.

Lemma app_sep_inj (sep : byte) (l1 : list byte) : ∀ r1 l2 r2,
  sep ∉ l1 → sep ∉ l2 →
  l1 ++ sep :: r1 = l2 ++ sep :: r2 → l1 = l2 ∧ r1 = r2.
Proof.
  induction l1 as [|c l1 IH]; intros r1 l2 r2 H1 H2 Heq.
  - destruct l2 as [|c2 l2]; [by injection Heq|].
    injection Heq as -> _. destruct H2. apply list_elem_of_here.
  - destruct l2 as [|c2 l2].
    + injection Heq as -> _. destruct H1. apply list_elem_of_here.
    + injection Heq as -> Heq.
      destruct (IH r1 l2 r2) as [-> ->]; try done.
      * intros ?. apply H1. by apply list_elem_of_further.
      * intros ?. apply H2. by apply list_elem_of_further.
Qed.

Lemma noColon_spec s : noColon s = true → ":"%byte ∉ s.
Proof.
  unfold noColon. intros H Hin. rewrite forallb_forall in H.
  apply list_elem_of_In, H in Hin.
  by rewrite (Byte.byte_dec_lb (x:=":"%byte) eq_refl) in Hin.
Qed.

Lemma Itoa_byte_noColon b : noColon (Itoa (byteZ b)) = true.
Proof. destruct b; vm_compute; reflexivity. Qed.

Lemma dotted_noColon o0 o1 o2 o3 :
  ":"%byte ∉ dotted (byteZ o0) (byteZ o1) (byteZ o2) (byteZ o3).
Proof.
  apply noColon_spec. unfold dotted, noColon.
  rewrite !forallb_app. fold (noColon (Itoa (byteZ o0))).
  fold (noColon (Itoa (byteZ o1))). fold (noColon (Itoa (byteZ o2))).
  fold (noColon (Itoa (byteZ o3))). by rewrite !Itoa_byte_noColon.
Qed.

Lemma dotted_inj o0 o1 o2 o3 q0 q1 q2 q3 :
  dotted (byteZ o0) (byteZ o1) (byteZ o2) (byteZ o3)
  = dotted (byteZ q0) (byteZ q1) (byteZ q2) (byteZ q3) →
  [o0; o1; o2; o3] = [q0; q1; q2; q3].
Proof.
  intros H. apply (f_equal (λ s, Split s "."%byte)) in H.
  rewrite !Split_dotted in H.
  assert (Hb : ∀ a b, Itoa (byteZ a) = Itoa (byteZ b) → a = b).
  { intros a b Hab. apply (f_equal Atoi) in Hab.
    rewrite !Atoi_Itoa_byte in Hab.
    rewrite <- (toByte_byteZ a), <- (toByte_byteZ b). congruence. }
  injection H as ?%Hb ?%Hb ?%Hb ?%Hb. congruence.
Qed.

(** X9. The key under which the server files a datagram names its
    sender fields and nothing else: two decoded datagrams get the same
    key, and so the same session, exactly when their peer address and
    peer port bytes agree. *)
Theorem clientKey_injective d1 d2 p1 a1 h1 k1 p2 a2 h2 k2 :
  decodeStep d1 = Some (p1, a1, h1, k1) →
  decodeStep d2 = Some (p2, a2, h2, k2) →
  k1 = k2 ↔ peerAddr p1 = peerAddr p2 ∧ peerPort p1 = peerPort p2.
Proof.
  assert (Hkey : ∀ d p a h k, decodeStep d = Some (p, a, h, k) →
    ∃ o0 o1 o2 o3 c0 c1,
      peerAddr p = [o0; o1; o2; o3] ∧ peerPort p = [c0; c1]
      ∧ Uint16 [c0; c1] = Some h
      ∧ k = dotted (byteZ o0) (byteZ o1) (byteZ o2) (byteZ o3)
            ++ ":"%byte :: Itoa h).
  { intros d p a h k H. unfold decodeStep in H.
    destruct (parsePacket (readFromUDP d)) as [p'|] eqn:E; [|done].
    pose proof (parsePacket_wf _ _ E) as (_ & _ & Hla & Hlp).
    cbn [mbind option_bind] in H.
    destruct (peerAddr p') as [|o0 [|o1 [|o2 [|o3 [|]]]]] eqn:Ea;
      try discriminate.
    destruct (peerPort p') as [|c0 [|c1 [|]]] eqn:Ep; try discriminate.
    unfold getAddressFromBytes, getPortFromBytes in H. rewrite Ea, Ep in H.
    cbn [lookup list_lookup mbind option_bind] in H.
    injection H as <- <- <- <-. rewrite Ea, Ep. eauto 10. }
  intros H1 H2.
  destruct (Hkey _ _ _ _ _ H1)
    as (o0 & o1 & o2 & o3 & c0 & c1 & Ea1 & Ep1 & Hh1 & ->).
  destruct (Hkey _ _ _ _ _ H2)
    as (q0 & q1 & q2 & q3 & e0 & e1 & Ea2 & Ep2 & Hh2 & ->).
  rewrite Ea1, Ea2, Ep1, Ep2. split.
  - intros Heq.
    apply app_sep_inj in Heq as [Ha Hp]; [|apply dotted_noColon..].
    split; [by apply dotted_inj|].
    apply (f_equal Atoi) in Hp.
    pose proof (Uint16_range _ _ Hh1). pose proof (Uint16_range _ _ Hh2).
    rewrite !Atoi_Itoa in Hp by lia.
    assert (h1 = h2) as -> by congruence.
    rewrite <- (PutUint16_Uint16 _ _ _ Hh1). by apply PutUint16_Uint16.
  - intros [[= -> -> -> ->] [= -> ->]].
    assert (h1 = h2) as -> by congruence. done.
Qed.

Lemma clientKey_injective_witness :
  lit "127.0.0.1:8080" = lit "127.0.0.1:8080"
  ↔ peerAddr (peerPacket 0 4 (lit "x")) = peerAddr (peerPacket 0 6 (lit "c"))
    ∧ peerPort (peerPacket 0 4 (lit "x")) = peerPort (peerPacket 0 6 (lit "c")).
Proof.
  exact (clientKey_injective _ _ _ _ _ _ _ _ _ _
           decode_peer_data4 decode_peer_data6).
Defined.


(** ** Decoding and rebuilding *)

Lemma byteZ_testbit_high b n : 8 ≤ n → Z.testbit (byteZ b) n = false.
Proof.
  intros Hn. pose proof (byteZ_range b).
  destruct (decide (byteZ b = 0)) as [->|?]; [apply Z.bits_0|].
  apply Z.bits_above_log2; [lia|].
  assert (Z.log2 (byteZ b) < 8) by (apply Z.log2_lt_pow2; lia). lia.
Qed.

Lemma toByte_bits v b :
  (∀ n, 0 ≤ n < 8 → Z.testbit v n = Z.testbit (byteZ b) n) → toByte v = b.
Proof.
  intros H. rewrite <- (toByte_byteZ b). unfold toByte. do 3 f_equal.
  pose proof (byteZ_range b).
  rewrite (Z.mod_small (byteZ b)) by lia. change 256 with (2 ^ 8).
  apply Z.bits_inj'. intros n Hn.
  destruct (decide (n < 8)).
  - rewrite Z.mod_pow2_bits_low by lia. apply H. lia.
  - rewrite Z.mod_pow2_bits_high by lia. symmetry.
    apply byteZ_testbit_high. lia.
Qed.

Lemma PutUint32_Uint32 b0 b1 b2 b3 v :
  Uint32 [b0; b1; b2; b3] = Some v → PutUint32 v = [b0; b1; b2; b3].
Proof.
  intros [= <-]. unfold PutUint32.
  repeat f_equal; apply toByte_bits; intros n Hn;
    rewrite ?Z.shiftr_spec, !Z.lor_spec, !Z.shiftl_spec by lia;
    repeat match goal with
    | |- context [Z.testbit (byteZ ?b) ?k] =>
        first [ rewrite (Z.testbit_neg_r (byteZ b) k) by lia
              | rewrite (byteZ_testbit_high b k) by lia ]
    end;
    rewrite ?orb_false_r, ?orb_false_l; f_equal; lia.
Qed.

(** X10. Decoding is total on datagrams of 11 bytes or more and loses
    nothing of the first 1024 bytes: the decoded packet serialises to
    those bytes, and building a packet with [MakePacket] from the type,
    sequence number, address text, port and payload read from it gives
    the decoded packet back. *)
Theorem decode_rebuilds datagram :
  (11 ≤ length datagram)%nat →
  ∃ packet a p key ty r,
    decodeStep datagram = Some (packet, a, p, key)
    ∧ getBytesFromPacket packet = take 1024 datagram
    ∧ pType packet !! 0%nat = Some ty ∧ Uint32 (seqNo packet) = Some r
    ∧ MakePacket (byteZ ty) r a p (payload packet) = Some packet.
Proof.
  intros Hlen.
  destruct (decodeStep_long datagram Hlen) as (packet & a & p & key & Hd & Hparse).
  pose proof (parsePacket_wf _ _ Hparse) as Hwf.
  exists packet, a, p, key. pose proof Hd as Hd0.
  unfold decodeStep in Hd. rewrite Hparse in Hd.
  cbn [mbind option_bind] in Hd.
  destruct packet as [t s ad po pl].
  destruct Hwf as (Ht & Hs & Ha & Hp). cbn in Ht, Hs, Ha, Hp.
  destruct t as [|t0 [|]]; try discriminate.
  destruct s as [|s0 [|s1 [|s2 [|s3 [|]]]]]; try discriminate.
  destruct ad as [|a0 [|a1 [|a2 [|a3 [|]]]]]; try discriminate.
  destruct po as [|p0 [|p1 [|]]]; try discriminate.
  unfold getAddressFromBytes, getPortFromBytes in Hd.
  cbn [peerAddr peerPort lookup list_lookup mbind option_bind] in Hd.
  destruct (Uint16 [p0; p1]) as [port|] eqn:Hport; [|done].
  cbn [mbind option_bind] in Hd.
  assert (a = dotted (byteZ a0) (byteZ a1) (byteZ a2) (byteZ a3)
          ∧ p = port) as [-> ->] by (split; congruence).
  destruct (Uint32 [s0; s1; s2; s3]) as [r|] eqn:Hseq; [|done].
  exists t0, r. split; [exact Hd0|].
  split; [exact (getBytes_parsePacket _ _ _ Hparse)|].
  split; [done|]. split; [done|].
  rewrite MakePacket_dotted. cbn [payload].
  by rewrite toByte_byteZ, (PutUint32_Uint32 _ _ _ _ _ Hseq),
    (PutUint16_Uint16 _ _ _ Hport).
Qed.

Lemma decode_rebuilds_witness :
  ∃ packet a p key ty r,
    decodeStep (peerDatagram 0 4 (lit "x")) = Some (packet, a, p, key)
    ∧ getBytesFromPacket packet = take 1024 (peerDatagram 0 4 (lit "x"))
    ∧ pType packet !! 0%nat = Some ty ∧ Uint32 (seqNo packet) = Some r
    ∧ MakePacket (byteZ ty) r a p (payload packet) = Some packet.
Proof.
  apply (decode_rebuilds (peerDatagram 0 4 (lit "x"))).
  vm_compute. lia.
Defined.


(** * The HTTP side *)

(** ** Go's [strings] functions *)

Lemma byte_eqb_eq (a b : byte) : Byte.eqb a b = true ↔ a = b.
Proof. split; [apply Byte.byte_dec_bl|apply Byte.byte_dec_lb]. Qed.

Lemma byte_eqb_refl (a : byte) : Byte.eqb a a = true.
Proof. by apply byte_eqb_eq. Qed.

Lemma HasPrefix_spec s p : strings.HasPrefix s p = true ↔ ∃ r, s = p ++ r.
Proof.
  revert s. induction p as [|c p IH]; intros s.
  - destruct s; (split; [eauto|done]).
  - destruct s as [|d s]; cbn [strings.HasPrefix].
    + split; [done|]. by intros [r ?].
    + rewrite andb_true_iff, byte_eqb_eq, IH. split.
      * intros [-> [r ->]]. eauto.
      * intros [r [= -> ->]]. eauto.
Qed.

Lemma HasPrefix_app p r : strings.HasPrefix (p ++ r) p = true.
Proof. apply HasPrefix_spec. eauto. Qed.

Lemma HasPrefix_long s p rest :
  (length p ≤ length s)%nat →
  strings.HasPrefix (s ++ rest) p = strings.HasPrefix s p.
Proof.
  revert s. induction p as [|c p IH]; intros s Hlen; [by destruct s, rest|].
  destruct s as [|d s]; [simpl in Hlen; lia|].
  cbn [app strings.HasPrefix]. rewrite IH by (simpl in Hlen; lia). done.
Qed.

Lemma HasPrefix_nil_l p : p ≠ [] → strings.HasPrefix [] p = false.
Proof. by destruct p. Qed.

Lemma Index_cons c s sep :
  strings.Index (c :: s) sep
  = if strings.HasPrefix (c :: s) sep then 0
    else if strings.Index s sep <? 0 then -1 else strings.Index s sep + 1.
Proof. reflexivity. Qed.

Lemma Index_range s sep :
  strings.Index s sep = -1
  ∨ 0 ≤ strings.Index s sep
    ∧ strings.Index s sep + Z.of_nat (length sep) ≤ Z.of_nat (length s).
Proof.
  induction s as [|c s IH].
  - cbn [strings.Index]. destruct (strings.HasPrefix [] sep) eqn:E; [|by left].
    apply HasPrefix_spec in E as [r E]. destruct sep; [|done].
    right. simpl. lia.
  - rewrite Index_cons. destruct (strings.HasPrefix (c :: s) sep) eqn:E.
    + apply HasPrefix_spec in E as [r E]. right. rewrite E, length_app. lia.
    + destruct IH as [->|[H0 H1]]; [by left|].
      destruct (Z.ltb_spec (strings.Index s sep) 0); [lia|].
      right. cbn [length]. lia.
Qed.

(** Where [Index] finds the separator, it is there. *)
Lemma Index_found s sep :
  0 ≤ strings.Index s sep →
  s = take (Z.to_nat (strings.Index s sep)) s ++ sep
      ++ drop (Z.to_nat (strings.Index s sep) + length sep) s.
Proof.
  induction s as [|c s IH].
  - cbn [strings.Index]. destruct (strings.HasPrefix [] sep) eqn:E; [|lia].
    apply HasPrefix_spec in E as [r E]. destruct sep; [|done]. done.
  - rewrite Index_cons. destruct (strings.HasPrefix (c :: s) sep) eqn:E.
    + intros _. apply HasPrefix_spec in E as [r E]. rewrite E.
      change (Z.to_nat 0) with 0%nat. cbn [take app Nat.add].
      by rewrite drop_app_length.
    + destruct (Z.ltb_spec (strings.Index s sep) 0) as [?|Hge]; [lia|].
      intros _.
      replace (Z.to_nat (strings.Index s sep + 1))
        with (S (Z.to_nat (strings.Index s sep))) by lia.
      cbn [take app Nat.add drop]. f_equal. by apply IH.
Qed.

(** An instance within [s] is found whatever follows [s]. *)
Lemma Index_app s rest sep :
  0 ≤ strings.Index s sep →
  strings.Index (s ++ rest) sep = strings.Index s sep.
Proof.
  induction s as [|c s IH].
  - cbn [strings.Index]. destruct (strings.HasPrefix [] sep) eqn:E; [|lia].
    apply HasPrefix_spec in E as [r E]. destruct sep; [|done].
    intros _. by destruct rest.
  - cbn [app]. rewrite !Index_cons.
    destruct (strings.HasPrefix (c :: s) sep) eqn:E.
    + intros _. apply HasPrefix_spec in E as [r E].
      change (c :: s ++ rest) with ((c :: s) ++ rest).
      rewrite E, <- app_assoc, HasPrefix_app. done.
    + destruct (Z.ltb_spec (strings.Index s sep) 0) as [?|Hge]; [lia|].
      intros _. rewrite IH by done.
      destruct (Index_range s sep) as [?|[_ Hlen]]; [lia|].
      change (c :: s ++ rest) with ((c :: s) ++ rest).
      rewrite HasPrefix_long, E by (cbn [length]; lia).
      destruct (Z.ltb_spec (strings.Index s sep) 0); [lia|done].
Qed.

Lemma Index_sepFree sep l rest :
  sepFree sep l → strings.Index (l ++ sep ++ rest) sep = Z.of_nat (length l).
Proof.
  unfold sepFree. intros H. rewrite app_assoc, Index_app; [done|lia].
Qed.

(** No instance at all: [Index] fails on every suffix. *)
Lemma Index_none_tail c s sep :
  strings.Index (c :: s) sep = -1 → strings.Index s sep = -1.
Proof.
  rewrite Index_cons. destruct (strings.HasPrefix _ _); [done|].
  destruct (Z.ltb_spec (strings.Index s sep) 0) as [?|?]; [|lia].
  destruct (Index_range s sep) as [?|[? _]]; [done|lia].
Qed.


Lemma sepFree_Index_none sep l :
  sep ≠ [] → sepFree sep l → strings.Index l sep = -1.
Proof.
  unfold sepFree. intros Hsep H.
  destruct (Index_range l sep) as [?|[H0 Hlen]]; [done|].
  rewrite Index_app in H by done.
  destruct sep; [done|]. cbn [length] in Hlen. lia.
Qed.

Lemma length_Join lines sep :
  (1 ≤ length sep)%nat →
  (length lines ≤ length (strings.Join lines sep) + 1)%nat.
Proof.
  intros Hsep.
  induction lines as [|e [|e' lines] IH]; cbn [strings.Join length] in *;
    [lia|lia|].
  rewrite !length_app. lia.
Qed.

Lemma Join_cons e e' lines sep :
  strings.Join (e :: e' :: lines) sep = e ++ sep ++ strings.Join (e' :: lines) sep.
Proof. reflexivity. Qed.

Lemma sep_length (sep : list byte) : sep ≠ [] → (1 ≤ length sep)%nat.
Proof. destruct sep; [done|simpl; lia]. Qed.

(** [genSplit] for a separator that is not empty. *)
Lemma genSplit_nonempty s sep n :
  sep ≠ [] → n ≠ 0 →
  strings.genSplit s sep n
  = let n := if n <? 0 then strings.countLoop (length s) s sep + 1 else n in
    let n := if Z.of_nat (length s) + 1 <? n
             then Z.of_nat (length s) + 1 else n in
    strings.splitLoop (Z.to_nat (n - 1)) s sep.
Proof.
  intros Hsep Hn. unfold strings.genSplit.
  destruct (Z.eqb_spec n 0); [done|]. by destruct sep.
Qed.

Lemma countLoop_Join sep lines : ∀ fuel,
  sep ≠ [] → lines ≠ [] → Forall (sepFree sep) lines →
  (length (strings.Join lines sep) ≤ fuel)%nat →
  strings.countLoop fuel (strings.Join lines sep) sep
  = Z.of_nat (length lines) - 1.
Proof.
  induction lines as [|e [|e' lines] IH]; intros fuel Hsep Hne Hfree Hfuel;
    [done| |].
  - apply list.Forall_cons in Hfree as [He _]. cbn [strings.Join length].
    destruct fuel; [done|]. cbn [strings.countLoop].
    by rewrite (sepFree_Index_none sep e Hsep He).
  - apply list.Forall_cons in Hfree as [He Hfree].
    rewrite Join_cons in *. rewrite !length_app in Hfuel.
    pose proof (sep_length sep Hsep) as Hs1.
    destruct fuel as [|fuel]; [lia|].
    cbn [strings.countLoop]. rewrite (Index_sepFree sep e _ He).
    destruct (Z.ltb_spec (Z.of_nat (length e)) 0); [lia|].
    rewrite Nat2Z.id, app_assoc, drop_app_length' by (by rewrite length_app).
    rewrite IH; [cbn [length]; lia|done|done|done|lia].
Qed.

Lemma splitLoop_Join sep lines : ∀ cuts,
  sep ≠ [] → lines ≠ [] → Forall (sepFree sep) lines →
  (length lines - 1 ≤ cuts)%nat →
  strings.splitLoop cuts (strings.Join lines sep) sep = lines.
Proof.
  induction lines as [|e [|e' lines] IH]; intros cuts Hsep Hne Hfree Hcuts;
    [done| |].
  - apply list.Forall_cons in Hfree as [He _]. cbn [strings.Join].
    destruct cuts; [done|]. cbn [strings.splitLoop].
    by rewrite (sepFree_Index_none sep e Hsep He).
  - apply list.Forall_cons in Hfree as [He Hfree].
    rewrite Join_cons. cbn [length] in Hcuts.
    destruct cuts as [|cuts]; [lia|].
    cbn [strings.splitLoop]. rewrite (Index_sepFree sep e _ He).
    destruct (Z.ltb_spec (Z.of_nat (length e)) 0); [lia|].
    rewrite Nat2Z.id, take_app_length.
    rewrite app_assoc, drop_app_length' by (by rewrite length_app).
    rewrite IH; [done|done|done|done|cbn [length]; lia].
Qed.

(** Splitting what [Join] joined gives the pieces back, when no piece
    holds the separator. *)
Lemma Split_Join sep lines :
  sep ≠ [] → lines ≠ [] → Forall (sepFree sep) lines →
  strings.Split (strings.Join lines sep) sep = lines.
Proof.
  intros Hsep Hne Hfree. unfold strings.Split.
  rewrite genSplit_nonempty by done. cbv zeta.
  change (-1 <? 0) with true. cbv iota.
  rewrite countLoop_Join by done.
  pose proof (sep_length sep Hsep) as Hs1.
  pose proof (length_Join lines sep Hs1) as Hlen.
  destruct (Z.ltb_spec (Z.of_nat (length (strings.Join lines sep)) + 1)
              (Z.of_nat (length lines) - 1 + 1)) as [?|_]; [lia|].
  apply splitLoop_Join; [done|done|done|lia].
Qed.

(** [SplitN(s, sep, 2)]: one cut at the first instance, if there is
    one. *)
Lemma SplitN_2 sep s :
  sep ≠ [] →
  strings.SplitN s sep 2
  = if strings.Index s sep <? 0 then [s]
    else [take (Z.to_nat (strings.Index s sep)) s;
          drop (Z.to_nat (strings.Index s sep) + length sep) s].
Proof.
  intros Hsep. unfold strings.SplitN.
  rewrite genSplit_nonempty by done. cbv zeta.
  change (2 <? 0) with false. cbv iota.
  destruct s as [|d s].
  - cbn [length]. change (Z.of_nat 0 + 1 <? 2) with true. cbv iota.
    change (Z.to_nat (Z.of_nat 0 + 1 - 1)) with 0%nat. cbn [strings.splitLoop].
    cbn [strings.Index]. by rewrite HasPrefix_nil_l.
  - destruct (Z.ltb_spec (Z.of_nat (length (d :: s)) + 1) 2) as [Hl|_];
      [cbn [length] in Hl; lia|].
    change (Z.to_nat (2 - 1)) with 1%nat. cbn [strings.splitLoop]. done.
Qed.

Lemma filter_all {A} (P : A → Prop) `{!∀ x, Decision (P x)} (l : list A) :
  Forall P l → filter P l = l.
Proof.
  induction 1 as [|x l Hx _ IH]; [done|].
  rewrite filter_cons_True by done. by rewrite IH.
Qed.

(** [strings.Split] by a one-byte separator, as the request line and the
    route are split. *)
Lemma Split_byte_app sep s rest :
  sep ∉ s → Split (s ++ sep :: rest) sep = s :: Split rest sep.
Proof.
  induction s as [|c s IH]; intros Hs; cbn [app Split].
  - by rewrite byte_eqb_refl.
  - apply not_elem_of_cons in Hs as [Hc Hs].
    destruct (Byte.eqb c sep) eqn:E; [by apply byte_eqb_eq in E|].
    by rewrite IH.
Qed.

Lemma Split_byte_none sep s : sep ∉ s → Split s sep = [s].
Proof.
  induction s as [|c s IH]; intros Hs; cbn [Split]; [done|].
  apply not_elem_of_cons in Hs as [Hc Hs].
  destruct (Byte.eqb c sep) eqn:E; [by apply byte_eqb_eq in E|].
  by rewrite IH.
Qed.

Lemma Split_byte_nonempty s c : Split s c ≠ [].
Proof.
  destruct s as [|d s]; cbn [Split]; [done|].
  destruct (Byte.eqb d c); [done|]. by destruct (Split s c).
Qed.

Lemma Split_none sep s :
  sep ≠ [] → strings.Index s sep = -1 → strings.Split s sep = [s].
Proof.
  intros Hsep Hs. unfold strings.Split.
  rewrite genSplit_nonempty by done. cbv zeta.
  change (-1 <? 0) with true. cbv iota.
  destruct (Z.to_nat _) as [|cuts]; cbn [strings.splitLoop]; [done|].
  by rewrite Hs.
Qed.


(** ** Parsing a request *)

Section Parsing.

Variables CRLF blankString : list byte.
Hypothesis HCRLF : CRLF ≠ [].

Lemma CRLF2_nonempty : CRLF ++ CRLF ≠ [].
Proof. by destruct CRLF. Qed.

(** The lines of the head of a request that ends its head with a blank
  line, and what follows the blank line. *)
Lemma parse_head lines rest :
lines ≠ [] → Forall (sepFree CRLF) lines →
Forall (λ line, line ≠ blankString) lines →
sepFree (CRLF ++ CRLF) (strings.Join lines CRLF) →
parseRequestData CRLF blankString
  (strings.Join lines CRLF ++ (CRLF ++ CRLF) ++ rest)
= first ← lines !! 0%nat;
  route' ← Split first " "%byte !! 1%nat;
  if strings.Contains first (lit "POST") then
    Some {| Method := lit "POST"; route := route';
            headers := Some (strings.Join (drop 1 lines) CRLF);
            Body := Some rest |}
  else if (1 <? length lines)%nat then
    Some {| Method := lit "GET"; route := route';
            headers := Some (strings.Join
                               (take (length lines - 2) (drop 1 lines)) CRLF);
            Body := None |}
  else
    Some {| Method := lit "GET"; route := route';
            headers := None; Body := None |}.
Proof.
intros Hne Hfree Hblank Hhead. unfold parseRequestData.
rewrite (SplitN_2 _ _ CRLF2_nonempty).
rewrite (Index_sepFree _ _ rest Hhead).
destruct (Z.ltb_spec (Z.of_nat (length (strings.Join lines CRLF))) 0);
  [lia|].
rewrite Nat2Z.id, take_app_length.
rewrite (app_assoc _ (CRLF ++ CRLF) rest),
  drop_app_length' by (by rewrite !length_app).
cbn [lookup list_lookup mbind option_bind].
rewrite (Split_Join CRLF lines HCRLF Hne Hfree).
rewrite (filter_all _ _ Hblank).
destruct lines as [|first lines']; [done|].
cbn [lookup list_lookup mbind option_bind].
destruct (Split first " "%byte !! 1%nat) as [route'|]; [|done].
cbn [mbind option_bind].
destruct (strings.Contains first (lit "POST")).
- rewrite sub_Some by (cbn [length]; lia). cbn [mbind option_bind].
  change (Z.to_nat 1) with 1%nat.
  rewrite take_ge by (rewrite length_drop; lia). done.
- destruct (1 <? length (first :: lines'))%nat eqn:E; [|done].
  apply Nat.ltb_lt in E.
  rewrite sub_Some by lia. cbn [mbind option_bind].
  change (Z.to_nat 1) with 1%nat.
  replace (Z.to_nat (Z.of_nat (length (first :: lines')) - 1 - 1))
    with (length (first :: lines') - 2)%nat by lia.
  done.
Qed.

Lemma Split_request_line method uri version :
" "%byte ∉ method → " "%byte ∉ uri →
Split (method ++ lit " " ++ uri ++ lit " " ++ version) " "%byte !! 1%nat
= Some uri.
Proof.
intros Hm Hu. change (lit " ") with [" "%byte]. cbn [app].
rewrite Split_byte_app by done. cbn [lookup list_lookup].
rewrite Split_byte_app by done. done.
Qed.

End Parsing.

(** X11. A GET request as the client writes it, a request line
    [METHOD SP TARGET SP VERSION] without "POST" in it, header lines
    and a blank line, with [CRLF] between the lines and in none of them,
    parses to the method GET and the target as route, without a body;
    the headers are the header lines without the last one, and none at
    all when the request has no header line. *)
Theorem parse_get_request CRLF blankString method uri version hdrs rest :
  let requestLine := method ++ lit " " ++ uri ++ lit " " ++ version in
  let lines := requestLine :: hdrs in
  CRLF ≠ [] →
  " "%byte ∉ method → " "%byte ∉ uri →
  strings.Contains requestLine (lit "POST") = false →
  Forall (sepFree CRLF) lines →
  Forall (λ line, line ≠ blankString) lines →
  sepFree (CRLF ++ CRLF) (strings.Join lines CRLF) →
  parseRequestData CRLF blankString
    (strings.Join lines CRLF ++ (CRLF ++ CRLF) ++ rest)
  = Some {| Method := lit "GET"; route := uri;
            headers := match hdrs with
                       | [] => None
                       | _ => Some (strings.Join (removelast hdrs) CRLF)
                       end;
            Body := None |}.
Proof.
  intros requestLine lines HCRLF Hm Hu Hpost Hfree Hblank Hhead.
  rewrite (parse_head CRLF blankString HCRLF lines rest) by done.
  subst lines requestLine. cbn [lookup list_lookup mbind option_bind].
  rewrite (Split_request_line method uri version Hm Hu).
  cbn [mbind option_bind]. rewrite Hpost.
  destruct hdrs as [|h hdrs]; [done|].
  cbn [length Nat.ltb Nat.leb drop]. do 3 f_equal.
  replace (S (S (length hdrs)) - 2)%nat with (length hdrs) by lia.
  rewrite removelast_firstn_len. cbn [length Init.Nat.pred]. done.
Qed.

(** X12. A POST request, a request line with "POST" in it, header lines,
    a blank line and a body, parses to the method POST, the target as
    route, all the header lines as headers and everything after the
    first blank line as body. *)
Theorem parse_post_request CRLF blankString method uri version hdrs rest :
  let requestLine := method ++ lit " " ++ uri ++ lit " " ++ version in
  let lines := requestLine :: hdrs in
  CRLF ≠ [] →
  " "%byte ∉ method → " "%byte ∉ uri →
  strings.Contains requestLine (lit "POST") = true →
  Forall (sepFree CRLF) lines →
  Forall (λ line, line ≠ blankString) lines →
  sepFree (CRLF ++ CRLF) (strings.Join lines CRLF) →
  parseRequestData CRLF blankString
    (strings.Join lines CRLF ++ (CRLF ++ CRLF) ++ rest)
  = Some {| Method := lit "POST"; route := uri;
            headers := Some (strings.Join hdrs CRLF);
            Body := Some rest |}.
Proof.
  intros requestLine lines HCRLF Hm Hu Hpost Hfree Hblank Hhead.
  rewrite (parse_head CRLF blankString HCRLF lines rest) by done.
  subst lines requestLine. cbn [lookup list_lookup mbind option_bind].
  rewrite (Split_request_line method uri version Hm Hu).
  cbn [mbind option_bind]. rewrite Hpost. done.
Qed.

Lemma parse_get_request_witness :
  parseRequestData crlf []
    (strings.Join getLines crlf ++ (crlf ++ crlf) ++ crlf)
  = Some {| Method := lit "GET"; route := lit "/hello.txt";
            headers := Some (lit "Host:localhost"); Body := None |}.
Proof.
  apply (parse_get_request crlf [] (lit "GET") (lit "/hello.txt")
           (lit "HTTP/1.0") [lit "Host:localhost"; lit "Accept:text/plain"]
           crlf).
  - discriminate.
  - apply (bool_decide_unpack _). vm_compute. reflexivity.
  - apply (bool_decide_unpack _). vm_compute. reflexivity.
  - vm_compute. reflexivity.
  - repeat constructor; vm_compute; reflexivity.
  - repeat constructor; discriminate.
  - vm_compute. reflexivity.
Defined.

Lemma parse_post_request_witness :
  parseRequestData crlf []
    (strings.Join postLines crlf ++ (crlf ++ crlf) ++ lit "hi")
  = Some {| Method := lit "POST"; route := lit "/hello.txt";
            headers := Some (lit "Content-Length:2");
            Body := Some (lit "hi") |}.
Proof.
  apply (parse_post_request crlf [] (lit "POST") (lit "/hello.txt")
           (lit "HTTP/1.0") [lit "Content-Length:2"] (lit "hi")).
  - discriminate.
  - apply (bool_decide_unpack _). vm_compute. reflexivity.
  - apply (bool_decide_unpack _). vm_compute. reflexivity.
  - vm_compute. reflexivity.
  - repeat constructor; vm_compute; reflexivity.
  - repeat constructor; discriminate.
  - vm_compute. reflexivity.
Defined.


Lemma splitLoop_elem sep cuts : ∀ s piece (c : byte),
  piece ∈ strings.splitLoop cuts s sep → c ∈ piece → c ∈ s.
Proof.
  induction cuts as [|cuts IH]; intros s piece c Hp Hc; cbn [strings.splitLoop] in Hp.
  - apply list_elem_of_singleton in Hp as ->. done.
  - destruct (strings.Index s sep <? 0).
    + apply list_elem_of_singleton in Hp as ->. done.
    + apply elem_of_cons in Hp as [->|Hp].
      * apply elem_of_take in Hc as (i & Hi & _).
        by eapply list_elem_of_lookup_2.
      * apply (IH _ _ _ Hp) in Hc.
        apply list_elem_of_lookup in Hc as [i Hi].
        rewrite lookup_drop in Hi. by eapply list_elem_of_lookup_2.
Qed.

(** X13. A request text without a space character, the empty text among
    them, makes the parser panic: either no line is left for the request
    line, or the request line has no second field for the target. *)
Theorem request_without_space_panics CRLF blankString request :
  CRLF ≠ [] → " "%byte ∉ request →
  parseRequestData CRLF blankString request = None.
Proof.
  intros HCRLF Hsp. unfold parseRequestData.
  assert (HCC : CRLF ++ CRLF ≠ []) by (by destruct CRLF).
  set (initialSplit := strings.SplitN request (CRLF ++ CRLF) 2).
  destruct (initialSplit !! 0%nat) as [head|] eqn:Hhead; [|done].
  cbn [mbind option_bind].
  assert (Hh : " "%byte ∉ head).
  { intros Hin. apply Hsp. unfold initialSplit in Hhead.
    rewrite SplitN_2 in Hhead by done.
    destruct (strings.Index request (CRLF ++ CRLF) <? 0).
    - injection Hhead as <-. done.
    - injection Hhead as <-.
      apply elem_of_take in Hin as (i & Hi & _).
      by eapply list_elem_of_lookup_2. }
  destruct (filter _ _ !! 0%nat) as [first|] eqn:Hfirst; [|done].
  cbn [mbind option_bind].
  assert (Hf : " "%byte ∉ first).
  { intros Hin. apply Hh.
    apply list_elem_of_lookup_2, list_elem_of_filter in Hfirst as [_ Hfirst].
    unfold strings.Split in Hfirst.
    rewrite genSplit_nonempty in Hfirst by done.
    by eapply splitLoop_elem. }
  by rewrite (Split_byte_none _ _ Hf).
Qed.

Lemma request_without_space_panics_witness :
  parseRequestData crlf [] (lit "GET/hello.txt" ++ crlf ++ crlf) = None.
Proof.
  apply (request_without_space_panics crlf [] (lit "GET/hello.txt" ++ crlf ++ crlf)).
  - discriminate.
  - apply (bool_decide_unpack _). vm_compute. reflexivity.
Defined.

Lemma Index_prefix s sep : strings.HasPrefix s sep = true → strings.Index s sep = 0.
Proof. intros H. destruct s; cbn [strings.Index]; by rewrite H. Qed.

Lemma Index_present l sep r : 0 ≤ strings.Index (l ++ sep ++ r) sep.
Proof.
  induction l as [|c l IH]; cbn [app].
  - by rewrite Index_prefix by apply HasPrefix_app.
  - rewrite Index_cons. destruct (strings.HasPrefix _ _); [done|].
    destruct (Z.ltb_spec (strings.Index (l ++ sep ++ r) sep) 0); lia.
Qed.

(** The text before the first instance of the separator holds none. *)
Lemma Index_split s sep :
  0 ≤ strings.Index s sep →
  ∃ l r, s = l ++ sep ++ r ∧ sepFree sep l
         ∧ l = take (Z.to_nat (strings.Index s sep)) s
         ∧ r = drop (Z.to_nat (strings.Index s sep) + length sep) s.
Proof.
  intros Hi. pose proof (Index_found s sep Hi) as Hf.
  destruct (Index_range s sep) as [?|[_ Hr]]; [lia|].
  remember (strings.Index s sep) as i eqn:Ei.
  exists (take (Z.to_nat i) s), (drop (Z.to_nat i + length sep) s).
  split; [done|]. split; [|done].
  unfold sepFree. rewrite length_take.
  pose proof (Index_present (take (Z.to_nat i) s) sep []) as Hp.
  rewrite app_nil_r in Hp.
  pose proof (Index_app (take (Z.to_nat i) s ++ sep)
                (drop (Z.to_nat i + length sep) s) sep Hp) as Ha.
  rewrite <- app_assoc, <- Hf in Ha. rewrite <- Ha, <- Ei. lia.
Qed.

(** X14. What the parser can return: the method is GET, without a body,
    or it is POST, with headers and with the body that follows the first
    blank line of the request, so that no request without a blank line
    is parsed as a POST. *)
Theorem parsed_request_shape CRLF blankString request req :
  CRLF ≠ [] →
  parseRequestData CRLF blankString request = Some req →
  (Method req = lit "GET" ∧ Body req = None)
  ∨ (Method req = lit "POST" ∧ is_Some (headers req)
     ∧ ∃ head body,
         request = head ++ (CRLF ++ CRLF) ++ body
         ∧ sepFree (CRLF ++ CRLF) head ∧ Body req = Some body).
Proof.
  intros HCRLF. unfold parseRequestData.
  assert (HCC : CRLF ++ CRLF ≠ []) by (by destruct CRLF).
  rewrite SplitN_2 by done.
  destruct (Z.ltb_spec (strings.Index request (CRLF ++ CRLF)) 0) as [Hneg|Hpos];
    cbn [lookup list_lookup mbind option_bind];
    (destruct (filter _ _ !! 0%nat) as [first|]; [|done]);
    cbn [mbind option_bind];
    (destruct (Split first " "%byte !! 1%nat) as [route'|]; [|done]);
    cbn [mbind option_bind];
    (destruct (strings.Contains first (lit "POST"));
     [destruct (sub _ 1 _) as [rest|]; [|done]; cbn [mbind option_bind]
     |destruct (1 <? _)%nat;
      [destruct (sub _ 1 _) as [rest|]; [|done]; cbn [mbind option_bind]|];
      intros [= <-]; by left]).
  - done.
  - intros [= <-]. right. split; [done|]. split; [by eexists|].
    destruct (Index_split request (CRLF ++ CRLF) Hpos)
      as (l & r & Hreq & Hfree & -> & ->).
    eexists _, _. split; [exact Hreq|]. split; [exact Hfree|done].
Qed.

Lemma parsed_request_shape_witness :
  (Method {| Method := lit "POST"; route := lit "/hello.txt";
             headers := Some (lit "Content-Length:2");
             Body := Some (lit "hi") |} = lit "GET"
   ∧ Body {| Method := lit "POST"; route := lit "/hello.txt";
             headers := Some (lit "Content-Length:2");
             Body := Some (lit "hi") |} = None)
  ∨ (Method {| Method := lit "POST"; route := lit "/hello.txt";
               headers := Some (lit "Content-Length:2");
               Body := Some (lit "hi") |} = lit "POST"
     ∧ is_Some (headers {| Method := lit "POST"; route := lit "/hello.txt";
                           headers := Some (lit "Content-Length:2");
                           Body := Some (lit "hi") |})
     ∧ ∃ head body,
         strings.Join postLines crlf ++ (crlf ++ crlf) ++ lit "hi"
         = head ++ (crlf ++ crlf) ++ body
         ∧ sepFree (crlf ++ crlf) head
         ∧ Body {| Method := lit "POST"; route := lit "/hello.txt";
                   headers := Some (lit "Content-Length:2");
                   Body := Some (lit "hi") |} = Some body).
Proof.
  apply (parsed_request_shape crlf []
           (strings.Join postLines crlf ++ (crlf ++ crlf) ++ lit "hi")).
  - discriminate.
  - vm_compute. reflexivity.
Defined.


(** ** Routing *)

Lemma Split_byte_length sep s : (1 ≤ length (Split s sep))%nat.
Proof.
  induction s as [|c s IH]; cbn [Split]; [simpl; lia|].
  destruct (Byte.eqb c sep); [simpl; lia|].
  destruct (Split s sep); simpl in *; lia.
Qed.

Lemma Split_byte_count c s :
  length (Split s c) = S (length (filter (λ x, x = c) s)).
Proof.
  induction s as [|d s IH]; cbn [Split]; [done|].
  destruct (Byte.eqb d c) eqn:E.
  - apply byte_eqb_eq in E as ->. rewrite filter_cons_True by done.
    cbn [length]. by rewrite IH.
  - rewrite filter_cons_False by (intros ->; by rewrite byte_eqb_refl in E).
    destruct (Split s c); cbn [length] in *; done.
Qed.

(** [findRoute] never fails, and finds the handler of "/". *)
Lemma findRoute_handler {W} (routeMap : routes (W:=W)) req :
  ∃ pathParam,
    findRoute routeMap req
    = Some (lookupRoute routeMap (Method req) (lit "/"), pathParam).
Proof.
  unfold findRoute. destruct (2 <? _)%nat; [eauto|].
  pose proof (Split_byte_nonempty (route req) "/"%byte) as Hne.
  destruct (list.last (Split (route req) "/"%byte)) as [p|] eqn:E;
    [cbn [mbind option_bind]; eauto|].
  by apply last_None in E.
Qed.

(** A route with two slashes is handed over whole. *)
Lemma findRoute_deep {W} (routeMap : routes (W:=W)) req pre mid rest :
  route req = pre ++ "/"%byte :: mid ++ "/"%byte :: rest →
  findRoute routeMap req
  = Some (lookupRoute routeMap (Method req) (lit "/"), route req).
Proof.
  intros Hr. unfold findRoute. rewrite Split_byte_count.
  assert (2 ≤ length (filter (λ x, x = "/"%byte) (route req)))%nat as Hc.
  { rewrite Hr, list.filter_app, filter_cons_True, list.filter_app, filter_cons_True
      by done.
    rewrite length_app. cbn [length]. rewrite length_app. cbn [length]. lia. }
  destruct (Nat.ltb_spec 2 (S (length (filter (λ x, x = "/"%byte) (route req)))));
    [done|lia].
Qed.

(** X15. The path parameter that [findRoute] hands to the handler of
    "/": for a route with two or more slashes it is the whole route;
    otherwise it is the part of the route after its slash, or the route
    itself when it has none, and holds no slash.  The handler is the one
    registered for the method and "/" whatever the route. *)
Theorem findRoute_pathParam {W} (routeMap : routes (W:=W)) req :
  ∃ pathParam,
    findRoute routeMap req
    = Some (lookupRoute routeMap (Method req) (lit "/"), pathParam)
    ∧ ((pathParam = route req
        ∧ ∃ pre mid rest, route req = pre ++ "/"%byte :: mid ++ "/"%byte :: rest)
       ∨ (("/"%byte ∉ pathParam)
          ∧ (route req = pathParam
             ∨ ∃ pre, ("/"%byte ∉ pre)
                      ∧ route req = pre ++ "/"%byte :: pathParam))).
Proof.
  unfold findRoute. destruct (decide ("/"%byte ∈ route req)) as [Hin|Hout].
  - apply list_elem_of_split_l in Hin as (pre & post & Hr & Hpre).
    rewrite Hr, Split_byte_app by done.
    destruct (decide ("/"%byte ∈ post)) as [Hin2|Hout2].
    + apply list_elem_of_split_l in Hin2 as (mid & rest & -> & Hmid).
      rewrite Split_byte_app by done. cbn [length].
      pose proof (Split_byte_length "/"%byte rest).
      destruct (Nat.ltb_spec 2 (S (S (length (Split rest "/"%byte)))));
        [|lia].
      eexists. split; [done|]. left. split; [done|]. eauto.
    + rewrite Split_byte_none by done. cbn [length Nat.ltb Nat.leb].
      cbn [list.last mbind option_bind].
      eexists. split; [done|]. right. split; [done|]. right. eauto.
  - rewrite Split_byte_none by done. cbn [length Nat.ltb Nat.leb].
    cbn [list.last mbind option_bind].
    eexists. split; [done|]. right. split; [done|]. by left.
Qed.

(** What [RegisterHandler] changes: the handler of that method and
    route, and no other. *)
Lemma lookupRoute_Register {W} (routeMap : routes (W:=W)) m r h m' r' :
  lookupRoute (RegisterHandler m r h routeMap) m' r'
  = if decide (m = m' ∧ r = r') then h else lookupRoute routeMap m' r'.
Proof.
  unfold lookupRoute, RegisterHandler, routes in *.
  destruct (decide (m = m')) as [<-|Hm].
  - rewrite fin_maps.lookup_insert_eq. cbn [mbind option_bind].
    destruct (decide (r = r')) as [<-|Hr].
    + rewrite fin_maps.lookup_insert_eq, decide_True by done. done.
    + rewrite fin_maps.lookup_insert_ne, decide_False by (by intros [_ ?] || done).
      destruct (routeMap !! m) as [inner|]; [done|].
      cbn [default from_option mbind option_bind].
      by rewrite fin_maps.lookup_empty.
  - rewrite fin_maps.lookup_insert_ne, decide_False by (by intros [? _] || done).
    done.
Qed.

Lemma lookupRoute_empty {W} m r : lookupRoute (W:=W) ∅ m r = None.
Proof. unfold lookupRoute, routes. by rewrite fin_maps.lookup_empty. Qed.


(** ** The file server behind the HTTP side *)

Lemma Contains_elem (c : byte) s : c ∈ s → strings.Contains s [c] = true.
Proof.
  intros Hin. apply list_elem_of_split in Hin as (l1 & l2 & ->).
  unfold strings.Contains.
  pose proof (Index_present l1 [c] l2) as H. cbn [app] in H. lia.
Qed.

Lemma Join_snoc2 a b sep : strings.Join [a; b] sep = a ++ sep ++ b.
Proof. reflexivity. Qed.

Section FileServerTheorems.

Context {W : Type} `{!FileSystem W}.
Variables (CRLF blankString : list byte) (reasonPhrase : Z → list byte).
Variable filepath_Join : list byte → list byte → list byte.

Let serve := handleUdpConnection (W:=W) CRLF blankString reasonPhrase
             (registeredRoutes CRLF filepath_Join).

Lemma lookup_registered m r :
lookupRoute (registeredRoutes (W:=W) CRLF filepath_Join) m r
= if decide ((m = lit "GET" ∨ m = lit "POST") ∧ r = lit "/")
  then Some (getHandler CRLF filepath_Join) else None.
Proof.
unfold registeredRoutes. rewrite !lookupRoute_Register, lookupRoute_empty.
destruct (decide (lit "GET" = m ∧ lit "/" = r)) as [[<- <-]|Hg].
{ rewrite decide_True by (split; [by left|done]). done. }
destruct (decide (lit "POST" = m ∧ lit "/" = r)) as [[<- <-]|Hp].
{ rewrite decide_True by (split; [by right|done]). done. }
rewrite decide_False; [done|].
intros [[->| ->] ->]; [by apply Hg|by apply Hp].
Qed.

Lemma makeHeaders_nil body :
makeHeaders CRLF body []
= lit "Content-Length:" ++ Itoa (Z.of_nat (length body)) ++ CRLF
    ++ lit "Content-Disposition:inline".
Proof. unfold makeHeaders. cbn [app]. rewrite Join_snoc2. by rewrite <- app_assoc. Qed.

(** X16. A POST to the route "/" ends the goroutine that serves it: the
  handler registered for "/" is called without a path parameter, and
  the POST branch dereferences it. *)
Theorem post_root_panics root request req w :
parseRequestData CRLF blankString request = Some req →
Method req = lit "POST" → route req = lit "/" →
serve root request w = None.
Proof.
intros Hparse Hm Hr. unfold serve, handleUdpConnection.
rewrite Hparse. cbn [mbind option_bind].
rewrite lookup_registered, Hm, Hr, decide_True by (split; [by right|done]).
unfold getHandler. rewrite Hm. done.
Qed.

(** X17. A GET for a route with two or more slashes is refused without
  touching the files: the answer is status 403 with the whole route
  named in the body, and the world is as before. *)
Theorem get_outside_root_forbidden root request req w pre mid rest :
parseRequestData CRLF blankString request = Some req →
Method req = lit "GET" →
route req = pre ++ "/"%byte :: mid ++ "/"%byte :: rest →
let errStr := lit "Access Forbidden: '" ++ route req
                ++ lit "' is outside server root directory" in
serve root request w
= Some (constructStructuredResponse CRLF reasonPhrase errStr 403
          (makeHeaders CRLF errStr []), w).
Proof.
intros Hparse Hm Hr errStr. unfold serve, handleUdpConnection.
rewrite Hparse. cbn [mbind option_bind].
assert (Hne : route req ≠ lit "/").
{ rewrite Hr. destruct pre as [|? pre]; [by destruct mid|].
  intros [= _ Hnil]. by destruct pre. }
rewrite lookup_registered, decide_False by (by intros [_ ?]).
rewrite (findRoute_deep _ req pre mid rest Hr).
cbn [mbind option_bind].
rewrite lookup_registered, Hm, decide_True by (split; [by left|done]).
cbn [mbind option_bind]. unfold getHandler. rewrite Hm.
rewrite bool_decide_eq_true_2 by done.
change (lit "/") with ["/"%byte].
rewrite Contains_elem; [done|].
rewrite Hr. apply elem_of_app. right. apply list_elem_of_here.
Qed.

(** X18. A GET request never changes the world: whatever the route and
  whatever the files, the world after the handler is the world
  before. *)
Theorem get_leaves_world root request req w resp w' :
parseRequestData CRLF blankString request = Some req →
Method req = lit "GET" →
serve root request w = Some (resp, w') → w' = w.
Proof.
intros Hparse Hm. unfold serve, handleUdpConnection.
rewrite Hparse. cbn [mbind option_bind].
assert (Hget : ∀ pathParam r,
  getHandler CRLF filepath_Join req pathParam root w = Some r → r.2 = w).
{ intros pathParam [[[body code] hdrs] w1]. unfold getHandler. rewrite Hm.
  rewrite bool_decide_eq_true_2 by done.
  destruct pathParam as [p|].
  - destruct (strings.Contains p (lit "/")); [by intros [= _ _ _ <-]|].
    destruct (ReadFile _ w); by intros [= _ _ _ <-].
  - destruct (listFiles root w); [|done]. by intros [= _ _ _ <-]. }
rewrite lookup_registered.
case_decide.
- destruct (getHandler _ _ req None root w) as [[[[body code] hdrs] w1]|] eqn:E;
    [|done].
  apply Hget in E. cbn [mbind option_bind]. by intros [= _ <-].
- destruct (findRoute_handler (registeredRoutes (W:=W) CRLF filepath_Join) req)
    as (pathParam & ->).
  cbn [mbind option_bind]. rewrite lookup_registered.
  case_decide; [|done]. cbn [mbind option_bind].
  destruct (getHandler _ _ req (Some pathParam) root w)
    as [[[[body code] hdrs] w1]|] eqn:E; [|done].
  apply Hget in E. cbn [mbind option_bind]. by intros [= _ <-].
Qed.

(** X19. A POST writes where the route says, with no check of the path:
  for a route other than "/", the body goes to the file named by the
  root directory joined with the path parameter that [findRoute]
  gives, the whole route when it has two or more slashes; the answer
  is 200 when the write succeeds and 500 when it fails. *)
Theorem post_writes_file root request req w body pathParam :
parseRequestData CRLF blankString request = Some req →
Method req = lit "POST" → Body req = Some body →
route req ≠ lit "/" →
snd <$> findRoute (registeredRoutes (W:=W) CRLF filepath_Join) req
= Some pathParam →
serve root request w
= let '(w', err) := WriteFile (filepath_Join root pathParam) body w in
  let text :=
    if err : bool
    then lit "Failed to write to file '" ++ pathParam ++ lit "'"
    else lit "Successfully written content to file" in
  Some (constructStructuredResponse CRLF reasonPhrase text
          (if err then 500 else 200) (makeHeaders CRLF text []), w').
Proof.
intros Hparse Hm Hb Hr Hfind. unfold serve, handleUdpConnection.
rewrite Hparse. cbn [mbind option_bind].
rewrite lookup_registered, decide_False by (by intros [_ ?]).
destruct (findRoute_handler (registeredRoutes (W:=W) CRLF filepath_Join) req)
  as (pathParam' & Hfind').
rewrite Hfind' in Hfind. injection Hfind as ->.
rewrite Hfind'. cbn [mbind option_bind].
rewrite lookup_registered, Hm, decide_True by (split; [by right|done]).
cbn [mbind option_bind]. unfold getHandler. rewrite Hm, Hb.
rewrite bool_decide_eq_false_2 by done.
rewrite bool_decide_eq_true_2 by done. cbn [mbind option_bind].
destruct (WriteFile _ body w) as [w' []]; done.
Qed.

(** X20. Every answer of the handler declares the length of its body:
  the status code is 200, 403, 404 or 500, and the headers begin with
  a Content-Length line giving the number of bytes of the body and a
  Content-Disposition line, whatever the request, the path parameter
  and the files. *)
Theorem handler_declares_length req pathParam root w body code hdrs w' :
getHandler CRLF filepath_Join req pathParam root w
= Some (body, code, hdrs, w') →
code ∈ [200; 403; 404; 500]
∧ ∃ extra,
    hdrs = lit "Content-Length:" ++ Itoa (Z.of_nat (length body)) ++ CRLF
             ++ lit "Content-Disposition:inline" ++ extra.
Proof.
assert (Hmk : ∀ b, makeHeaders CRLF b []
  = lit "Content-Length:" ++ Itoa (Z.of_nat (length b)) ++ CRLF
      ++ lit "Content-Disposition:inline" ++ []).
{ intros b. by rewrite makeHeaders_nil, app_nil_r. }
assert (H200 : (200 : Z) ∈ [200; 403; 404; 500]) by (apply list_elem_of_here).
assert (H403 : (403 : Z) ∈ [200; 403; 404; 500])
  by (apply list_elem_of_further, list_elem_of_here).
assert (H404 : (404 : Z) ∈ [200; 403; 404; 500])
  by (do 2 apply list_elem_of_further; apply list_elem_of_here).
assert (H500 : (500 : Z) ∈ [200; 403; 404; 500])
  by (do 3 apply list_elem_of_further; apply list_elem_of_here).
unfold getHandler. case_bool_decide.
- destruct pathParam as [p|].
  + destruct (strings.Contains p (lit "/")).
    { intros [= <- <- <- <-]. split; [done|]. eexists. apply Hmk. }
    destruct (ReadFile _ w) as [dat|].
    * intros [= <- <- <- <-]. split; [done|].
      exists (CRLF ++ getTypeHeader (Ext p)).
      change (makeHeaders CRLF (ReplaceAll dat [x0d; x0a] [x0a]) []
                ++ CRLF ++ getTypeHeader (Ext p)
              = lit "Content-Length:"
                  ++ Itoa (Z.of_nat (length (ReplaceAll dat [x0d; x0a] [x0a])))
                  ++ CRLF ++ lit "Content-Disposition:inline"
                  ++ CRLF ++ getTypeHeader (Ext p)).
      rewrite makeHeaders_nil. by rewrite <- !app_assoc.
    * intros [= <- <- <- <-]. split; [done|]. eexists. apply Hmk.
  + destruct (listFiles root w); [|done].
    intros [= <- <- <- <-]. split; [done|]. eexists. apply Hmk.
- case_bool_decide.
  + destruct pathParam as [p|]; [|done]. cbn [mbind option_bind].
    destruct (Body req) as [b|]; [|done]. cbn [mbind option_bind].
    destruct (WriteFile _ b w) as [w1 []];
      intros [= <- <- <- <-]; (split; [done|]); eexists; apply Hmk.
  + intros [= <- <- <- <-]. split; [done|]. eexists. apply Hmk.
Qed.

End FileServerTheorems.

Lemma post_root_panics_witness :
  handleUdpConnection crlf [] sampleReason (registeredRoutes crlf sampleJoin)
    (lit "/srv") postRoot sampleDisk
  = None.
Proof.
  apply (post_root_panics crlf [] sampleReason sampleJoin (lit "/srv") postRoot
           {| Method := lit "POST"; route := lit "/";
              headers := Some []; Body := Some (lit "hi") |} sampleDisk).
  - vm_compute. reflexivity.
  - reflexivity.
  - reflexivity.
Defined.

Lemma get_outside_root_forbidden_witness :
  handleUdpConnection crlf [] sampleReason (registeredRoutes crlf sampleJoin)
    (lit "/srv") getOutside sampleDisk
  = Some (constructStructuredResponse crlf sampleReason
            (lit "Access Forbidden: '" ++ lit "/../secret.txt"
               ++ lit "' is outside server root directory") 403
            (makeHeaders crlf
               (lit "Access Forbidden: '" ++ lit "/../secret.txt"
                  ++ lit "' is outside server root directory") []),
          sampleDisk).
Proof.
  apply (get_outside_root_forbidden crlf [] sampleReason sampleJoin
           (lit "/srv") getOutside
           {| Method := lit "GET"; route := lit "/../secret.txt";
              headers := None; Body := None |} sampleDisk
           [] (lit "..") (lit "secret.txt")).
  - vm_compute. reflexivity.
  - reflexivity.
  - reflexivity.
Defined.

Lemma get_leaves_world_witness :
  (default ([], sampleDisk)
     (handleUdpConnection crlf [] sampleReason
        (registeredRoutes crlf sampleJoin) (lit "/srv")
        (strings.Join getLines crlf ++ (crlf ++ crlf) ++ crlf) sampleDisk)).2
  = sampleDisk.
Proof.
  apply (get_leaves_world crlf [] sampleReason sampleJoin (lit "/srv")
           (strings.Join getLines crlf ++ (crlf ++ crlf) ++ crlf)
           {| Method := lit "GET"; route := lit "/hello.txt";
              headers := Some (lit "Host:localhost"); Body := None |}
           sampleDisk
           (default ([], sampleDisk)
              (handleUdpConnection crlf [] sampleReason
                 (registeredRoutes crlf sampleJoin) (lit "/srv")
                 (strings.Join getLines crlf ++ (crlf ++ crlf) ++ crlf)
                 sampleDisk)).1).
  - vm_compute. reflexivity.
  - reflexivity.
  - vm_compute. reflexivity.
Defined.

Lemma post_writes_file_witness :
  handleUdpConnection crlf [] sampleReason (registeredRoutes crlf sampleJoin)
    (lit "/srv") postOutside sampleDisk
  = let '(w', err) :=
      WriteFile (sampleJoin (lit "/srv") (lit "/../planted.txt")) (lit "hi")
        sampleDisk in
    let text :=
      if err : bool
      then lit "Failed to write to file '" ++ lit "/../planted.txt" ++ lit "'"
      else lit "Successfully written content to file" in
    Some (constructStructuredResponse crlf sampleReason text
            (if err then 500 else 200) (makeHeaders crlf text []), w').
Proof.
  apply (post_writes_file crlf [] sampleReason sampleJoin (lit "/srv")
           postOutside
           {| Method := lit "POST"; route := lit "/../planted.txt";
              headers := Some []; Body := Some (lit "hi") |}
           sampleDisk (lit "hi") (lit "/../planted.txt")).
  - vm_compute. reflexivity.
  - reflexivity.
  - reflexivity.
  - discriminate.
  - vm_compute. reflexivity.
Defined.

Lemma handler_declares_length_witness :
  (200 : Z) ∈ [200; 403; 404; 500]
  ∧ ∃ extra,
      lit "Content-Length:5" ++ crlf ++ lit "Content-Disposition:inline"
        ++ crlf ++ lit "Content-Type:text/plain"
      = lit "Content-Length:" ++ Itoa (Z.of_nat (length (lit "hello"))) ++ crlf
          ++ lit "Content-Disposition:inline" ++ extra.
Proof.
  apply (handler_declares_length crlf sampleJoin
           {| Method := lit "GET"; route := lit "/hello.txt";
              headers := None; Body := None |}
           (Some (lit "hello.txt")) (lit "/srv") sampleDisk
           (lit "hello") 200
           (lit "Content-Length:5" ++ crlf ++ lit "Content-Disposition:inline"
              ++ crlf ++ lit "Content-Type:text/plain")
           sampleDisk).
  vm_compute. reflexivity.
Defined.


(** ** The transport with the file server behind it *)

Lemma parseRequestData_nil CRLF blankString :
  CRLF ≠ [] → parseRequestData CRLF blankString [] = None.
Proof.
  intros HCRLF. unfold parseRequestData.
  assert (HCC : CRLF ++ CRLF ≠ []) by (by destruct CRLF).
  rewrite SplitN_2 by done.
  assert (Hi : ∀ sep, sep ≠ [] → strings.Index [] sep = -1).
  { intros sep Hsep. cbn [strings.Index]. by rewrite HasPrefix_nil_l. }
  rewrite (Hi _ HCC). change (-1 <? 0) with true. cbv iota.
  cbn [lookup list_lookup mbind option_bind].
  rewrite Split_none by (done || by apply Hi).
  destruct (decide ([] = blankString)) as [<-|Hb].
  - rewrite filter_cons_False by (by intros ?). done.
  - rewrite filter_cons_True by done. done.
Qed.

(** X21. With the HTTP side of the source behind the transport, a
    session that has not been told the number of request packets dies
    on its first DATA packet: the completeness check holds of the empty
    window, the emitter hands the empty request text to
    [handleUdpConnection], and the parser panics on it, whatever routes
    are registered. *)
Theorem unannounced_data_panics {W} CRLF blankString reasonPhrase
    (routeMap : routes (W:=W)) root (w : W) s data r :
  CRLF ≠ [] →
  wfSession s → totalNumPackets s = 0 →
  wfPacket data → byteZ <$> pType data !! 0%nat = Some 0 →
  Uint32 (seqNo data) = Some r →
  inAcks r (acks s) = false → 0 ≤ r < 1024 →
  let bridge := λ requestPayload,
    fst <$> handleUdpConnection CRLF blankString reasonPhrase routeMap root
              requestPayload w in
  (sessionStep bridge data s).2 = None
  ∧ handled (sessionStep bridge data s).1 = [[]].
Proof.
  intros HCRLF [Hlen (o0 & o1 & o2 & o3 & Haddr)] Htotal Hwf Hty0 Hseq Hin Hr
    bridge.
  assert (Hbridge : bridge [] = None).
  { unfold bridge, handleUdpConnection.
    by rewrite parseRequestData_nil. }
  destruct (wfPacket_inv _ Hwf)
    as (ty & r' & a0 & a1 & a2 & a3 & port & Hty & Hseq' & Ha & Hp & _).
  assert (r' = r) as -> by congruence.
  assert (byteZ ty = 0) as H0 by (rewrite Hty in Hty0; by injection Hty0).
  rewrite (sessionStep_data_closed _ o0 o1 o2 o3 port data Hp
             a0 a1 a2 a3 ty r Ha Hty Hseq s H0 Haddr Hlen), Hin.
  rewrite setAt_Some by lia. cbv zeta.
  set (hp := <[Z.to_nat r:=payload data]> (httpPayload s)).
  destruct (accepted_frame s r hp) as (Haddr2 & Hhp2 & Htot2).
  assert (Hlen2 : length hp = 1024%nat) by (unfold hp; by rewrite length_insert).
  assert (Hc : requestComplete (accepted s r hp) = Some true).
  { unfold requestComplete. rewrite Htot2, Htotal, Hhp2.
    change (0 =? 1) with false. cbn [andb].
    rewrite sub_Some by lia. reflexivity. }
  rewrite Hc, Htot2, Htotal, Hhp2.
  rewrite (writeResponseToClient_no_response bridge hp 0 _ _ []);
    [|by rewrite stringify_window by lia|done].
  cbn [fst snd]. split; [done|].
  by rewrite handled_app, handled_dataEvents.
Qed.

Lemma unannounced_data_panics_witness :
  (sessionStep
     (λ requestPayload,
        fst <$> handleUdpConnection crlf [] sampleReason
                  (registeredRoutes crlf sampleJoin) (lit "/srv")
                  requestPayload sampleDisk)
     (peerPacket 0 4 (lit "x")) freshSession).2 = None
  ∧ handled
      (sessionStep
         (λ requestPayload,
            fst <$> handleUdpConnection crlf [] sampleReason
                      (registeredRoutes crlf sampleJoin) (lit "/srv")
                      requestPayload sampleDisk)
         (peerPacket 0 4 (lit "x")) freshSession).1 = [[]].
Proof.
  apply (unannounced_data_panics crlf [] sampleReason
           (registeredRoutes crlf sampleJoin) (lit "/srv") sampleDisk
           freshSession (peerPacket 0 4 (lit "x")) 4).
  - discriminate.
  - split; [reflexivity|by exists x7f, x00, x00, x01].
  - reflexivity.
  - repeat split.
  - reflexivity.
  - reflexivity.
  - reflexivity.
  - lia.
Defined.


(** * The client *)

(** ** Splitting and joining by one byte *)

Lemma Join_Split_byte s c : strings.Join (Split s c) [c] = s.
Proof.
  induction s as [|d s IH]; cbn [Split]; [done|].
  pose proof (Split_byte_nonempty s c) as Hne.
  destruct (Byte.eqb d c) eqn:E.
  - apply byte_eqb_eq in E as ->.
    destruct (Split s c) as [|h t] eqn:Es; [done|].
    rewrite <- IH. reflexivity.
  - destruct (Split s c) as [|h [|h' t]] eqn:Es; [done| |];
      rewrite <- IH; reflexivity.
Qed.

Lemma Split_Join_byte c lines :
  lines ≠ [] → Forall (λ l, c ∉ l) lines →
  Split (strings.Join lines [c]) c = lines.
Proof.
  induction lines as [|l [|l' lines] IH]; intros Hne Hall; [done| |].
  - apply list.Forall_cons in Hall as [Hl _]. by apply Split_byte_none.
  - apply list.Forall_cons in Hall as [Hl Hall].
    rewrite Join_cons. cbn [app]. rewrite Split_byte_app by done.
    by rewrite IH.
Qed.

Lemma Itoa_digits n : 0 ≤ n < 2 ^ 63 → forallb isDigit (Itoa n) = true.
Proof.
  intros Hn. unfold Itoa. destruct (Z.ltb_spec n 0) as [?|_]; [lia|].
  destruct (digits_spec 19 n []) as (d & ds & -> & Hall & _).
  { change (10 ^ Z.of_nat 20) with 100000000000000000000. lia. }
  by rewrite app_nil_r.
Qed.

Lemma Itoa_no_byte n c :
  0 ≤ n < 2 ^ 63 → isDigit c = false → c ∉ Itoa n.
Proof.
  intros Hn Hc Hin. pose proof (Itoa_digits n Hn) as Hall.
  rewrite forallb_forall in Hall.
  apply list_elem_of_In, Hall in Hin. congruence.
Qed.

(** ** The parts of a response *)

Lemma Split_two sep pre body :
  sep ≠ [] → sepFree sep pre → strings.Index body sep = -1 →
  strings.Split (pre ++ sep ++ body) sep = [pre; body].
Proof.
  intros Hsep Hpre Hbody. unfold strings.Split.
  rewrite genSplit_nonempty by done. cbv zeta.
  change (-1 <? 0) with true. cbv iota.
  pose proof (sep_length sep Hsep) as Hs1.
  assert (Hcount : strings.countLoop (length (pre ++ sep ++ body))
                     (pre ++ sep ++ body) sep = 1).
  { rewrite !length_app.
    destruct (length pre + (length sep + length body))%nat as [|fuel] eqn:E;
      [lia|].
    cbn [strings.countLoop]. rewrite (Index_sepFree sep pre body Hpre).
    destruct (Z.ltb_spec (Z.of_nat (length pre)) 0); [lia|].
    rewrite Nat2Z.id, app_assoc, drop_app_length' by (by rewrite length_app).
    destruct fuel; cbn [strings.countLoop]; [done|]. by rewrite Hbody. }
  rewrite Hcount. rewrite !length_app.
  destruct (Z.ltb_spec
              (Z.of_nat (length pre + (length sep + length body)) + 1) (1 + 1))
    as [?|_]; [lia|].
  change (Z.to_nat (1 + 1 - 1)) with 1%nat. cbn [strings.splitLoop].
  rewrite (Index_sepFree sep pre body Hpre).
  destruct (Z.ltb_spec (Z.of_nat (length pre)) 0); [lia|].
  rewrite Nat2Z.id, take_app_length.
  rewrite app_assoc, drop_app_length' by (by rewrite length_app). done.
Qed.

Lemma splitLoop_length sep cuts : ∀ s,
  (length (strings.splitLoop cuts s sep) ≤ S cuts)%nat.
Proof.
  induction cuts as [|cuts IH]; intros s; cbn [strings.splitLoop]; [simpl; lia|].
  destruct (strings.Index s sep <? 0); [simpl; lia|].
  cbn [length]. specialize (IH (drop (Z.to_nat (strings.Index s sep) + length sep) s)).
  lia.
Qed.

Lemma Split_three sep pre body :
  sep ≠ [] → sepFree sep pre → 0 ≤ strings.Index body sep →
  (3 ≤ length (strings.Split (pre ++ sep ++ body) sep))%nat.
Proof.
  intros Hsep Hpre Hbody. unfold strings.Split.
  rewrite genSplit_nonempty by done. cbv zeta.
  change (-1 <? 0) with true. cbv iota.
  pose proof (sep_length sep Hsep) as Hs1.
  destruct (Index_range body sep) as [?|[_ Hb]]; [lia|].
  assert (Hcount : 2 ≤ strings.countLoop (length (pre ++ sep ++ body))
                         (pre ++ sep ++ body) sep).
  { rewrite !length_app.
    destruct (length pre + (length sep + length body))%nat as [|fuel] eqn:E;
      [lia|].
    cbn [strings.countLoop]. rewrite (Index_sepFree sep pre body Hpre).
    destruct (Z.ltb_spec (Z.of_nat (length pre)) 0); [lia|].
    rewrite Nat2Z.id, app_assoc, drop_app_length' by (by rewrite length_app).
    destruct fuel as [|fuel]; [lia|]. cbn [strings.countLoop].
    destruct (Z.ltb_spec (strings.Index body sep) 0); [lia|].
    assert (∀ f s, 0 ≤ strings.countLoop f s sep) as Hnn.
    { induction f as [|f IHf]; intros s; cbn [strings.countLoop]; [lia|].
      destruct (_ <? 0); [lia|]. specialize (IHf (drop (Z.to_nat (strings.Index s sep) + length sep) s)). lia. }
    specialize (Hnn fuel (drop (Z.to_nat (strings.Index body sep) + length sep) body)).
    lia. }
  rewrite !length_app in *.
  set (k := strings.countLoop _ _ sep) in *.
  set (L := (length pre + (length sep + length body))%nat) in *.
  assert (HL : 2 * Z.of_nat (length sep) ≤ Z.of_nat L) by (unfold L; lia).
  remember (Z.to_nat ((if Z.of_nat L + 1 <? k + 1 then Z.of_nat L + 1 else k + 1) - 1))
    as cuts eqn:Ecuts.
  assert (2 ≤ cuts)%nat as Hc.
  { destruct (Z.ltb_spec (Z.of_nat L + 1) (k + 1)); lia. }
  destruct cuts as [|[|cuts]]; [lia|lia|].
  cbn [strings.splitLoop]. rewrite (Index_sepFree sep pre body Hpre).
  destruct (Z.ltb_spec (Z.of_nat (length pre)) 0); [lia|].
  rewrite Nat2Z.id.
  rewrite app_assoc, drop_app_length' by (by rewrite length_app).
  destruct (Z.ltb_spec (strings.Index body sep) 0); [lia|].
  cbn [length].
  destruct cuts; cbn [strings.splitLoop]; [simpl; lia|].
  destruct (_ <? 0); simpl; lia.
Qed.


(** ** Reading a response *)

Lemma no_byte_app (c : byte) l1 l2 : c ∉ l1 → c ∉ l2 → c ∉ l1 ++ l2.
Proof. intros H1 H2 [?|?]%elem_of_app; done. Qed.

(** X22. The client reads what the server writes: a response built by
    [constructStructuredResponse] with carriage return and line feed
    for [CRLF], from a status code, a reason phrase without a line feed,
    headers and a body, where the status line with the headers holds no
    blank line and neither does the body, is parsed by [FromString] into
    the protocol HTTP/1.0, that status code, those headers and that
    body. *)
Theorem client_reads_server_response reasonPhrase body code hdrs :
  let statusLine :=
    lit "HTTP/1.0 " ++ Itoa code ++ lit " " ++ reasonPhrase code ++ lit " "
      ++ crlf in
  0 ≤ code < 2 ^ 63 →
  x0a ∉ reasonPhrase code →
  sepFree (crlf ++ crlf) (statusLine ++ hdrs) →
  strings.Index body (crlf ++ crlf) = -1 →
  libhttpc.FromString crlf
    (constructStructuredResponse crlf reasonPhrase body code hdrs)
  = Some (Some {| libhttpc.Protocol := lit "HTTP/1.0";
                  libhttpc.StatusCode := code;
                  libhttpc.Headers := hdrs;
                  libhttpc.Body := body |}, None).
Proof.
  intros statusLine Hcode Hreason Hpre Hbody.
  unfold libhttpc.FromString, constructStructuredResponse.
  fold statusLine. rewrite (app_assoc statusLine hdrs).
  rewrite Split_two by done.
  cbn [length Nat.eqb lookup list_lookup mbind option_bind].
  set (first := lit "HTTP/1.0 " ++ Itoa code ++ lit " " ++ reasonPhrase code
                  ++ lit " " ++ [x0d]).
  assert (Hsl : statusLine ++ hdrs = first ++ x0a :: hdrs).
  { unfold statusLine, first, crlf. rewrite <- !app_assoc. done. }
  assert (Hnl : x0a ∉ first).
  { unfold first. repeat apply no_byte_app; try done.
    - intros Hin. by repeat (apply elem_of_cons in Hin as [?|Hin]; [done|]);
        apply elem_of_nil in Hin.
    - by apply Itoa_no_byte.
    - by intros ?%list_elem_of_singleton.
    - by intros ?%list_elem_of_singleton.
    - by intros ?%list_elem_of_singleton. }
  rewrite Hsl, (Split_byte_app x0a first hdrs Hnl).
  cbn [lookup list_lookup mbind option_bind].
  assert (Hp : strings.HasPrefix first (lit "HTTP") = true).
  { apply HasPrefix_spec. by eexists. }
  rewrite Hp.
  assert (Hsp : Split first " "%byte
                = lit "HTTP/1.0" :: Itoa code
                    :: Split (reasonPhrase code ++ lit " " ++ [x0d]) " "%byte).
  { unfold first.
    change (lit "HTTP/1.0 " ++ Itoa code ++ lit " " ++ reasonPhrase code
              ++ lit " " ++ [x0d])
      with (lit "HTTP/1.0" ++ " "%byte :: Itoa code
              ++ " "%byte :: reasonPhrase code ++ lit " " ++ [x0d]).
    rewrite Split_byte_app.
    2:{ intros Hin. by repeat (apply elem_of_cons in Hin as [?|Hin]; [done|]);
          apply elem_of_nil in Hin. }
    rewrite Split_byte_app by (by apply Itoa_no_byte). done. }
  rewrite Hsp. cbn [lookup list_lookup mbind option_bind].
  unfold libhttpc.parseStatusCode. rewrite Atoi_Itoa by done.
  cbn [mbind option_bind].
  rewrite sub_Some by (cbn [length]; lia). cbn [mbind option_bind].
  change (Z.to_nat 1) with 1%nat. cbn [drop].
  rewrite ?drop_0, take_ge by (cbn [length]; lia).
  by rewrite Join_Split_byte.
Qed.

Lemma client_reads_server_response_witness :
  libhttpc.FromString crlf
    (constructStructuredResponse crlf sampleReason (lit "hello") 200
       (lit "Content-Length:5"))
  = Some (Some {| libhttpc.Protocol := lit "HTTP/1.0";
                  libhttpc.StatusCode := 200;
                  libhttpc.Headers := lit "Content-Length:5";
                  libhttpc.Body := lit "hello" |}, None).
Proof.
  apply (client_reads_server_response sampleReason (lit "hello") 200
           (lit "Content-Length:5")).
  - lia.
  - apply (bool_decide_unpack _). vm_compute. reflexivity.
  - vm_compute. reflexivity.
  - vm_compute. reflexivity.
Defined.

(** X23. [FromString] returns neither a response nor an error for a text
    that does not consist of exactly two parts around a blank line: a
    text without a blank line, and a text with a blank line whose rest
    holds another one, as a response whose body has an empty line. *)
Theorem response_not_parsed CRLF response :
  CRLF ≠ [] →
  strings.Index response (CRLF ++ CRLF) = -1
  ∨ (∃ pre body, response = pre ++ (CRLF ++ CRLF) ++ body
                 ∧ sepFree (CRLF ++ CRLF) pre
                 ∧ 0 ≤ strings.Index body (CRLF ++ CRLF)) →
  libhttpc.FromString CRLF response = Some (None, None).
Proof.
  intros HCRLF Hcase. unfold libhttpc.FromString.
  assert (HCC : CRLF ++ CRLF ≠ []) by (by destruct CRLF).
  destruct Hcase as [Hnone|(pre & body & -> & Hpre & Hbody)].
  - by rewrite Split_none.
  - pose proof (Split_three _ pre body HCC Hpre Hbody) as H3.
    destruct (Nat.eqb_spec (length (strings.Split (pre ++ (CRLF ++ CRLF) ++ body)
                                      (CRLF ++ CRLF))) 2); [lia|done].
Qed.

Lemma response_not_parsed_witness :
  libhttpc.FromString crlf
    (lit "HTTP/1.0 200 OK" ++ (crlf ++ crlf) ++ lit "a" ++ crlf ++ crlf ++ lit "b")
  = Some (None, None).
Proof.
  apply (response_not_parsed crlf
           (lit "HTTP/1.0 200 OK" ++ (crlf ++ crlf) ++ lit "a" ++ crlf ++ crlf
              ++ lit "b")).
  - discriminate.
  - right. exists (lit "HTTP/1.0 200 OK"), (lit "a" ++ crlf ++ crlf ++ lit "b").
    split; [reflexivity|]. split; [vm_compute; reflexivity|].
    vm_compute. discriminate.
Defined.


(** ** Following redirects *)

Section Redirects.

Variable CRLF : list byte.
Variable TrimSpace : list byte → list byte.
Context {N RequestHeader : Type}.
Variable Get : list byte → RequestHeader → N
             → (list byte * option libhttpc.error) * N.
Variable headers' : RequestHeader.

Lemma redirectLoop_bound iterations :
∀ response responseString net n out result net' n',
  libhttpc.redirectLoop CRLF TrimSpace (libhttpc.counted Get) iterations
    response responseString headers' (net, n)
  = (out, Some (result, (net', n'))) →
  (n ≤ n' ≤ n + iterations)%nat
  ∧ (result.2 = None → n' < n + iterations)%nat.
Proof.
induction iterations as [|iterations IH];
  intros response responseString net n out result net' n' Hrun;
  cbn [libhttpc.redirectLoop] in Hrun.
- injection Hrun as <- <- <- <-. split; [lia|done].
- destruct response as [r|]; [|done].
  destruct ((301 <=? libhttpc.StatusCode r) && (libhttpc.StatusCode r <=? 303)).
  2:{ injection Hrun as <- <- <- <-. split; [lia|]. intros _. lia. }
  case_bool_decide.
  2:{ injection Hrun as <- <- <- <-. split; [lia|done]. }
  unfold libhttpc.counted in Hrun at 1. cbn [fst snd] in Hrun.
  destruct (Get _ headers' net) as [[responseString' err] net1].
  destruct err as [e|].
  { injection Hrun as <- <- <- <-. split; [lia|done]. }
  destruct (libhttpc.FromString CRLF responseString') as [[response' [e|]]|];
    [| |done].
  { injection Hrun as <- <- <- <-. split; [lia|done]. }
  destruct (libhttpc.redirectLoop CRLF TrimSpace (libhttpc.counted Get)
              iterations response' responseString' headers' (net1, S n))
    as [out2 res2] eqn:Hrec.
  injection Hrun as <- ->.
  apply IH in Hrec as [Hle Hlt]. split; [lia|].
  intros Hok. specialize (Hlt Hok). lia.
Qed.

(** X24. [HandleRedirects] makes at most [5 - redirectCount] requests,
  and it returns a response text only if it made fewer: the text
  fetched by the last request that the count allows is never looked
  at, the call ends with the error of too many redirects. *)
Theorem redirects_bounded response responseString redirectCount
  net n out result net' n' :
libhttpc.HandleRedirects CRLF TrimSpace (libhttpc.counted Get)
  response responseString headers' redirectCount (net, n)
= (out, Some (result, (net', n'))) →
(n' ≤ n + Z.to_nat (5 - redirectCount))%nat
∧ (result.2 = None → n' < n + Z.to_nat (5 - redirectCount))%nat.
Proof.
unfold libhttpc.HandleRedirects. intros Hrun.
apply redirectLoop_bound in Hrun as [[_ Hle] Hlt]. done.
Qed.

End Redirects.

Lemma redirects_bounded_witness :
  (1 ≤ 0 + Z.to_nat (5 - 0))%nat
  ∧ ((foundText, @None libhttpc.error).2 = None
     → 1 < 0 + Z.to_nat (5 - 0))%nat.
Proof.
  apply (redirects_bounded crlf (λ s, s) sampleGet tt
           (Some movedResponse) [] 0 [foundText] 0%nat
           sampleRedirect.1 (foundText, None) [] 1%nat).
  vm_compute. reflexivity.
Defined.


(** ** The Location header *)

Lemma Index_byte_found (c : byte) name rest :
  c ∉ name → strings.Index (name ++ c :: rest) [c] = Z.of_nat (length name).
Proof.
  induction name as [|d name IH]; intros Hc; cbn [app].
  - rewrite Index_prefix; [done|]. apply HasPrefix_spec. by exists rest.
  - apply not_elem_of_cons in Hc as [Hd Hc].
    rewrite Index_cons. cbn [strings.HasPrefix].
    destruct (Byte.eqb d c) eqn:E; [by apply byte_eqb_eq in E|].
    cbn [andb]. rewrite IH by done.
    destruct (Z.ltb_spec (Z.of_nat (length name)) 0); [lia|].
    cbn [length]. lia.
Qed.

Lemma Index_byte_absent (c : byte) s : c ∉ s → strings.Index s [c] = -1.
Proof.
  induction s as [|d s IH]; intros Hc; [done|].
  apply not_elem_of_cons in Hc as [Hd Hc].
  rewrite Index_cons. cbn [strings.HasPrefix].
  destruct (Byte.eqb d c) eqn:E; [by apply byte_eqb_eq in E|].
  cbn [andb]. by rewrite IH.
Qed.

Lemma TrimSuffix_absent (c : byte) s : c ∉ s → strings.TrimSuffix s [c] = s.
Proof.
  intros Hc. unfold strings.TrimSuffix, strings.HasSuffix.
  destruct (length [c] <=? length s)%nat eqn:E; [|done].
  case_bool_decide as Hd; [|done]. exfalso. apply Hc.
  assert (Hin : c ∈ drop (length s - length [c]) s)
    by (rewrite Hd; apply list_elem_of_here).
  apply list_elem_of_lookup in Hin as [i Hi]. rewrite lookup_drop in Hi.
  by eapply list_elem_of_lookup_2.
Qed.

Lemma TrimSuffix_sub (c : byte) s suffix :
  c ∉ s → c ∉ strings.TrimSuffix s suffix.
Proof.
  intros Hc. unfold strings.TrimSuffix. destruct (strings.HasSuffix _ _); [|done].
  intros (i & Hi & _)%elem_of_take. apply Hc. by eapply list_elem_of_lookup_2.
Qed.

Section Location.

Variable TrimSpace : list byte → list byte.

Lemma extractLoop_skip before tail :
Forall otherHeader before →
libhttpc.extractLoop TrimSpace (before ++ tail)
= libhttpc.extractLoop TrimSpace tail.
Proof.
induction 1 as [|line before (name & rest & -> & Hname & Hloc) _ IH]; [done|].
cbn [app libhttpc.extractLoop]. change (lit ":") with [":"%byte].
rewrite Index_byte_found by done.
destruct (Z.ltb_spec (-1) (Z.of_nat (length name))); [|lia].
rewrite Nat2Z.id, take_app_length.
by rewrite bool_decide_eq_false_2.
Qed.

Lemma extractRedirectURI_lines lines :
lines ≠ [] → Forall (λ l, x0a ∉ l) lines →
libhttpc.extractRedirectURI TrimSpace (strings.Join lines [x0a])
= libhttpc.extractLoop TrimSpace lines.
Proof.
intros Hne Hall. unfold libhttpc.extractRedirectURI.
by rewrite Split_Join_byte.
Qed.

(** X25. The redirect target is taken from the first line of the
  headers that is named Location, when every line before it has a
  colon: it is the text after that colon without one carriage return
  at its end, trimmed by [TrimSpace]. *)
Theorem redirect_uri_found before value after :
Forall otherHeader before →
Forall (λ l, x0a ∉ l) (before ++ (lit "Location:" ++ value) :: after) →
libhttpc.extractRedirectURI TrimSpace
  (strings.Join (before ++ (lit "Location:" ++ value) :: after) [x0a])
= TrimSpace (strings.TrimSuffix value [x0d]).
Proof.
intros Hbefore Hall.
rewrite extractRedirectURI_lines by (done || by destruct before).
rewrite extractLoop_skip by done.
cbn [libhttpc.extractLoop]. change (lit ":") with [":"%byte].
change (lit "Location:" ++ value) with (lit "Location" ++ ":"%byte :: value).
rewrite Index_byte_found.
2:{ intros Hin. by repeat (apply elem_of_cons in Hin as [?|Hin]; [done|]);
      apply elem_of_nil in Hin. }
destruct (Z.ltb_spec (-1) (Z.of_nat (length (lit "Location")))); [|lia].
rewrite Nat2Z.id, take_app_length.
rewrite bool_decide_eq_true_2 by done.
replace (length (lit "Location") + 1)%nat
  with (length (lit "Location" ++ [":"%byte])) by done.
change (lit "Location" ++ ":"%byte :: value)
  with ((lit "Location" ++ [":"%byte]) ++ value).
rewrite drop_app_length.
rewrite (TrimSuffix_absent x0a); [done|].
apply TrimSuffix_sub.
apply Forall_app in Hall as [_ Hall].
apply list.Forall_cons in Hall as [Hv _].
intros Hin. apply Hv. apply elem_of_app. by right.
Qed.

(** X26. No redirect target is found, and the empty text returned,
  when no line of the headers is named Location, or when a line
  without a colon, an empty line for one, comes before the first
  that is. *)
Theorem redirect_uri_missing before tail :
Forall otherHeader before →
Forall (λ l, x0a ∉ l) (before ++ tail) →
tail = [] ∨ (∃ bad after, tail = bad :: after ∧ (":"%byte ∉ bad)) →
libhttpc.extractRedirectURI TrimSpace (strings.Join (before ++ tail) [x0a])
= [].
Proof.
intros Hbefore Hall Htail.
destruct (decide (before ++ tail = [])) as [Hnil|Hne].
- rewrite Hnil. reflexivity.
- rewrite extractRedirectURI_lines by done.
  rewrite extractLoop_skip by done.
  destruct Htail as [->|(bad & after & -> & Hbad)]; [done|].
  cbn [libhttpc.extractLoop]. change (lit ":") with [":"%byte].
  by rewrite Index_byte_absent.
Qed.

End Location.

Lemma redirect_uri_found_witness :
  libhttpc.extractRedirectURI (λ s, s)
    (strings.Join ([lit "Server:x"] ++ (lit "Location:" ++ lit "http://b/" ++ [x0d])
                     :: [lit "Age:1"]) [x0a])
  = (λ s, s) (strings.TrimSuffix (lit "http://b/" ++ [x0d]) [x0d]).
Proof.
  apply (redirect_uri_found (λ s, s) [lit "Server:x"]
           (lit "http://b/" ++ [x0d]) [lit "Age:1"]).
  - constructor; [|constructor].
    exists (lit "Server"), (lit "x"). split; [reflexivity|].
    split; [|discriminate].
    apply (bool_decide_unpack _). vm_compute. reflexivity.
  - repeat constructor; apply (bool_decide_unpack _); vm_compute; reflexivity.
Defined.

Lemma redirect_uri_missing_witness :
  libhttpc.extractRedirectURI (λ s, s)
    (strings.Join ([lit "Server:x"] ++ [[]; lit "Location:http://b/"]) [x0a])
  = [].
Proof.
  apply (redirect_uri_missing (λ s, s) [lit "Server:x"]
           [[]; lit "Location:http://b/"]).
  - constructor; [|constructor].
    exists (lit "Server"), (lit "x"). split; [reflexivity|].
    split; [|discriminate].
    apply (bool_decide_unpack _). vm_compute. reflexivity.
  - repeat constructor; apply (bool_decide_unpack _); vm_compute; reflexivity.
  - right. exists [], [lit "Location:http://b/"]. split; [reflexivity|].
    apply not_elem_of_nil.
Defined.


(** * A request and its answer *)

Section Answer.

Variable handleUdpConnection : list byte → option (list byte).
Variable chunks : list (list byte).
Variables (o0 o1 o2 o3 : byte) (port0 : Z).
Variables (resp : list byte) (bs : list (list byte)) (n : Z).

Hypothesis Hresp : handleUdpConnection (concat chunks) = Some resp.
Hypothesis Hbs :
getResponsePacketBytes 1 (dotted (byteZ o0) (byteZ o1) (byteZ o2) (byteZ o3))
  (wrap16 port0) resp = Some (bs, n).
Hypothesis Hlong : forallb isLong bs = true.

Lemma reassembly_answer pkts : ∀ order s,
(1 ≤ length chunks ≤ 1020)%nat →
Forall (λ c, c ≠ []) chunks →
Forall2 (carries chunks) pkts order → NoDup order → pkts ≠ [] →
awaiting chunks s order →
hostAddr s = dotted (byteZ o0) (byteZ o1) (byteZ o2) (byteZ o3) →
hostPort s = port0 →
∃ pre s',
  serveSession handleUdpConnection pkts s
  = (pre ++ HandleUdp (concat chunks) :: (WriteToUDP <$> bs), Some s')
  ∧ Forall notData (sent pre) ∧ handled pre = []
  ∧ responsePackets s' = decoded <$> bs.
Proof.
induction pkts as [|packet pkts IH];
  intros order s HK Hne Hcar Hnd Hpk Haw Haddr Hport; [done|].
destruct order as [|i order]; [by apply Forall2_cons_nil_inv in Hcar|].
apply Forall2_cons_1 in Hcar as [(Hwf & Hty0 & Hseq & Hchunk) Hcar].
apply list.NoDup_cons in Hnd as [Hi Hnd].
destruct Haw as ((Hlen & _) & Htot & Hslots).
destruct (wfPacket_inv _ Hwf)
  as (ty & r & a0 & a1 & a2 & a3 & port & Hty & Hseq' & Ha & Hp & Hr32).
assert (r = 4 + Z.of_nat i) as -> by congruence.
assert (byteZ ty = 0) as H0 by (rewrite Hty in Hty0; by injection Hty0).
pose proof (lookup_lt_Some _ _ _ Hchunk) as HiK.
pose proof (Hslots i _ Hchunk) as Hsi.
rewrite decide_True in Hsi by apply list_elem_of_here.
destruct Hsi as [_ Hin].
cbn [serveSession].
rewrite (sessionStep_data_closed _ o0 o1 o2 o3 port packet Hp
           a0 a1 a2 a3 ty _ Ha Hty Hseq s H0 Haddr Hlen), Hin.
rewrite setAt_Some by lia. cbv zeta.
replace (Z.to_nat (4 + Z.of_nat i)) with (4 + i)%nat by lia.
set (hp := <[(4 + i)%nat := payload packet]> (httpPayload s)).
destruct (accepted_frame s (4 + Z.of_nat i) hp) as (Haddr2 & Hhp2 & Htot2).
destruct (accepted_fields s (4 + Z.of_nat i) hp) as (Hport2 & Hacks2 & _).
assert (Hlen2 : length hp = 1024%nat) by (unfold hp; by rewrite length_insert).
assert (Hslots2 : ∀ j c, chunks !! j = Some c →
  if decide (j ∈ order)
  then hp !! (4 + j)%nat = Some []
       ∧ inAcks (4 + Z.of_nat j) (acks s ++ [4 + Z.of_nat i]) = false
  else hp !! (4 + j)%nat = Some c).
{ intros j c Hj. pose proof (Hslots j c Hj) as Hsj.
  destruct (decide (j ∈ order)) as [Hjo|Hjo].
  - assert (j ≠ i) by (intros ->; done).
    rewrite decide_True in Hsj by (by apply list_elem_of_further).
    destruct Hsj as [Hsl Hack]. split.
    + unfold hp. rewrite list_lookup_insert_ne by lia. done.
    + destruct (inAcks _ (acks s ++ _)) eqn:E; [|done].
      apply inAcks_true, elem_of_app in E as [E|E%list_elem_of_singleton].
      * apply inAcks_true in E. congruence.
      * lia.
  - destruct (decide (j = i)) as [->|Hji].
    + unfold hp. rewrite list_lookup_insert_eq by lia. congruence.
    + rewrite decide_False in Hsj
        by (intros [?|?]%elem_of_cons; done).
      unfold hp. rewrite list_lookup_insert_ne by lia. done. }
rewrite requestComplete_window_check by (rewrite ?Hhp2, ?Htot2; lia).
rewrite Hhp2, Htot2, Htot, Nat2Z.id.
destruct pkts as [|packet' pkts].
- (* the last chunk: the request is complete and answered *)
  apply Forall2_nil_inv_l in Hcar as ->.
  assert (Hwin : take (length chunks) (drop 4 hp) = chunks).
  { apply list_eq. intros j.
    destruct (decide (j < length chunks)%nat) as [Hj|Hj].
    - rewrite lookup_take_lt, lookup_drop by done.
      destruct (lookup_lt_is_Some_2 chunks j Hj) as [c Hc].
      pose proof (Hslots2 j c Hc) as Hsj.
      rewrite decide_False in Hsj by apply not_elem_of_nil. congruence.
    - rewrite lookup_take_ge by lia. symmetry.
      apply lookup_ge_None. lia. }
  rewrite Hwin. rewrite (proj2 (checkNotEmpty_true chunks) Hne).
  assert (Hreq : stringifyRequestPayload hp (Z.of_nat (length chunks))
                 = Some (concat chunks)).
  { rewrite stringify_window by lia. by rewrite Nat2Z.id, Hwin. }
  rewrite Haddr2, Haddr, Hport2, Hport.
  rewrite (writeResponseToClient_spec handleUdpConnection hp
             (Z.of_nat (length chunks)) _ port0 (concat chunks) resp bs n
             Hreq Hresp Hbs).
  rewrite Hlong, (longPrefix_all bs Hlong). cbn [serveSession].
  rewrite app_nil_r.
  eexists _, _. split; [reflexivity|].
  split; [apply dataEvents_notData|].
  split; [apply handled_dataEvents|done].
- (* more to come *)
  pose proof Hcar as Hcar'.
  destruct order as [|i' order]; [by apply Forall2_cons_nil_inv in Hcar|].
  apply Forall2_cons_1 in Hcar as [(_ & _ & _ & Hchunk') _].
  pose proof (Hslots2 i' _ Hchunk') as Hs'.
  rewrite decide_True in Hs' by apply list_elem_of_here.
  destruct Hs' as [Hempty _].
  rewrite checkNotEmpty_false.
  2:{ apply list_elem_of_lookup. exists i'.
      rewrite lookup_take_lt by (by eapply lookup_lt_Some).
      by rewrite lookup_drop. }
  destruct (IH (i' :: order) (accepted s (4 + Z.of_nat i) hp))
    as (pre & s' & Hrun & Hpre & Hh & Hrp); try done.
  { split; [split; [by rewrite Hhp2|rewrite Haddr2, Haddr; eauto]|].
    split; [by rewrite Htot2|].
    intros j c Hj. rewrite Hhp2, Hacks2. by apply Hslots2. }
  { by rewrite Haddr2. }
  { by rewrite Hport2. }
  rewrite Hrun.
  exists (dataEvents [o0; o1; o2; o3] port s (4 + Z.of_nat i) ++ pre), s'.
  split; [by rewrite <- app_assoc|].
  split; [rewrite sent_app; apply Forall_app; split;
          [apply dataEvents_notData|done]|].
  split; [by rewrite handled_app, handled_dataEvents|done].
Qed.

End Answer.

Lemma response_datagrams o0 o1 o2 o3 port seq resp :
  0 < Z.of_nat (length resp) →
  Z.of_nat (length resp) ≤ 1012 ∨ Z.of_nat (length resp) mod 1012 ≠ 0 →
  ∃ bs n,
    getResponsePacketBytes seq
      (dotted (byteZ o0) (byteZ o1) (byteZ o2) (byteZ o3)) port resp
    = Some (bs, n)
    ∧ forallb isLong bs = true
    ∧ concat (chunkOf <$> bs) = resp.
Proof.
  intros HL Hres.
  destruct (decide (ceilDiv (Z.of_nat (length resp)) 1012 = 1)) as [H1|H1].
  - assert (0 < length resp ≤ 1012)%nat as Hlen.
    { unfold ceilDiv in H1. revert H1. Z.div_mod_to_equations. lia. }
    rewrite getResponsePacketBytes_one by done.
    eexists _, _. split; [done|]. split.
    + cbn [forallb]. rewrite andb_true_r. apply isLong_true.
      rewrite length_app, length_frame. cbn [length]. lia.
    + cbn [fmap list_fmap concat]. rewrite chunkOf_frame by done.
      apply app_nil_r.
  - pose proof (getResponsePacketBytes_multi o0 o1 o2 o3 port seq resp) as H.
    cbv zeta in H. rewrite (H H1). clear H.
    set (L := Z.of_nat (length resp)) in *.
    set (N := ceilDiv L 1012) in *.
    assert (HL0 : 0 ≤ L) by lia.
    pose proof (ceilDiv_upper L HL0) as Hup.
    destruct (ceilDiv_bounds L HL0) as [[_ Hlow]|[? _]]; [|lia].
    fold N in Hup, Hlow.
    assert (HN2 : 2 ≤ N) by lia.
    assert (Hmod : 0 < L mod 1012).
    { destruct Hres as [Hres|Hres]; [lia|].
      pose proof (Z.mod_pos_bound L 1012). lia. }
    destruct (Z.ltb_spec 0 (L mod 1012)) as [_|?]; [|lia].
    destruct (chunkFrames_cover N [o0; o1; o2; o3] port resp
                (Z.to_nat (N - 1)) eq_refl seq 0) as [Hcat _];
      [lia|slia|].
    eexists _, _. split; [done|]. split.
    + rewrite forallb_app, chunkFrames_long by done. cbn [forallb andb].
      rewrite andb_true_r. apply isLong_true.
      rewrite length_app, length_frame. cbn [length]. lia.
    + rewrite fmap_app, concat_app, Hcat. cbn [fmap list_fmap concat].
      rewrite chunkOf_frame by done. rewrite app_nil_r.
      change (Z.to_nat 0) with 0%nat. rewrite drop_0.
      replace (Z.to_nat (1012 * Z.of_nat (Z.to_nat (N - 1))))
        with (Z.to_nat (1012 * (N - 1))) by lia.
      apply take_drop.
Qed.

(** X27. A request is answered: when the 1 to 1020 nonempty chunks of a
    request arrive in any order in a session that awaits them, and the
    HTTP side answers the request with a response that is not empty and
    whose length is at most 1012 or no multiple of 1012, the session
    survives; what it writes before the request is complete is no DATA
    datagram (ACKs and NAKs only), then it hands the request to the
    HTTP side once and writes the datagrams of the response, whose
    chunks joined in order are the response, and keeps them for
    retransmission. *)
Theorem request_answered bridge chunks s pkts order resp :
  (1 ≤ length chunks ≤ 1020)%nat →
  Forall (λ c, c ≠ []) chunks →
  order ≡ₚ seq 0 (length chunks) →
  Forall2 (carries chunks) pkts order →
  awaiting chunks s order →
  bridge (concat chunks) = Some resp →
  0 < Z.of_nat (length resp) →
  Z.of_nat (length resp) ≤ 1012 ∨ Z.of_nat (length resp) mod 1012 ≠ 0 →
  ∃ pre bs s',
    serveSession bridge pkts s
    = (pre ++ HandleUdp (concat chunks) :: (WriteToUDP <$> bs), Some s')
    ∧ Forall notData (sent pre) ∧ handled pre = []
    ∧ concat (chunkOf <$> bs) = resp
    ∧ responsePackets s' = decoded <$> bs.
Proof.
  intros HK Hne Hperm Hcar Haw Hresp HL Hres.
  pose proof Haw as ((_ & (o0 & o1 & o2 & o3 & Haddr)) & _).
  destruct (response_datagrams o0 o1 o2 o3 (wrap16 (hostPort s)) 1 resp HL Hres)
    as (bs & n & Hbs & Hlong & Hcat).
  destruct (reassembly_answer bridge chunks o0 o1 o2 o3 (hostPort s) resp bs n
              Hresp Hbs Hlong pkts order s)
    as (pre & s' & Hrun & Hpre & Hh & Hrp); try done.
  - rewrite Hperm. apply NoDup_seq.
  - intros ->. apply Forall2_nil_inv_l in Hcar as ->.
    apply Permutation_length in Hperm. rewrite length_seq in Hperm.
    cbn [length] in Hperm. lia.
  - exists pre, bs, s'. done.
Qed.

Lemma request_answered_witness :
  ∃ pre bs s',
    serveSession echoBridge
      [peerPacket 0 6 (lit "c"); peerPacket 0 4 (lit "a");
       peerPacket 0 5 (lit "b")]
      (announcedSession "3")
    = (pre ++ HandleUdp (concat [lit "a"; lit "b"; lit "c"])
         :: (WriteToUDP <$> bs), Some s')
    ∧ Forall notData (sent pre) ∧ handled pre = []
    ∧ concat (chunkOf <$> bs) = lit "HTTP/1.0 200 OK abc"
    ∧ responsePackets s' = decoded <$> bs.
Proof.
  apply (request_answered echoBridge [lit "a"; lit "b"; lit "c"]
           (announcedSession "3")
           [peerPacket 0 6 (lit "c"); peerPacket 0 4 (lit "a");
            peerPacket 0 5 (lit "b")]
           [2; 0; 1]%nat (lit "HTTP/1.0 200 OK abc")).
  - cbn [length]. lia.
  - repeat constructor; discriminate.
  - change (seq 0 (length [lit "a"; lit "b"; lit "c"])) with [0; 1; 2]%nat.
    etrans; [apply Permutation_swap|]. apply perm_skip, Permutation_swap.
  - repeat constructor; vm_compute; try reflexivity; try discriminate.
  - split; [split; [reflexivity|by exists x7f, x00, x00, x01]|].
    split; [reflexivity|].
    intros [|[|[|i]]] c Hc; try discriminate; vm_compute; split; reflexivity.
  - reflexivity.
  - vm_compute. reflexivity.
  - left. vm_compute. discriminate.
Defined.


(** * The NAKs of a session *)

Lemma increasing_nil : increasing [].
Proof. intros i j a b _ H. by rewrite lookup_nil in H. Qed.

Lemma increasing_seqZ a n : increasing (seqZ a n).
Proof.
  intros i j x y Hij Hi Hj.
  apply lookup_seqZ in Hi as [-> _]. apply lookup_seqZ in Hj as [-> _]. lia.
Qed.

Lemma increasing_app l1 l2 bound :
  increasing l1 → increasing l2 →
  Forall (λ a, a < bound) l1 → Forall (λ b, bound ≤ b) l2 →
  increasing (l1 ++ l2).
Proof.
  intros H1 H2 Hlt Hge i j a b Hij Hi Hj.
  rewrite list.Forall_forall in Hlt. rewrite list.Forall_forall in Hge.
  apply lookup_app_Some in Hi as [Hi|[Hil Hi]];
    apply lookup_app_Some in Hj as [Hj|[Hjl Hj]].
  - by eapply H1.
  - apply list_elem_of_lookup_2, Hlt in Hi.
    apply list_elem_of_lookup_2, Hge in Hj. lia.
  - apply lookup_lt_Some in Hj. lia.
  - eapply (H2 (i - length l1)%nat (j - length l1)%nat); [lia|done|done].
Qed.

Lemma naksSent_app t1 t2 : naksSent (t1 ++ t2) = naksSent t1 ++ naksSent t2.
Proof. unfold naksSent. by rewrite sent_app, omap_app. Qed.

Lemma nakOf_dataOnly b : dataOnly b → nakOf b = None.
Proof.
  intros H. unfold nakOf. destruct (headerOf b) as [[ty q]|] eqn:E; [|done].
  cbn [mbind option_bind]. by rewrite (H ty q E).
Qed.

Lemma omap_nakOf_dataOnly bs : Forall dataOnly bs → omap nakOf bs = [].
Proof.
  induction 1 as [|b bs Hb _ IH]; [done|].
  cbn [omap list_omap]. by rewrite (nakOf_dataOnly b Hb).
Qed.

Lemma nakOf_frame t seq addr4 port pl :
  0 ≤ t < 256 → t ≠ 4 → nakOf (frame t seq addr4 port pl) = None.
Proof.
  intros Ht H4. unfold nakOf.
  destruct (headerOf _) as [[ty q]|] eqn:E; [|done].
  apply headerOf_frame_type in E; [|done]. subst ty.
  cbn [mbind option_bind]. by destruct (Z.eqb_spec t 4).
Qed.

Lemma nakOf_nak k addr4 port :
  length addr4 = 4%nat → 0 ≤ k < 2 ^ 32 →
  nakOf (frame 4 k addr4 port []) = Some k.
Proof.
  intros Ha Hk. unfold nakOf. by rewrite headerOf_frame by (done || lia).
Qed.

Lemma naksSent_nakEvents addr4 port ks :
  length addr4 = 4%nat → Forall (λ k, 0 ≤ k < 2 ^ 32) ks →
  naksSent (nakEvents addr4 port ks) = ks.
Proof.
  intros Ha Hks. unfold naksSent. rewrite sent_nakEvents.
  induction Hks as [|k ks Hk _ IH]; [done|].
  cbn [fmap list_fmap omap list_omap]. rewrite nakOf_nak by done.
  f_equal. exact IH.
Qed.

Lemma naksSent_dataEvents addr4 port s r :
  length addr4 = 4%nat → 0 ≤ expectedSeqNo s → r < 2 ^ 32 →
  naksSent (dataEvents addr4 port s r)
  = if (r =? expectedSeqNo s) || (r <? expectedSeqNo s) then []
    else seqZ (expectedSeqNo s) (r - expectedSeqNo s).
Proof.
  intros Ha He Hr. unfold dataEvents. rewrite naksSent_app.
  unfold naksSent at 1. cbn [sent omap list_omap].
  rewrite nakOf_frame by lia. cbn [app].
  destruct (_ || _); [done|].
  apply naksSent_nakEvents; [done|].
  apply list.Forall_forall. intros k Hk%seqZ_range. lia.
Qed.

Lemma naksSent_writes bs :
  Forall dataOnly bs → naksSent (WriteToUDP <$> bs) = [].
Proof.
  intros H. unfold naksSent. rewrite sent_writes.
  by apply omap_nakOf_dataOnly.
Qed.

Lemma dataOnly_frame seq addr4 port pl extra :
  dataOnly (frame 0 seq addr4 port pl ++ extra).
Proof.
  intros ty q H.
  replace (frame 0 seq addr4 port pl ++ extra)
    with (frame 0 seq addr4 port (pl ++ extra)) in H
    by (unfold frame; by rewrite <- !app_assoc).
  apply headerOf_frame_type in H; lia.
Qed.

Lemma dataOnly_nil : dataOnly [].
Proof. intros ty q H. by rewrite headerOf_nil in H. Qed.

Lemma chunkFrames_dataOnly N addr4 port pl n : ∀ seq c,
  Forall dataOnly (chunkFrames N addr4 port pl n seq c).
Proof.
  induction n as [|n IH]; intros seq c; cbn [chunkFrames]; constructor.
  - apply dataOnly_frame.
  - apply IH.
Qed.

Lemma getResponsePacketBytes_dataOnly o0 o1 o2 o3 port seq resp bs n :
  getResponsePacketBytes seq
    (dotted (byteZ o0) (byteZ o1) (byteZ o2) (byteZ o3)) port resp
  = Some (bs, n) →
  Forall dataOnly bs.
Proof.
  destruct (decide (ceilDiv (Z.of_nat (length resp)) 1012 = 1)) as [H1|H1].
  - assert (0 < length resp ≤ 1012)%nat as Hlen.
    { unfold ceilDiv in H1. revert H1. Z.div_mod_to_equations. lia. }
    rewrite getResponsePacketBytes_one by done. intros Heq.
    assert (bs = [frame 0 seq [o0; o1; o2; o3] port resp ++ [toByte 1]])
      as -> by congruence.
    constructor; [apply dataOnly_frame|constructor].
  - pose proof (getResponsePacketBytes_multi o0 o1 o2 o3 port seq resp) as H.
    cbv zeta in H. rewrite (H H1). intros Heq.
    apply (inj Some) in Heq. apply (f_equal fst) in Heq.
    cbn [fst] in Heq. subst bs.
    apply Forall_app. split; [apply chunkFrames_dataOnly|].
    destruct (0 <? _).
    + constructor; [apply dataOnly_frame|constructor].
    + apply list.Forall_forall. intros b ->%elem_of_replicate_inv.
      apply dataOnly_nil.
Qed.

Section Naks.

Variable handleUdpConnection : list byte → option (list byte).

(** What the emitter writes, and what it returns to be kept, are DATA
  datagrams. *)
Lemma writeResponseToClient_dataOnly hp total o0 o1 o2 o3 hostPort' :
let r := writeResponseToClient handleUdpConnection hp total
           (dotted (byteZ o0) (byteZ o1) (byteZ o2) (byteZ o3)) hostPort' in
Forall dataOnly (sent r.1)
∧ ∀ rps n, r.2 = Some (rps, n) → Forall dataOnly (getBytesFromPacket <$> rps).
Proof.
cbv zeta.
destruct (stringifyRequestPayload hp total) as [req|] eqn:Hreq.
2:{ unfold writeResponseToClient, getResponsePayload. rewrite Hreq.
    split; [constructor|done]. }
destruct (handleUdpConnection req) as [resp|] eqn:Hresp.
2:{ rewrite (writeResponseToClient_no_response _ _ _ _ _ _ Hreq Hresp).
    split; [constructor|done]. }
destruct (getResponsePacketBytes 1
            (dotted (byteZ o0) (byteZ o1) (byteZ o2) (byteZ o3))
            (wrap16 hostPort') resp) as [[bs n]|] eqn:Hbs.
- pose proof (getResponsePacketBytes_dataOnly _ _ _ _ _ _ _ _ _ Hbs) as Hd.
  rewrite (writeResponseToClient_spec _ _ _ _ _ _ _ _ _ Hreq Hresp Hbs).
  cbn [fst snd sent]. rewrite sent_writes.
  split; [by apply Forall_longPrefix|].
  intros rps n'. destruct (forallb isLong bs) eqn:Hlong; [|done].
  intros [= <- _]. rewrite <- list_fmap_compose.
  apply list.Forall_fmap, list.Forall_forall. intros b Hb.
  cbn [compose]. rewrite getBytes_decoded.
  + rewrite list.Forall_forall in Hd. by apply Hd.
  + rewrite forallb_forall in Hlong. by apply Hlong, list_elem_of_In.
- unfold writeResponseToClient, getResponsePayload.
  rewrite !IO_bind_assoc.
  rewrite Hreq, bind_orPanic_Some, !IO_bind_assoc, bind_emit.
  cbn beta. rewrite Hresp, !bind_orPanic_Some, Hbs.
  split; [constructor|done].
Qed.

Lemma sendUnreceived_naks l rps :
Forall dataOnly (getBytesFromPacket <$> rps) →
naksSent (sendUnreceivedResponsePackets l rps).1 = [].
Proof.
intros Hd. rewrite sendUnreceived_spec. cbn [fst].
apply naksSent_writes, somePrefix_Forall.
intros nak b Hb%lookupNak_stored.
rewrite list.Forall_forall in Hd. by apply Hd.
Qed.

(** The NAKs of one pass: none, or, for a DATA packet ahead that fits
  the buffer, the numbers from [expectedSeqNo] up to the one before
  it. *)
Lemma step_naks s packet t1 o1 :
sessionInv2 s → wfPacket packet →
sessionStep handleUdpConnection packet s = (t1, o1) →
increasing (naksSent t1)
∧ Forall (λ k, expectedSeqNo s ≤ k < 1023) (naksSent t1)
∧ ∀ s1, o1 = Some s1 →
    sessionInv2 s1 ∧ Forall (λ k, k < expectedSeqNo s1) (naksSent t1)
    ∧ expectedSeqNo s ≤ expectedSeqNo s1.
Proof.
intros [Hinv Hstored] Hwf Hstep.
assert (Hquiet : naksSent t1 = [] →
  (∀ s1, o1 = Some s1 →
     Forall dataOnly (getBytesFromPacket <$> responsePackets s1)) →
  increasing (naksSent t1)
  ∧ Forall (λ k, expectedSeqNo s ≤ k < 1023) (naksSent t1)
  ∧ ∀ s1, o1 = Some s1 →
      sessionInv2 s1 ∧ Forall (λ k, k < expectedSeqNo s1) (naksSent t1)
      ∧ expectedSeqNo s ≤ expectedSeqNo s1).
{ intros -> Hkeep. split; [apply increasing_nil|]. split; [constructor|].
  intros s1 ->.
  destruct (step_inv _ _ _ _ _ Hinv Hwf Hstep) as [Hinv1 Hmono].
  split; [split; [done|by apply Hkeep]|]. split; [constructor|done]. }
destruct (wfPacket_inv _ Hwf)
  as (ty & r & a0 & a1 & a2 & a3 & port & Hty & Hseq & Ha & Hp & Hr).
pose proof Hinv as ((Hlen & (o0 & o1' & o2 & o3 & Haddr)) & He & Hacks).
destruct (decide (byteZ ty = 0)) as [H0|H0];
  [|destruct (decide (byteZ ty = 1)) as [H1|H1];
    [|destruct (decide (byteZ ty = 2)) as [H2|H2];
      [|destruct (decide (byteZ ty = 4)) as [H4|H4]]]].
- pose proof Hstep as Hstep0.
  rewrite (sessionStep_data_closed _ o0 o1' o2 o3 port packet Hp
             a0 a1 a2 a3 ty r Ha Hty Hseq s H0 Haddr Hlen) in Hstep.
  destruct (inAcks r (acks s)) eqn:Hin.
  { apply pair_equal_spec in Hstep as [<- <-]. apply Hquiet; [done|]. by intros s1 [= <-]. }
  destruct (setAt (httpPayload s) r (payload packet)) as [hp|] eqn:Hset.
  2:{ apply Hquiet; [|by destruct (r =? _); apply pair_equal_spec in Hstep as [<- <-]].
      destruct (r =? _); apply pair_equal_spec in Hstep as [<- <-];
        unfold naksSent; cbn [sent omap list_omap];
        by rewrite nakOf_frame by lia. }
  apply setAt_inv in Hset as [Hrange ->]. rewrite Hlen in Hrange.
  set (hp := <[Z.to_nat r:=payload packet]> (httpPayload s)) in *.
  destruct (accepted_inv s r hp Hinv Hin) as [Hinv2 Hmono];
    [lia|by unfold hp; rewrite length_insert|].
  destruct (accepted_fields s r hp) as (_ & _ & _ & _ & Hrp2).
  destruct (accepted_frame s r hp) as (Haddr2 & _ & _).
  assert (Hn : naksSent (dataEvents [o0; o1'; o2; o3] port s r)
               = if (r =? expectedSeqNo s) || (r <? expectedSeqNo s) then []
                 else seqZ (expectedSeqNo s) (r - expectedSeqNo s))
    by (apply naksSent_dataEvents; [done|lia..]).
  assert (Hexp : expectedSeqNo (accepted s r hp)
                 = if r =? expectedSeqNo s then expectedSeqNo s + 1
                   else if r <? expectedSeqNo s then expectedSeqNo s
                   else r + 1).
  { unfold accepted. destruct (Z.eqb_spec r (expectedSeqNo s)).
    - cbn. unfold wrap32. rewrite Z.mod_small; lia.
    - destruct (r <? expectedSeqNo s); [done|].
      cbn. unfold wrap32. rewrite Z.mod_small; lia. }
  assert (Hks : increasing
            (if (r =? expectedSeqNo s) || (r <? expectedSeqNo s) then []
             else seqZ (expectedSeqNo s) (r - expectedSeqNo s))
          ∧ Forall (λ k, expectedSeqNo s ≤ k < 1023)
              (if (r =? expectedSeqNo s) || (r <? expectedSeqNo s) then []
               else seqZ (expectedSeqNo s) (r - expectedSeqNo s))
          ∧ Forall (λ k, k < expectedSeqNo (accepted s r hp))
              (if (r =? expectedSeqNo s) || (r <? expectedSeqNo s) then []
               else seqZ (expectedSeqNo s) (r - expectedSeqNo s))).
  { rewrite Hexp.
    destruct (Z.eqb_spec r (expectedSeqNo s)); cbn [orb];
      [split; [apply increasing_nil|split; constructor]|].
    destruct (Z.ltb_spec r (expectedSeqNo s));
      [split; [apply increasing_nil|split; constructor]|].
    split; [apply increasing_seqZ|].
    split; apply list.Forall_forall; intros k Hk%seqZ_range; lia. }
  destruct Hks as (Hk1 & Hk2 & Hk3).
  cbv zeta in Hstep.
  destruct (requestComplete _) as [[]|].
  + pose proof (writeResponseToClient_dataOnly
                  (httpPayload (accepted s r hp))
                  (totalNumPackets (accepted s r hp)) o0 o1' o2 o3
                  (hostPort (accepted s r hp))) as [Hw1 Hw2].
    cbv zeta in Hw1, Hw2. rewrite Haddr2, Haddr in Hstep.
    destruct (writeResponseToClient _ _ _ _ _) as [t' [[rp n']|]];
      apply pair_equal_spec in Hstep as [<- <-]; cbn [fst snd] in Hw1, Hw2;
      rewrite naksSent_app, Hn;
      replace (naksSent t') with (@nil Z)
        by (symmetry; apply omap_nakOf_dataOnly, Hw1);
      rewrite app_nil_r;
      (split; [exact Hk1|split; [exact Hk2|]]); intros s1 [= <-].
    split; [split|].
    * eapply sessionInv_frame; [exact Hinv2|done..].
    * cbn [set_responsePackets responsePackets]. by eapply Hw2.
    * split; [exact Hk3|exact Hmono].
  + apply pair_equal_spec in Hstep as [<- <-]. rewrite Hn. split; [done|split; [done|]].
    intros s1 [= <-]. split; [split; [done|by rewrite Hrp2]|].
    split; [done|lia].
  + apply pair_equal_spec in Hstep as [<- <-]. rewrite Hn. split; [done|split; [done|]]. done.
- rewrite (sessionStep_ack _ port packet Hp a0 a1 a2 a3 ty r Ha Hty Hseq s H1)
    in Hstep.
  destruct (r =? 3).
  { apply pair_equal_spec in Hstep as [<- <-]. apply Hquiet; [done|]. by intros s1 [= <-]. }
  destruct (remove (responseNaksList s) packet) as [l'|].
  2:{ apply pair_equal_spec in Hstep as [<- <-]. by apply Hquiet. }
  pose proof (sendUnreceived_naks l' _ Hstored) as Hq.
  destruct (sendUnreceivedResponsePackets _ _) as [t' [[]|]];
    apply pair_equal_spec in Hstep as [<- <-]; cbn [fst] in Hq; apply Hquiet;
    rewrite ?naksSent_app, ?Hq; try done.
  by intros s1 [= <-].
- rewrite (sessionStep_syn _ port packet Hp a0 a1 a2 a3 ty r Ha Hty Hseq s H2)
    in Hstep.
  apply pair_equal_spec in Hstep as [<- <-]. apply Hquiet.
  + rewrite naksSent_app. unfold naksSent.
    destruct (Atoi (payload packet)).2; cbn [sent omap list_omap app];
      by rewrite nakOf_frame by lia.
  + intros s1 [= <-]. by destruct (0 <? _).
- rewrite (sessionStep_nak _ port packet Hp a0 a1 a2 a3 ty r Ha Hty Hseq s H4)
    in Hstep.
  pose proof (sendUnreceived_naks (responseNaksList s ++ [packet]) _ Hstored)
    as Hq.
  destruct (sendUnreceivedResponsePackets _ _) as [t' [[]|]];
    apply pair_equal_spec in Hstep as [<- <-]; cbn [fst] in Hq; apply Hquiet; try done.
  by intros s1 [= <-].
- rewrite (sessionStep_other _ port packet Hp a0 a1 a2 a3 ty r Ha Hty Hseq s
             H0 H1 H2 H4) in Hstep.
  apply pair_equal_spec in Hstep as [<- <-]. apply Hquiet; [done|]. by intros s1 [= <-].
Qed.

Lemma run_naks packets : ∀ s t o,
sessionInv2 s → Forall wfPacket packets →
serveSession handleUdpConnection packets s = (t, o) →
increasing (naksSent t)
∧ Forall (λ k, expectedSeqNo s ≤ k < 1023) (naksSent t).
Proof.
induction packets as [|packet packets IH]; intros s t o Hinv Hwf Hrun.
- injection Hrun as <- <-. split; [apply increasing_nil|constructor].
- apply list.Forall_cons in Hwf as [Hwf1 Hwf].
  cbn [serveSession] in Hrun.
  destruct (sessionStep handleUdpConnection packet s) as [t1 o1] eqn:Hstep.
  destruct (step_naks _ _ _ _ Hinv Hwf1 Hstep) as (Hi1 & Hb1 & Hnext).
  destruct o1 as [s1|]; [|by injection Hrun as <- <-].
  destruct (Hnext s1 eq_refl) as (Hinv1 & Hlt & Hmono).
  destruct (serveSession handleUdpConnection packets s1) as [t2 o2] eqn:Hrest.
  injection Hrun as <- <-.
  destruct (IH _ _ _ Hinv1 Hwf Hrest) as [Hi2 Hb2].
  rewrite naksSent_app. split.
  + apply (increasing_app _ _ (expectedSeqNo s1)); [done|done|done|].
    eapply list.Forall_impl; [exact Hb2|]. intros k Hk. cbn in Hk. lia.
  + apply Forall_app. split; [done|].
    eapply list.Forall_impl; [exact Hb2|]. intros k Hk. cbn in Hk. lia.
Qed.

Lemma reachable_inv2 s : reachable handleUdpConnection s → sessionInv2 s.
Proof.
induction 1 as [d packet a p key Hd|s d packet a p key t s' Hs IH Hd Hstep].
- split; [|constructor].
  apply decodeStep_inv in Hd as [_ (a0 & a1 & a2 & a3 & ->)].
  apply newSession_inv.
- apply decodeStep_inv in Hd as [Hwf _].
  destruct (step_naks _ _ _ _ IH Hwf Hstep) as (_ & _ & Hnext).
  by destruct (Hnext s' eq_refl).
Qed.

(** X28. A session NAKs every sequence number at most once: over any
  run of packets, from any session the server can reach, the sequence
  numbers of the NAKs it writes grow strictly, and they lie between
  the expected sequence number at the start and 1022. *)
Theorem naks_once s packets t o :
reachable handleUdpConnection s → Forall wfPacket packets →
serveSession handleUdpConnection packets s = (t, o) →
increasing (naksSent t)
∧ Forall (λ k, expectedSeqNo s ≤ k < 1023) (naksSent t).
Proof.
intros Hs Hwf Hrun.
exact (run_naks packets s t o (reachable_inv2 s Hs) Hwf Hrun).
Qed.

End Naks.

Lemma naks_once_witness :
  increasing
    (naksSent
       (serveSession echoBridge
          [peerPacket 0 6 (lit "c"); peerPacket 0 4 (lit "a")]
          (announcedSession "3")).1)
  ∧ Forall (λ k, expectedSeqNo (announcedSession "3") ≤ k < 1023)
      (naksSent
         (serveSession echoBridge
            [peerPacket 0 6 (lit "c"); peerPacket 0 4 (lit "a")]
            (announcedSession "3")).1).
Proof.
  apply (naks_once echoBridge (announcedSession "3")
           [peerPacket 0 6 (lit "c"); peerPacket 0 4 (lit "a")]
           (serveSession echoBridge
              [peerPacket 0 6 (lit "c"); peerPacket 0 4 (lit "a")]
              (announcedSession "3")).1
           (Some aheadSession)).
  - exact announced3_reachable.
  - repeat constructor.
  - vm_compute. reflexivity.
Defined.

(** ** Serving a file *)

Lemma extLoop_found r : ∀ rest suffix,
  "."%byte ∉ r → "/"%byte ∉ r →
  extLoop (r ++ "."%byte :: rest) suffix = "."%byte :: reverse r ++ suffix.
Proof.
  induction r as [|c r IH]; intros rest suffix Hdot Hslash; [done|].
  apply not_elem_of_cons in Hdot as [Hc1 Hdot].
  apply not_elem_of_cons in Hslash as [Hc2 Hslash].
  cbn [app extLoop].
  destruct (Byte.eqb c "/"%byte) eqn:E1; [by apply byte_eqb_eq in E1|].
  destruct (Byte.eqb c "."%byte) eqn:E2; [by apply byte_eqb_eq in E2|].
  rewrite IH by done. rewrite reverse_cons, <- app_assoc. done.
Qed.

Lemma Ext_suffix base ext :
  "."%byte ∉ ext → "/"%byte ∉ ext →
  Ext (base ++ "."%byte :: ext) = "."%byte :: ext.
Proof.
  intros Hdot Hslash. unfold Ext.
  rewrite reverse_app, reverse_cons, <- app_assoc. cbn [app].
  rewrite extLoop_found by (by rewrite elem_of_reverse).
  by rewrite reverse_involutive, app_nil_r.
Qed.

Lemma findRoute_single {W} (routeMap : routes (W:=W)) req pre name :
  route req = pre ++ "/"%byte :: name →
  ("/"%byte ∉ pre) → ("/"%byte ∉ name) →
  findRoute routeMap req
  = Some (lookupRoute routeMap (Method req) (lit "/"), name).
Proof.
  intros Hr Hpre Hname. unfold findRoute.
  rewrite Hr, Split_byte_app, Split_byte_none by done.
  done.
Qed.

(** X29. The content type follows the extension of the name: a name
    that ends in ".json", ".xml" or ".html" gets application/json,
    application/xml or text/html, and every other extension, ".txt"
    among them, gets text/plain. *)
Theorem type_by_extension base ext :
  ("."%byte ∉ ext) → ("/"%byte ∉ ext) →
  getTypeHeader (Ext (base ++ "."%byte :: ext))
  = lit "Content-Type:"
      ++ (if bool_decide (ext = lit "json") then lit "application/json"
          else if bool_decide (ext = lit "xml") then lit "application/xml"
          else if bool_decide (ext = lit "html") then lit "text/html"
          else lit "text/plain").
Proof.
  intros Hdot Hslash. rewrite Ext_suffix by done. unfold getTypeHeader.
  change (lit ".txt") with ("."%byte :: lit "txt").
  change (lit ".json") with ("."%byte :: lit "json").
  change (lit ".xml") with ("."%byte :: lit "xml").
  change (lit ".html") with ("."%byte :: lit "html").
  destruct (decide (ext = lit "txt")) as [->|Htxt]; [done|].
  rewrite (bool_decide_eq_false_2 (_ :: ext = _ :: lit "txt"))
    by (by intros [= ?]).
  destruct (decide (ext = lit "json")) as [->|Hjson]; [done|].
  rewrite (bool_decide_eq_false_2 (_ :: ext = _ :: lit "json"))
    by (by intros [= ?]).
  rewrite (bool_decide_eq_false_2 (ext = lit "json")) by done.
  destruct (decide (ext = lit "xml")) as [->|Hxml]; [done|].
  rewrite (bool_decide_eq_false_2 (_ :: ext = _ :: lit "xml"))
    by (by intros [= ?]).
  rewrite (bool_decide_eq_false_2 (ext = lit "xml")) by done.
  destruct (decide (ext = lit "html")) as [->|Hhtml]; [done|].
  rewrite (bool_decide_eq_false_2 (_ :: ext = _ :: lit "html"))
    by (by intros [= ?]).
  by rewrite (bool_decide_eq_false_2 (ext = lit "html")) by done.
Qed.

Lemma type_by_extension_witness :
  getTypeHeader (Ext (lit "notes.v2" ++ "."%byte :: lit "json"))
  = lit "Content-Type:"
      ++ (if bool_decide (lit "json" = lit "json") then lit "application/json"
          else if bool_decide (lit "json" = lit "xml")
          then lit "application/xml"
          else if bool_decide (lit "json" = lit "html") then lit "text/html"
          else lit "text/plain").
Proof.
  apply (type_by_extension (lit "notes.v2") (lit "json")).
  - apply (bool_decide_unpack _). vm_compute. reflexivity.
  - apply (bool_decide_unpack _). vm_compute. reflexivity.
Defined.

Section ServeFile.

Context {W : Type} `{!FileSystem W}.
Variables (CRLF blankString : list byte) (reasonPhrase : Z → list byte).
Variable filepath_Join : list byte → list byte → list byte.

Let serve := handleUdpConnection (W:=W) CRLF blankString reasonPhrase
             (registeredRoutes CRLF filepath_Join).

(** X30. A GET for a route with one slash, other than "/", reads the
  file named by the part after the slash under the root directory.
  If the file is read the answer is 200, the body is the content with
  every CR LF turned into LF, and the headers give its length and the
  content type of the name; if not, the answer is 404 and names the
  file.  What stands before the slash is ignored. *)
Theorem get_file root request req w pre name :
parseRequestData CRLF blankString request = Some req →
Method req = lit "GET" →
route req = pre ++ "/"%byte :: name →
("/"%byte ∉ pre) → ("/"%byte ∉ name) → route req ≠ lit "/" →
serve root request w
= Some (match ReadFile (filepath_Join root name) w with
        | Some dat =>
            let text := ReplaceAll dat [x0d; x0a] [x0a] in
            constructStructuredResponse CRLF reasonPhrase text 200
              (makeHeaders CRLF text [] ++ CRLF ++ getTypeHeader (Ext name))
        | None =>
            let errStr :=
              lit "No file exists with name '" ++ name ++ lit "'" in
            constructStructuredResponse CRLF reasonPhrase errStr 404
              (makeHeaders CRLF errStr [])
        end, w).
Proof.
intros Hparse Hm Hr Hpre Hname Hne. unfold serve, handleUdpConnection.
rewrite Hparse. cbn [mbind option_bind].
rewrite lookup_registered, decide_False by (by intros [_ ?]).
rewrite (findRoute_single _ req pre name Hr Hpre Hname).
cbn [mbind option_bind].
rewrite lookup_registered, Hm, decide_True by (split; [by left|done]).
cbn [mbind option_bind]. unfold getHandler. rewrite Hm.
rewrite bool_decide_eq_true_2 by done.
unfold strings.Contains. change (lit "/") with ["/"%byte].
rewrite Index_byte_absent by done. change (0 <=? -1) with false. cbv iota.
by destruct (ReadFile _ w).
Qed.

End ServeFile.

Lemma get_file_witness :
  handleUdpConnection crlf [] sampleReason (registeredRoutes crlf sampleJoin)
    (lit "/srv") (strings.Join getLines crlf ++ (crlf ++ crlf) ++ crlf)
    sampleDisk
  = Some (match ReadFile (sampleJoin (lit "/srv") (lit "hello.txt")) sampleDisk
          with
          | Some dat =>
              let text := ReplaceAll dat [x0d; x0a] [x0a] in
              constructStructuredResponse crlf sampleReason text 200
                (makeHeaders crlf text [] ++ crlf
                   ++ getTypeHeader (Ext (lit "hello.txt")))
          | None =>
              let errStr :=
                lit "No file exists with name '" ++ lit "hello.txt" ++ lit "'"
              in
              constructStructuredResponse crlf sampleReason errStr 404
                (makeHeaders crlf errStr [])
          end, sampleDisk).
Proof.
  apply (get_file crlf [] sampleReason sampleJoin (lit "/srv")
           (strings.Join getLines crlf ++ (crlf ++ crlf) ++ crlf)
           {| Method := lit "GET"; route := lit "/hello.txt";
              headers := Some (lit "Host:localhost"); Body := None |}
           sampleDisk [] (lit "hello.txt")).
  - vm_compute. reflexivity.
  - reflexivity.
  - reflexivity.
  - apply not_elem_of_nil.
  - apply (bool_decide_unpack _). vm_compute. reflexivity.
  - discriminate.
Defined.
